(** * SafeBench replay buffers: a shallow embedding and its properties

    The development follows [safebench/gym_carla/replay_buffer.py]:
    the class [ReplayBuffer] (per-scenario transition buckets, the episode
    aggregator, the init-condition store and the two samplers) and the class
    [ReplayBuffer_Perception] (image / detection buckets and their sampler).

    Python objects are mutated in place, also by a call that later raises, so
    every method is a function from the object's state to an [outcome] that
    carries the state the call leaves behind together with either the
    returned value or the exception raised.  The global generator of
    [np.random] is an explicit stream of raw draws. *)

From Stdlib Require Import String ZArith Bool Arith Lia List.
From Stdlib Require QArith.
Import ListNotations.

(** ** The fragment of Python and numpy the buffers use *)

Module Py.

Inductive exn : Type :=
| IndexError
| KeyError
| TypeError
| ValueError
| ZeroDivisionError
| AssertionError
| RuntimeError.

(** A computation that reads but never writes the object: exception or value. *)
Definition res (A : Type) : Type := (exn + A)%type.

(** A method call on an object of state [S]. *)
Inductive outcome (S A : Type) : Type :=
| Ok (a : A) (s : S)
| Raise (e : exn) (s : S).
Arguments Ok {S A} a s.
Arguments Raise {S A} e s.

Definition M (S A : Type) : Type := S -> outcome S A.

Definition ret {S A} (a : A) : M S A := fun s => Ok a s.

Definition bind {S A B} (m : M S A) (k : A -> M S B) : M S B :=
  fun s => match m s with
           | Ok a s' => k a s'
           | Raise e s' => Raise e s'
           end.

Definition modify {S} (f : S -> S) : M S unit := fun s => Ok tt (f s).

(** A read-only computation run inside a method: the state is untouched. *)
Definition reads {S A} (f : S -> res A) : M S A :=
  fun s => match f s with
           | inl e => Raise e s
           | inr a => Ok a s
           end.

Definition lift {S A} (r : res A) : M S A := reads (fun _ => r).

Definition rbind {A B} (r : res A) (k : A -> res B) : res B :=
  match r with
  | inl e => inl e
  | inr a => k a
  end.

(** The state a call leaves behind, whether it returned or raised. *)
Definition state_of {S A} (o : outcome S A) : S :=
  match o with Ok _ s => s | Raise _ s => s end.

Definition fails {S A} (o : outcome S A) : Prop :=
  exists e s, o = Raise e s.

Definition failsb {S A} (o : outcome S A) : bool :=
  match o with Ok _ _ => false | Raise _ _ => true end.

(** [for i in l: body(i)], stopping at the first exception. *)
Fixpoint for_each {S} (l : list nat) (body : nat -> M S unit) : M S unit :=
  match l with
  | [] => ret tt
  | i :: l' => bind (body i) (fun _ => for_each l' body)
  end.

(** [for i in range(n): body(i)] *)
Definition for_range {S} (n : nat) (body : nat -> M S unit) : M S unit :=
  for_each (seq 0 n) body.

(** [l[i]] for a Python int [i]: a negative index counts from the end. *)
Definition py_index (n : nat) (i : Z) : option nat :=
  if (0 <=? i)%Z then
    if (i <? Z.of_nat n)%Z then Some (Z.to_nat i) else None
  else
    if (- Z.of_nat n <=? i)%Z then Some (Z.to_nat (Z.of_nat n + i)) else None.

Definition py_get {A} (l : list A) (i : Z) : res A :=
  match py_index (length l) i with
  | None => inl IndexError
  | Some k => match nth_error l k with
              | Some x => inr x
              | None => inl IndexError
              end
  end.

(** [l[i]] for a loop counter [i >= 0]. *)
Definition lookup {A} (l : list A) (i : nat) : res A :=
  match nth_error l i with
  | Some x => inr x
  | None => inl IndexError
  end.

(** Slice bounds are clipped to the list, never an error. *)
Definition clip (n : nat) (i : Z) : nat :=
  if (i <? 0)%Z then Z.to_nat (Z.max 0 (Z.of_nat n + i))
  else Nat.min (Z.to_nat i) n.

(** [l[start:]] *)
Definition slice_from {A} (start : Z) (l : list A) : list A :=
  skipn (clip (length l) start) l.

(** [l[lo:hi]] *)
Definition slice {A} (lo hi : Z) (l : list A) : list A :=
  firstn (clip (length l) hi - clip (length l) lo) (skipn (clip (length l) lo) l).

(** [np.where(l)[0]]: the positions of the true entries, in increasing order. *)
Fixpoint where_from (i : nat) (l : list bool) : list Z :=
  match l with
  | [] => []
  | d :: l' => if d then Z.of_nat i :: where_from (S i) l'
               else where_from (S i) l'
  end.

Definition np_where (l : list bool) : list Z := where_from 0 l.

(** [np.sum] *)
Definition np_sum (l : list Z) : Z := fold_right Z.add 0%Z l.

(** [np.max([0, x])] *)
Definition np_max0 (x : Z) : Z := Z.max 0 x.

(** The generator of [np.random]: the stream of raw draws still to come. *)
Definition rng : Type := nat -> nat.

(** [np.random.randint(0, high, size=size)]: [size] indices below [high],
    [ValueError] when the range is empty.  (For [size = 0] numpy may return an
    empty array instead; every caller below then stacks or concatenates an
    empty list, which is the same [ValueError].) *)
Definition randint (high size : nat) (g : rng) : res (list nat) :=
  if high =? 0 then inl ValueError
  else inr (map (fun k => g k mod high) (seq 0 size)).

(** [arr[sample_index]] with an index array. *)
Fixpoint take {A} (l : list A) (idx : list nat) : res (list A) :=
  match idx with
  | [] => inr []
  | i :: idx' =>
    match nth_error l i with
    | None => inl IndexError
    | Some x => match take l idx' with
                | inl e => inl e
                | inr xs => inr (x :: xs)
                end
    end
  end.

(** [np.stack(l)[sample_index]]; stacking an empty list is a [ValueError]. *)
Definition stack_take {A} (l : list A) (idx : list nat) : res (list A) :=
  match l with
  | [] => inl ValueError
  | _ => take l idx
  end.

(** [np.concatenate(l, axis=0)[sample_index]] *)
Definition concatenate_take {A} (l : list (list A)) (idx : list nat) : res (list A) :=
  match l with
  | [] => inl ValueError
  | _ => take (concat l) idx
  end.

(** [torch.cat(l)[sample_index]] *)
Definition cat_take {A} (l : list (list A)) (idx : list nat) : res (list A) :=
  match l with
  | [] => inl RuntimeError
  | _ => take (concat l) idx
  end.

(** The values met in the tag dictionaries: a Python int (the scenario id)
    or an opaque payload (array, tensor, image, label ...). *)
Inductive pyval (V : Type) : Type :=
| VInt (z : Z)
| VData (v : V).
Arguments VInt {V} z.
Arguments VData {V} v.

(** A [dict] with string keys, in insertion order. *)
Definition dict (A : Type) : Type := list (string * A).

Fixpoint dict_get {A} (key : string) (d : dict A) : option A :=
  match d with
  | [] => None
  | (k, v) :: d' => if String.eqb k key then Some v else dict_get key d'
  end.

Definition dict_has {A} (key : string) (d : dict A) : bool :=
  match dict_get key d with Some _ => true | None => false end.

(** [d[key] = v] *)
Fixpoint dict_set {A} (key : string) (v : A) (d : dict A) : dict A :=
  match d with
  | [] => [(key, v)]
  | (k, w) :: d' => if String.eqb k key then (k, v) :: d'
                    else (k, w) :: dict_set key v d'
  end.

(** [d[key].append(v)] for a column that exists. *)
Fixpoint dict_append {A} (key : string) (v : A) (d : dict (list A)) : dict (list A) :=
  match d with
  | [] => []
  | (k, c) :: d' => if String.eqb k key then (k, c ++ [v]) :: d'
                    else (k, c) :: dict_append key v d'
  end.

(** [if key not in d.keys(): d[key] = []] followed by [d[key].append(v)] *)
Definition dict_register_append {A} (key : string) (v : A) (d : dict (list A))
  : dict (list A) :=
  dict_append key v (if dict_has key d then d else dict_set key [] d).

(** [l[k].append(x)] on a list of lists. *)
Fixpoint app_at {A} (k : nat) (x : A) (l : list (list A)) {struct l}
  : list (list A) :=
  match l, k with
  | [], _ => []
  | h :: t, 0 => (h ++ [x]) :: t
  | h :: t, S k' => h :: app_at k' x t
  end.

(** [l[k] = x] for [k] in range. *)
Fixpoint set_at {A} (k : nat) (x : A) (l : list A) {struct l} : list A :=
  match l, k with
  | [], _ => []
  | _ :: t, 0 => x :: t
  | h :: t, S k' => h :: set_at k' x t
  end.

End Py.

Import Py.

Declare Scope py_scope.
Notation "x <- m ;; k" := (bind m (fun x => k))
  (at level 61, m at next level, right associativity) : py_scope.
Notation "m ;;; k" := (bind m (fun _ => k))
  (at level 61, right associativity) : py_scope.
Notation "x <~ r ;; k" := (rbind r (fun x => k))
  (at level 61, r at next level, right associativity) : py_scope.
Open Scope py_scope.

(** ** class ReplayBuffer *)

Module ReplayBuffer.

Section Model.

Context {V : Type}.

(** The attributes of a [ReplayBuffer] object.  Payloads (actions,
    observations, tensors) are opaque values of type [V]; rewards are numbers
    and done flags are booleans. *)
Record t : Type := {
  mode : string;
  buffer_capacity : Z;
  num_scenario : nat;
  buffer_len : Z;
  buffer_ego_actions : list (list V);
  buffer_scenario_actions : list (list V);
  buffer_obs : list (list V);
  buffer_next_obs : list (list V);
  buffer_rewards : list (list Z);
  buffer_dones : list (list bool);
  buffer_additional_dict : list (dict (list (pyval V)));
  buffer_static_obs : list V;
  buffer_init_action : list (list V);
  buffer_episode_reward : list Z;
  buffer_init_additional_dict : dict (list (list V));
  init_buffer_len : Z
}.

Definition set_buffer_len (x : Z) (b : t) : t :=
  {| mode := mode b; buffer_capacity := buffer_capacity b;
     num_scenario := num_scenario b; buffer_len := x;
     buffer_ego_actions := buffer_ego_actions b;
     buffer_scenario_actions := buffer_scenario_actions b;
     buffer_obs := buffer_obs b; buffer_next_obs := buffer_next_obs b;
     buffer_rewards := buffer_rewards b; buffer_dones := buffer_dones b;
     buffer_additional_dict := buffer_additional_dict b;
     buffer_static_obs := buffer_static_obs b;
     buffer_init_action := buffer_init_action b;
     buffer_episode_reward := buffer_episode_reward b;
     buffer_init_additional_dict := buffer_init_additional_dict b;
     init_buffer_len := init_buffer_len b |}.

Definition set_buffer_ego_actions (x : list (list V)) (b : t) : t :=
  {| mode := mode b; buffer_capacity := buffer_capacity b;
     num_scenario := num_scenario b; buffer_len := buffer_len b;
     buffer_ego_actions := x;
     buffer_scenario_actions := buffer_scenario_actions b;
     buffer_obs := buffer_obs b; buffer_next_obs := buffer_next_obs b;
     buffer_rewards := buffer_rewards b; buffer_dones := buffer_dones b;
     buffer_additional_dict := buffer_additional_dict b;
     buffer_static_obs := buffer_static_obs b;
     buffer_init_action := buffer_init_action b;
     buffer_episode_reward := buffer_episode_reward b;
     buffer_init_additional_dict := buffer_init_additional_dict b;
     init_buffer_len := init_buffer_len b |}.

Definition set_buffer_scenario_actions (x : list (list V)) (b : t) : t :=
  {| mode := mode b; buffer_capacity := buffer_capacity b;
     num_scenario := num_scenario b; buffer_len := buffer_len b;
     buffer_ego_actions := buffer_ego_actions b;
     buffer_scenario_actions := x;
     buffer_obs := buffer_obs b; buffer_next_obs := buffer_next_obs b;
     buffer_rewards := buffer_rewards b; buffer_dones := buffer_dones b;
     buffer_additional_dict := buffer_additional_dict b;
     buffer_static_obs := buffer_static_obs b;
     buffer_init_action := buffer_init_action b;
     buffer_episode_reward := buffer_episode_reward b;
     buffer_init_additional_dict := buffer_init_additional_dict b;
     init_buffer_len := init_buffer_len b |}.

Definition set_buffer_obs (x : list (list V)) (b : t) : t :=
  {| mode := mode b; buffer_capacity := buffer_capacity b;
     num_scenario := num_scenario b; buffer_len := buffer_len b;
     buffer_ego_actions := buffer_ego_actions b;
     buffer_scenario_actions := buffer_scenario_actions b;
     buffer_obs := x; buffer_next_obs := buffer_next_obs b;
     buffer_rewards := buffer_rewards b; buffer_dones := buffer_dones b;
     buffer_additional_dict := buffer_additional_dict b;
     buffer_static_obs := buffer_static_obs b;
     buffer_init_action := buffer_init_action b;
     buffer_episode_reward := buffer_episode_reward b;
     buffer_init_additional_dict := buffer_init_additional_dict b;
     init_buffer_len := init_buffer_len b |}.

Definition set_buffer_next_obs (x : list (list V)) (b : t) : t :=
  {| mode := mode b; buffer_capacity := buffer_capacity b;
     num_scenario := num_scenario b; buffer_len := buffer_len b;
     buffer_ego_actions := buffer_ego_actions b;
     buffer_scenario_actions := buffer_scenario_actions b;
     buffer_obs := buffer_obs b; buffer_next_obs := x;
     buffer_rewards := buffer_rewards b; buffer_dones := buffer_dones b;
     buffer_additional_dict := buffer_additional_dict b;
     buffer_static_obs := buffer_static_obs b;
     buffer_init_action := buffer_init_action b;
     buffer_episode_reward := buffer_episode_reward b;
     buffer_init_additional_dict := buffer_init_additional_dict b;
     init_buffer_len := init_buffer_len b |}.

Definition set_buffer_rewards (x : list (list Z)) (b : t) : t :=
  {| mode := mode b; buffer_capacity := buffer_capacity b;
     num_scenario := num_scenario b; buffer_len := buffer_len b;
     buffer_ego_actions := buffer_ego_actions b;
     buffer_scenario_actions := buffer_scenario_actions b;
     buffer_obs := buffer_obs b; buffer_next_obs := buffer_next_obs b;
     buffer_rewards := x; buffer_dones := buffer_dones b;
     buffer_additional_dict := buffer_additional_dict b;
     buffer_static_obs := buffer_static_obs b;
     buffer_init_action := buffer_init_action b;
     buffer_episode_reward := buffer_episode_reward b;
     buffer_init_additional_dict := buffer_init_additional_dict b;
     init_buffer_len := init_buffer_len b |}.

Definition set_buffer_dones (x : list (list bool)) (b : t) : t :=
  {| mode := mode b; buffer_capacity := buffer_capacity b;
     num_scenario := num_scenario b; buffer_len := buffer_len b;
     buffer_ego_actions := buffer_ego_actions b;
     buffer_scenario_actions := buffer_scenario_actions b;
     buffer_obs := buffer_obs b; buffer_next_obs := buffer_next_obs b;
     buffer_rewards := buffer_rewards b; buffer_dones := x;
     buffer_additional_dict := buffer_additional_dict b;
     buffer_static_obs := buffer_static_obs b;
     buffer_init_action := buffer_init_action b;
     buffer_episode_reward := buffer_episode_reward b;
     buffer_init_additional_dict := buffer_init_additional_dict b;
     init_buffer_len := init_buffer_len b |}.

Definition set_buffer_additional_dict (x : list (dict (list (pyval V)))) (b : t) : t :=
  {| mode := mode b; buffer_capacity := buffer_capacity b;
     num_scenario := num_scenario b; buffer_len := buffer_len b;
     buffer_ego_actions := buffer_ego_actions b;
     buffer_scenario_actions := buffer_scenario_actions b;
     buffer_obs := buffer_obs b; buffer_next_obs := buffer_next_obs b;
     buffer_rewards := buffer_rewards b; buffer_dones := buffer_dones b;
     buffer_additional_dict := x;
     buffer_static_obs := buffer_static_obs b;
     buffer_init_action := buffer_init_action b;
     buffer_episode_reward := buffer_episode_reward b;
     buffer_init_additional_dict := buffer_init_additional_dict b;
     init_buffer_len := init_buffer_len b |}.

Definition set_buffer_episode_reward (x : list Z) (b : t) : t :=
  {| mode := mode b; buffer_capacity := buffer_capacity b;
     num_scenario := num_scenario b; buffer_len := buffer_len b;
     buffer_ego_actions := buffer_ego_actions b;
     buffer_scenario_actions := buffer_scenario_actions b;
     buffer_obs := buffer_obs b; buffer_next_obs := buffer_next_obs b;
     buffer_rewards := buffer_rewards b; buffer_dones := buffer_dones b;
     buffer_additional_dict := buffer_additional_dict b;
     buffer_static_obs := buffer_static_obs b;
     buffer_init_action := buffer_init_action b;
     buffer_episode_reward := x;
     buffer_init_additional_dict := buffer_init_additional_dict b;
     init_buffer_len := init_buffer_len b |}.

(** [reset_buffer]: fresh, pairwise distinct empty buckets. *)
Definition reset_buffer (b : t) : t :=
  {| mode := mode b; buffer_capacity := buffer_capacity b;
     num_scenario := num_scenario b; buffer_len := buffer_len b;
     buffer_ego_actions := repeat [] (num_scenario b);
     buffer_scenario_actions := repeat [] (num_scenario b);
     buffer_obs := repeat [] (num_scenario b);
     buffer_next_obs := repeat [] (num_scenario b);
     buffer_rewards := repeat [] (num_scenario b);
     buffer_dones := repeat [] (num_scenario b);
     buffer_additional_dict := repeat [] (num_scenario b);
     buffer_static_obs := buffer_static_obs b;
     buffer_init_action := buffer_init_action b;
     buffer_episode_reward := buffer_episode_reward b;
     buffer_init_additional_dict := buffer_init_additional_dict b;
     init_buffer_len := init_buffer_len b |}.

(** [reset_init_buffer] *)
Definition reset_init_buffer (b : t) : t :=
  {| mode := mode b; buffer_capacity := buffer_capacity b;
     num_scenario := num_scenario b; buffer_len := buffer_len b;
     buffer_ego_actions := buffer_ego_actions b;
     buffer_scenario_actions := buffer_scenario_actions b;
     buffer_obs := buffer_obs b; buffer_next_obs := buffer_next_obs b;
     buffer_rewards := buffer_rewards b; buffer_dones := buffer_dones b;
     buffer_additional_dict := buffer_additional_dict b;
     buffer_static_obs := [];
     buffer_init_action := [];
     buffer_episode_reward := [];
     buffer_init_additional_dict := [];
     init_buffer_len := 0%Z |}.

(** [__init__(self, num_scenario, mode, buffer_capacity=1000)] *)
Definition init (num_scenario : nat) (mode : string) (buffer_capacity : Z) : t :=
  reset_init_buffer (reset_buffer
    {| mode := mode; buffer_capacity := buffer_capacity;
       num_scenario := num_scenario; buffer_len := 0%Z;
       buffer_ego_actions := []; buffer_scenario_actions := [];
       buffer_obs := []; buffer_next_obs := [];
       buffer_rewards := []; buffer_dones := [];
       buffer_additional_dict := [];
       buffer_static_obs := []; buffer_init_action := [];
       buffer_episode_reward := []; buffer_init_additional_dict := [];
       init_buffer_len := 0%Z |}).

(** *** finish_one_episode *)

(** One pass of the loop body for scenario [s_i]:
    [dones = np.where(self.buffer_dones[s_i])[0]],
    [start_ = dones[-2] if len(dones) > 1 else -1], [end_ = dones[-1]],
    then the sum of [self.buffer_rewards[s_i][start_+1:end_+1]] is appended
    to [self.buffer_episode_reward]. *)
Definition finish_row (s_i : nat) : M t unit :=
  ds <- reads (fun b => lookup (buffer_dones b) s_i) ;;
  let dones := np_where ds in
  start_ <- lift (if 1 <? length dones then py_get dones (-2) else inr (-1)%Z) ;;
  end_ <- lift (py_get dones (-1)) ;;
  rs <- reads (fun b => lookup (buffer_rewards b) s_i) ;;
  modify (fun b =>
    set_buffer_episode_reward
      (buffer_episode_reward b ++ [np_sum (slice (start_ + 1) (end_ + 1) rs)]) b).

Definition finish_one_episode : M t unit :=
  fun b => for_range (num_scenario b) finish_row b.

(** *** store *)

(** [data_list[0] .. data_list[5]] *)
Record data_list : Type := {
  ego_actions : list V;
  scenario_actions : list V;
  obs : list V;
  next_obs : list V;
  rewards : list Z;
  dones : list bool
}.

(** [self.<field>[sid].append(col[s_i])]: the bucket is looked up first (a
    non-integer [sid] is a [TypeError], one out of range an [IndexError]),
    then the batch entry. *)
Definition bucket_append {A} (get : t -> list (list A))
    (set : list (list A) -> t -> t) (sid : pyval V) (col : list A) (s_i : nat)
  : M t unit :=
  fun b =>
    match sid with
    | VData _ => Raise TypeError b
    | VInt i =>
      match py_index (length (get b)) i with
      | None => Raise IndexError b
      | Some k =>
        match nth_error col s_i with
        | None => Raise IndexError b
        | Some x => Ok tt (set (app_at k x (get b)) b)
        end
      end
    end.

(** Lines 81-83 for one key: the dictionary is the one at the batch position
    [s_i] of [self.buffer_additional_dict]. *)
Definition extra_append (s_i : nat) (key : string) (v : pyval V) : M t unit :=
  fun b =>
    match nth_error (buffer_additional_dict b) s_i with
    | None => Raise IndexError b
    | Some d =>
      Ok tt (set_buffer_additional_dict
               (set_at s_i (dict_register_append key v d)
                       (buffer_additional_dict b)) b)
    end.

(** [for key in additional_dict[s_i].keys(): ...] over the items of the tag
    entry (a dict: its keys are pairwise distinct). *)
Fixpoint store_extras (s_i : nat) (items : dict (pyval V)) : M t unit :=
  match items with
  | [] => ret tt
  | (key, v) :: items' =>
    if String.eqb key "scenario_id" then store_extras s_i items'
    else extra_append s_i key v ;;; store_extras s_i items'
  end.

(** The body of the loop of [store] at batch position [s_i]. *)
Definition store_row (data : data_list) (additional_dict : list (dict (pyval V)))
    (s_i : nat) : M t unit :=
  tag <- lift (lookup additional_dict s_i) ;;
  sid <- lift (match dict_get "scenario_id" tag with
               | Some v => inr v
               | None => inl KeyError
               end) ;;
  bucket_append buffer_ego_actions set_buffer_ego_actions sid (ego_actions data) s_i ;;;
  bucket_append buffer_scenario_actions set_buffer_scenario_actions sid
                (scenario_actions data) s_i ;;;
  bucket_append buffer_obs set_buffer_obs sid (obs data) s_i ;;;
  bucket_append buffer_next_obs set_buffer_next_obs sid (next_obs data) s_i ;;;
  bucket_append buffer_rewards set_buffer_rewards sid (rewards data) s_i ;;;
  bucket_append buffer_dones set_buffer_dones sid (dones data) s_i ;;;
  store_extras s_i tag.

Definition store (data : data_list) (additional_dict : list (dict (pyval V)))
  : M t unit :=
  modify (fun b => set_buffer_len
                     (buffer_len b + Z.of_nat (length (rewards data)))%Z b) ;;;
  for_range (length additional_dict) (store_row data additional_dict).

(** *** store_init *)

(** [for key in additional_dict.keys(): ...] of [store_init]. *)
Fixpoint init_extras (items : dict (list V)) (d : dict (list (list V)))
  : dict (list (list V)) :=
  match items with
  | [] => d
  | (key, v) :: items' => init_extras items' (dict_register_append key v d)
  end.

(** [store_init(data_list, additional_dict=None)] with
    [data_list = [static_obs, scenario_init_action]]; [scenario_init_action]
    is a batch of rows.  [None] and the empty dict are both falsy. *)
Definition store_init (static_obs : V) (scenario_init_action : list V)
    (additional_dict : option (dict (list V))) : M t unit :=
  modify (fun b =>
    {| mode := mode b; buffer_capacity := buffer_capacity b;
       num_scenario := num_scenario b; buffer_len := buffer_len b;
       buffer_ego_actions := buffer_ego_actions b;
       buffer_scenario_actions := buffer_scenario_actions b;
       buffer_obs := buffer_obs b; buffer_next_obs := buffer_next_obs b;
       buffer_rewards := buffer_rewards b; buffer_dones := buffer_dones b;
       buffer_additional_dict := buffer_additional_dict b;
       buffer_static_obs := buffer_static_obs b ++ [static_obs];
       buffer_init_action := buffer_init_action b ++ [scenario_init_action];
       buffer_episode_reward := buffer_episode_reward b;
       buffer_init_additional_dict :=
         match additional_dict with
         | Some items => init_extras items (buffer_init_additional_dict b)
         | None => buffer_init_additional_dict b
         end;
       init_buffer_len :=
         (init_buffer_len b + Z.of_nat (length scenario_init_action))%Z |}).

(** *** sample_init *)

Record init_batch : Type := {
  init_action : list V;
  episode_reward : list Z;
  init_extra : dict (list V)
}.

(** [for key in self.buffer_init_additional_dict.keys(): batch[key] = ...] *)
Fixpoint sample_init_extras (start_idx : Z) (sample_index : list nat)
    (cols : dict (list (list V))) : res (dict (list V)) :=
  match cols with
  | [] => inr []
  | (key, col) :: cols' =>
    x <~ cat_take (slice_from start_idx col) sample_index ;;
    rest <~ sample_init_extras start_idx sample_index cols' ;;
    inr ((key, x) :: rest)
  end.

Definition sample_init_pure (batch_size : nat) (g : rng) (b : t) : res init_batch :=
  let num_trajectory := Z.of_nat (length (buffer_init_action b)) in
  let start_idx := np_max0 (num_trajectory - buffer_capacity b) in
  let prepared_init_action := slice_from start_idx (buffer_init_action b) in
  let prepared_episode_reward := slice_from start_idx (buffer_episode_reward b) in
  sample_index <~ randint (length prepared_init_action) batch_size g ;;
  init_action <~ concatenate_take prepared_init_action sample_index ;;
  episode_reward <~ take prepared_episode_reward sample_index ;;
  extra <~ sample_init_extras start_idx sample_index (buffer_init_additional_dict b) ;;
  inr {| init_action := init_action; episode_reward := episode_reward;
         init_extra := extra |}.

Definition sample_init (batch_size : nat) (g : rng) : M t init_batch :=
  reads (sample_init_pure batch_size g).

(** *** sample *)

Record prepared : Type := {
  prepared_ego_actions : list V;
  prepared_scenario_actions : list V;
  prepared_obs : list V;
  prepared_next_obs : list V;
  prepared_rewards : list Z;
  prepared_dones : list bool
}.

(** The loop body of [sample] for scenario [s_i]: the window start is taken
    from the reward bucket and applied to all six buckets. *)
Definition prepare_row (samples_per_trajectory : Z) (b : t) (p : prepared)
    (s_i : nat) : res prepared :=
  rs <~ lookup (buffer_rewards b) s_i ;;
  let num_trajectory := Z.of_nat (length rs) in
  let start_idx := np_max0 (num_trajectory - samples_per_trajectory) in
  ea <~ lookup (buffer_ego_actions b) s_i ;;
  sa <~ lookup (buffer_scenario_actions b) s_i ;;
  o <~ lookup (buffer_obs b) s_i ;;
  no <~ lookup (buffer_next_obs b) s_i ;;
  r <~ lookup (buffer_rewards b) s_i ;;
  d <~ lookup (buffer_dones b) s_i ;;
  inr {| prepared_ego_actions := prepared_ego_actions p ++ slice_from start_idx ea;
         prepared_scenario_actions :=
           prepared_scenario_actions p ++ slice_from start_idx sa;
         prepared_obs := prepared_obs p ++ slice_from start_idx o;
         prepared_next_obs := prepared_next_obs p ++ slice_from start_idx no;
         prepared_rewards := prepared_rewards p ++ slice_from start_idx r;
         prepared_dones := prepared_dones p ++ slice_from start_idx d |}.

Fixpoint prepare_loop (samples_per_trajectory : Z) (b : t) (l : list nat)
    (p : prepared) : res prepared :=
  match l with
  | [] => inr p
  | s_i :: l' =>
    p' <~ prepare_row samples_per_trajectory b p s_i ;;
    prepare_loop samples_per_trajectory b l' p'
  end.

Definition prepared_empty : prepared :=
  {| prepared_ego_actions := []; prepared_scenario_actions := [];
     prepared_obs := []; prepared_next_obs := [];
     prepared_rewards := []; prepared_dones := [] |}.

(** [self.buffer_capacity // self.num_scenario] and the pooling loop. *)
Definition prepare (b : t) : res prepared :=
  if num_scenario b =? 0 then inl ZeroDivisionError
  else
    let samples_per_trajectory := (buffer_capacity b / Z.of_nat (num_scenario b))%Z in
    prepare_loop samples_per_trajectory b (seq 0 (num_scenario b)) prepared_empty.

Record batch : Type := {
  action : list V;
  state : list V;
  n_state : list V;
  reward : list Z;
  done : list bool
}.

Definition sample_pure (batch_size : nat) (g : rng) (b : t) : res batch :=
  p <~ prepare b ;;
  sample_index <~ randint (length (prepared_rewards p)) batch_size g ;;
  action <~ (if String.eqb (mode b) "train_agent"
             then stack_take (prepared_ego_actions p) sample_index
             else stack_take (prepared_scenario_actions p) sample_index) ;;
  state <~ stack_take (prepared_obs p) sample_index ;;
  n_state <~ stack_take (prepared_next_obs p) sample_index ;;
  reward <~ stack_take (prepared_rewards p) sample_index ;;
  done <~ stack_take (prepared_dones p) sample_index ;;
  inr {| action := action; state := state; n_state := n_state;
         reward := reward; done := done |}.

Definition sample (batch_size : nat) (g : rng) : M t batch :=
  reads (sample_pure batch_size g).

End Model.

Arguments t : clear implicits.
Arguments data_list : clear implicits.
Arguments prepared : clear implicits.
Arguments batch : clear implicits.
Arguments init_batch : clear implicits.

End ReplayBuffer.

(** ** class ReplayBuffer_Perception *)

Module ReplayBuffer_Perception.

Section Model.

Context {V : Type}.

(** The attributes [reset_init_buffer] creates; no method reads them. *)
Record init_attrs : Type := {
  buffer_static_obs : list V;
  buffer_init_action : list (list V);
  buffer_episode_reward : list Z;
  buffer_init_additional_dict : dict (list (list V));
  init_buffer_len : Z
}.

Record t : Type := {
  mode : string;
  buffer_capacity : Z;
  num_scenario : nat;
  buffer_len : Z;
  buffer_bbox_label : list (list (pyval V));
  buffer_predictions : list (list (pyval V));
  buffer_scenario_actions : list (list (pyval V));
  buffer_obs : list (list (pyval V));
  buffer_loss : list (list (pyval V));
  init_side : option init_attrs
}.

Definition set_buffer_len (x : Z) (b : t) : t :=
  {| mode := mode b; buffer_capacity := buffer_capacity b;
     num_scenario := num_scenario b; buffer_len := x;
     buffer_bbox_label := buffer_bbox_label b;
     buffer_predictions := buffer_predictions b;
     buffer_scenario_actions := buffer_scenario_actions b;
     buffer_obs := buffer_obs b; buffer_loss := buffer_loss b;
     init_side := init_side b |}.

Definition set_buffer_bbox_label (x : list (list (pyval V))) (b : t) : t :=
  {| mode := mode b; buffer_capacity := buffer_capacity b;
     num_scenario := num_scenario b; buffer_len := buffer_len b;
     buffer_bbox_label := x;
     buffer_predictions := buffer_predictions b;
     buffer_scenario_actions := buffer_scenario_actions b;
     buffer_obs := buffer_obs b; buffer_loss := buffer_loss b;
     init_side := init_side b |}.

Definition set_buffer_predictions (x : list (list (pyval V))) (b : t) : t :=
  {| mode := mode b; buffer_capacity := buffer_capacity b;
     num_scenario := num_scenario b; buffer_len := buffer_len b;
     buffer_bbox_label := buffer_bbox_label b;
     buffer_predictions := x;
     buffer_scenario_actions := buffer_scenario_actions b;
     buffer_obs := buffer_obs b; buffer_loss := buffer_loss b;
     init_side := init_side b |}.

Definition set_buffer_scenario_actions (x : list (list (pyval V))) (b : t) : t :=
  {| mode := mode b; buffer_capacity := buffer_capacity b;
     num_scenario := num_scenario b; buffer_len := buffer_len b;
     buffer_bbox_label := buffer_bbox_label b;
     buffer_predictions := buffer_predictions b;
     buffer_scenario_actions := x;
     buffer_obs := buffer_obs b; buffer_loss := buffer_loss b;
     init_side := init_side b |}.

Definition set_buffer_obs (x : list (list (pyval V))) (b : t) : t :=
  {| mode := mode b; buffer_capacity := buffer_capacity b;
     num_scenario := num_scenario b; buffer_len := buffer_len b;
     buffer_bbox_label := buffer_bbox_label b;
     buffer_predictions := buffer_predictions b;
     buffer_scenario_actions := buffer_scenario_actions b;
     buffer_obs := x; buffer_loss := buffer_loss b;
     init_side := init_side b |}.

Definition set_buffer_loss (x : list (list (pyval V))) (b : t) : t :=
  {| mode := mode b; buffer_capacity := buffer_capacity b;
     num_scenario := num_scenario b; buffer_len := buffer_len b;
     buffer_bbox_label := buffer_bbox_label b;
     buffer_predictions := buffer_predictions b;
     buffer_scenario_actions := buffer_scenario_actions b;
     buffer_obs := buffer_obs b; buffer_loss := x;
     init_side := init_side b |}.

(** [__init__(self, num_scenario, mode, buffer_capacity=1000)] *)
Definition init (num_scenario : nat) (mode : string) (buffer_capacity : Z) : t :=
  {| mode := mode; buffer_capacity := buffer_capacity;
     num_scenario := num_scenario; buffer_len := 0%Z;
     buffer_bbox_label := repeat [] num_scenario;
     buffer_predictions := repeat [] num_scenario;
     buffer_scenario_actions := repeat [] num_scenario;
     buffer_obs := repeat [] num_scenario;
     buffer_loss := repeat [] num_scenario;
     init_side := None |}.

(** [finish_one_episode] and [store_init] are [pass]. *)
Definition finish_one_episode : M t unit := ret tt.

Definition store_init (data : list V) (additional_dict : option (dict (list V)))
  : M t unit := ret tt.

Definition reset_init_buffer (b : t) : t :=
  {| mode := mode b; buffer_capacity := buffer_capacity b;
     num_scenario := num_scenario b; buffer_len := buffer_len b;
     buffer_bbox_label := buffer_bbox_label b;
     buffer_predictions := buffer_predictions b;
     buffer_scenario_actions := buffer_scenario_actions b;
     buffer_obs := buffer_obs b; buffer_loss := buffer_loss b;
     init_side := Some {| buffer_static_obs := []; buffer_init_action := [];
                          buffer_episode_reward := [];
                          buffer_init_additional_dict := [];
                          init_buffer_len := 0%Z |} |}.

(** *** store *)

(** [col[s_i][key]] *)
Definition field (col : list (dict (pyval V))) (s_i : nat) (key : string)
  : res (pyval V) :=
  e <~ lookup col s_i ;;
  match dict_get key e with
  | Some v => inr v
  | None => inl KeyError
  end.

(** [self.<bucket>[sid].append(col[s_i][key])] *)
Definition bucket_append (get : t -> list (list (pyval V)))
    (set : list (list (pyval V)) -> t -> t) (sid : pyval V)
    (col : list (dict (pyval V))) (s_i : nat) (key : string) : M t unit :=
  fun b =>
    match sid with
    | VData _ => Raise TypeError b
    | VInt i =>
      match py_index (length (get b)) i with
      | None => Raise IndexError b
      | Some k =>
        match field col s_i key with
        | inl e => Raise e b
        | inr x => Ok tt (set (app_at k x (get b)) b)
        end
      end
    end.

Definition store_row (ego_actions scenario_actions obs infos : list (dict (pyval V)))
    (s_i : nat) : M t unit :=
  sid <- lift (field infos s_i "scenario_id") ;;
  bucket_append buffer_predictions set_buffer_predictions sid
                ego_actions s_i "od_result" ;;;
  bucket_append buffer_scenario_actions set_buffer_scenario_actions sid
                scenario_actions s_i "attack" ;;;
  bucket_append buffer_obs set_buffer_obs sid obs s_i "img" ;;;
  bucket_append buffer_bbox_label set_buffer_bbox_label sid
                infos s_i "bbox_label" ;;;
  bucket_append buffer_loss set_buffer_loss sid infos s_i "iou_loss".

(** [store(self, data_list)]: the assertion on the arity comes first. *)
Definition store (data_list : list (list (dict (pyval V)))) : M t unit :=
  match data_list with
  | [ego_actions; scenario_actions; obs; infos] =>
    modify (fun b => set_buffer_len
                       (buffer_len b + Z.of_nat (length infos))%Z b) ;;;
    for_range (length infos) (store_row ego_actions scenario_actions obs infos)
  | _ => fun b => Raise AssertionError b
  end.

(** *** sample *)

Record prepared : Type := {
  prepared_bbox_label : list (pyval V);
  prepared_predictions : list (pyval V);
  prepared_scenario_actions : list (pyval V);
  prepared_obs : list (pyval V);
  prepared_loss : list (pyval V)
}.

Definition prepare_row (samples_per_trajectory : Z) (b : t) (p : prepared)
    (s_i : nat) : res prepared :=
  ls <~ lookup (buffer_loss b) s_i ;;
  let num_trajectory := Z.of_nat (length ls) in
  let start_idx := np_max0 (num_trajectory - samples_per_trajectory) in
  bl <~ lookup (buffer_bbox_label b) s_i ;;
  pr <~ lookup (buffer_predictions b) s_i ;;
  sa <~ lookup (buffer_scenario_actions b) s_i ;;
  o <~ lookup (buffer_obs b) s_i ;;
  l <~ lookup (buffer_loss b) s_i ;;
  inr {| prepared_bbox_label := prepared_bbox_label p ++ slice_from start_idx bl;
         prepared_predictions := prepared_predictions p ++ slice_from start_idx pr;
         prepared_scenario_actions :=
           prepared_scenario_actions p ++ slice_from start_idx sa;
         prepared_obs := prepared_obs p ++ slice_from start_idx o;
         prepared_loss := prepared_loss p ++ slice_from start_idx l |}.

Fixpoint prepare_loop (samples_per_trajectory : Z) (b : t) (l : list nat)
    (p : prepared) : res prepared :=
  match l with
  | [] => inr p
  | s_i :: l' =>
    p' <~ prepare_row samples_per_trajectory b p s_i ;;
    prepare_loop samples_per_trajectory b l' p'
  end.

Definition prepared_empty : prepared :=
  {| prepared_bbox_label := []; prepared_predictions := [];
     prepared_scenario_actions := []; prepared_obs := [];
     prepared_loss := [] |}.

Definition prepare (b : t) : res prepared :=
  if num_scenario b =? 0 then inl ZeroDivisionError
  else
    let samples_per_trajectory := (buffer_capacity b / Z.of_nat (num_scenario b))%Z in
    prepare_loop samples_per_trajectory b (seq 0 (num_scenario b)) prepared_empty.

Record batch : Type := {
  label : list (pyval V);
  image : list (pyval V);
  loss : list (pyval V)
}.

Definition sample_pure (batch_size : nat) (g : rng) (b : t) : res batch :=
  p <~ prepare b ;;
  sample_index <~ randint (length (prepared_loss p)) batch_size g ;;
  label <~ stack_take (prepared_bbox_label p) sample_index ;;
  image <~ stack_take (prepared_obs p) sample_index ;;
  loss <~ stack_take (prepared_loss p) sample_index ;;
  inr {| label := label; image := image; loss := loss |}.

Definition sample (batch_size : nat) (g : rng) : M t batch :=
  reads (sample_pure batch_size g).

End Model.

Arguments t : clear implicits.
Arguments init_attrs : clear implicits.
Arguments prepared : clear implicits.
Arguments batch : clear implicits.

End ReplayBuffer_Perception.

(** ** class OtherLeadingVehicle *)

(** [safebench/scenario/scenario_definition/adv_trajectory/other_leading_vehicle.py]:
    the part of the constructor that reads the control parameters, the two
    loops of [initialize_actors] that build the transform lists, and
    [update_behavior].  The simulator is outside: carla transforms and
    actors are opaque, the geometry of [initialize_actors] and the float
    arithmetic of the constructor are parameters, the distance measured at
    each update is an input (a float is a rational number), and the calls
    made on [scenario_operation] are logged in the order they are made. *)

Module OtherLeadingVehicle.

Section Model.

Context {Transform Actor F : Type}.

(** [carla.Transform(carla.Location(first.location + forward_vector * i /
    total_steps), first.rotation)] *)
Variable along : Transform -> nat -> nat -> Transform.

(** [carla.Transform(carla.Location(t.location + right_vector * c),
    first.rotation)] *)
Variable aside : Transform -> Transform -> F -> Transform.

(** Float multiplication and subtraction, and the float of an int. *)
Variable fmul : F -> F -> F.
Variable fsub : F -> F -> F.
Variable of_int : Z -> F.

(** The calls [update_behavior] makes on [self.scenario_operation]. *)
Inductive command : Type :=
| drive_to_target_followlane (i : nat) (target_transform : Transform)
                             (target_speed : Z)
| go_straight (speed : Z) (i : nat) (throttle_value : QArith_base.Q).

Record t : Type := {
  dece_distance : Z;
  dece_target_speed : Z;
  need_decelerate : bool;
  other_actor_speed : list Z;
  other_actor_transform : list Transform;
  other_actors : list Actor;
  step : nat;
  control_seq : list F;
  total_steps : nat;
  actor_transform_list : list Transform;
  perturbed_actor_transform_list : list Transform;
  operations : list command
}.

Definition set_need_decelerate (x : bool) (s : t) : t :=
  {| dece_distance := dece_distance s;
     dece_target_speed := dece_target_speed s;
     need_decelerate := x;
     other_actor_speed := other_actor_speed s;
     other_actor_transform := other_actor_transform s;
     other_actors := other_actors s;
     step := step s; control_seq := control_seq s;
     total_steps := total_steps s;
     actor_transform_list := actor_transform_list s;
     perturbed_actor_transform_list := perturbed_actor_transform_list s;
     operations := operations s |}.

Definition set_step (x : nat) (s : t) : t :=
  {| dece_distance := dece_distance s;
     dece_target_speed := dece_target_speed s;
     need_decelerate := need_decelerate s;
     other_actor_speed := other_actor_speed s;
     other_actor_transform := other_actor_transform s;
     other_actors := other_actors s;
     step := x; control_seq := control_seq s;
     total_steps := total_steps s;
     actor_transform_list := actor_transform_list s;
     perturbed_actor_transform_list := perturbed_actor_transform_list s;
     operations := operations s |}.

Definition set_actor_transform_list (x : list Transform) (s : t) : t :=
  {| dece_distance := dece_distance s;
     dece_target_speed := dece_target_speed s;
     need_decelerate := need_decelerate s;
     other_actor_speed := other_actor_speed s;
     other_actor_transform := other_actor_transform s;
     other_actors := other_actors s;
     step := step s; control_seq := control_seq s;
     total_steps := total_steps s;
     actor_transform_list := x;
     perturbed_actor_transform_list := perturbed_actor_transform_list s;
     operations := operations s |}.

Definition set_perturbed_actor_transform_list (x : list Transform) (s : t) : t :=
  {| dece_distance := dece_distance s;
     dece_target_speed := dece_target_speed s;
     need_decelerate := need_decelerate s;
     other_actor_speed := other_actor_speed s;
     other_actor_transform := other_actor_transform s;
     other_actors := other_actors s;
     step := step s; control_seq := control_seq s;
     total_steps := total_steps s;
     actor_transform_list := actor_transform_list s;
     perturbed_actor_transform_list := x;
     operations := operations s |}.

(** A call on [scenario_operation]. *)
Definition call (c : command) (s : t) : t :=
  {| dece_distance := dece_distance s;
     dece_target_speed := dece_target_speed s;
     need_decelerate := need_decelerate s;
     other_actor_speed := other_actor_speed s;
     other_actor_transform := other_actor_transform s;
     other_actors := other_actors s;
     step := step s; control_seq := control_seq s;
     total_steps := total_steps s;
     actor_transform_list := actor_transform_list s;
     perturbed_actor_transform_list := perturbed_actor_transform_list s;
     operations := operations s ++ [c] |}.

(** [(control * 2 - 1) * 2] *)
Definition control_of (control : F) : F :=
  fmul (fsub (fmul control (of_int 2)) (of_int 1)) (of_int 2).

(** The attributes [__init__] sets that the methods below read;
    [other_actor_transform] and [other_actors] are what the constructor of
    [BasicScenario] left in them, [parameters] is the list loaded from the
    file [config.parameters]. *)
Definition init (other_actor_transform : list Transform)
    (other_actors : list Actor) (parameters : list F) : t :=
  {| dece_distance := 2;
     dece_target_speed := 3;
     need_decelerate := false;
     other_actor_speed := [12; 12]%Z;
     other_actor_transform := other_actor_transform;
     other_actors := other_actors;
     step := 0;
     control_seq := map control_of parameters;
     total_steps := length (map control_of parameters);
     actor_transform_list := [];
     perturbed_actor_transform_list := [];
     operations := [] |}.

(** The first loop of [initialize_actors] (lines 108-111). *)
Definition append_actor_transform (first : Transform) (i : nat) : M t unit :=
  modify (fun s =>
    set_actor_transform_list
      (actor_transform_list s ++ [along first i (total_steps s)]) s).

(** The second loop of [initialize_actors] (lines 112-115). *)
Definition append_perturbed (first : Transform) (i : nat) : M t unit :=
  a <- reads (fun s => lookup (actor_transform_list s) i) ;;
  c <- reads (fun s => lookup (control_seq s) i) ;;
  modify (fun s =>
    set_perturbed_actor_transform_list
      (perturbed_actor_transform_list s ++ [aside first a c]) s).

(** Lines 108-115 of [initialize_actors], [first] being
    [self._first_actor_transform]. *)
Definition build_transform_lists (first : Transform) : M t unit :=
  (fun s => for_range (total_steps s) (append_actor_transform first) s) ;;;
  (fun s => for_range (total_steps s) (append_perturbed first) s).

(** The body of the loop of [update_behavior] for actor [i]. *)
Definition update_actor (i : nat) : M t unit :=
  fun s =>
    if (i =? 0) && need_decelerate s then
      match py_get (perturbed_actor_transform_list s)
                   (if step s <? total_steps s then Z.of_nat (step s)
                    else (-1)%Z) with
      | inl e => Raise e s
      | inr target_transform =>
        Ok tt (call (drive_to_target_followlane i target_transform
                                                (dece_target_speed s))
                    (set_step (step s + 1) s))
      end
    else
      match lookup (other_actor_speed s) i with
      | inl e => Raise e s
      | inr speed =>
        Ok tt (call (go_straight speed i (QArith_base.inject_Z 2)) s)
      end.

(** [update_behavior], [cur_distance] being the distance the simulator
    measures between [self.other_actor_transform[0]] and the transform of
    [self.other_actors[0]]. *)
Definition update_behavior (cur_distance : QArith_base.Q) : M t unit :=
  _ <- reads (fun s => lookup (other_actor_transform s) 0) ;;
  _ <- reads (fun s => lookup (other_actors s) 0) ;;
  modify (fun s =>
    if negb (QArith_base.Qle_bool cur_distance
                                  (QArith_base.inject_Z (dece_distance s)))
    then set_need_decelerate true s else s) ;;;
  (fun s => for_range (length (other_actors s)) update_actor s).

(** One [update_behavior] per measured distance, in order. *)
Fixpoint update_all (distances : list QArith_base.Q) : M t unit :=
  match distances with
  | [] => ret tt
  | d :: distances' => update_behavior d ;;; update_all distances'
  end.

(** The scenario can be updated: the actors are there, each has a speed,
    and there is one perturbed transform per control step, at least one. *)
Definition ready (s : t) : Prop :=
  other_actor_transform s <> [] /\ other_actors s <> [] /\
  length (other_actors s) <= length (other_actor_speed s) /\
  length (perturbed_actor_transform_list s) = total_steps s /\
  0 < total_steps s.

(** [update_behavior] decelerates: the latch is set or the measured
    distance exceeds [dece_distance]. *)
Definition decelerating (cur_distance : QArith_base.Q) (s : t) : Prop :=
  need_decelerate s = true \/
  QArith_base.Qlt (QArith_base.inject_Z (dece_distance s)) cur_distance.

(** The [go_straight] calls for the actors of [l]. *)
Definition straight (s : t) (l : list nat) : list command :=
  map (fun i => go_straight (nth i (other_actor_speed s) 0%Z) i
                            (QArith_base.inject_Z 2)) l.

Definition calls (cs : list command) (s : t) : t :=
  fold_left (fun s c => call c s) cs s.

End Model.

Arguments t : clear implicits.
Arguments command : clear implicits.

End OtherLeadingVehicle.

(** ** Specification-side vocabulary *)

Module Spec.

(** The ordered list [D] of the indices at which [done] is true. *)
Definition done_indices (ds : list bool) : list nat :=
  filter (fun i => nth i ds false) (seq 0 (length ds)).

(** The sum of [reward] over the inclusive index span [lo .. hi]. *)
Definition span_sum (rs : list Z) (lo hi : nat) : Z :=
  np_sum (map (fun i => nth i rs 0%Z) (seq lo (S hi - lo))).

(** The return of the completed episode: the span [D[-2]+1 .. D[-1]] when
    there is more than one done marker, [0 .. D[-1]] when there is exactly
    one, nothing without a marker. *)
Definition episode_return (rs : list Z) (ds : list bool) : option Z :=
  match rev (done_indices ds) with
  | [] => None
  | [e] => Some (span_sum rs 0 e)
  | e :: p :: _ => Some (span_sum rs (S p) e)
  end.

(** The newest [w] entries of a trajectory, the whole of it if shorter. *)
Definition newest {A} (w : Z) (l : list A) : list A :=
  skipn (length l - Z.to_nat w) l.

(** The sampling pool of one field: the windows of the scenario ids one after
    the other, each in temporal order. *)
Definition pool {A} (w : Z) (buckets : list (list A)) : list A :=
  concat (map (newest w) buckets).

(** The provenance of the [p]-th pool entry, from the bucket lengths alone:
    the scenario id it belongs to and its position in that trajectory. *)
Fixpoint locate (w : Z) (lens : list nat) (p : nat) : option (nat * nat) :=
  match lens with
  | [] => None
  | n :: lens' =>
    let start := n - Z.to_nat w in
    if p <? n - start then Some (0, start + p)
    else match locate w lens' (p - (n - start)) with
         | Some (s, j) => Some (S s, j)
         | None => None
         end
  end.

(** [rows] are the entries of [l] at the indices [idx], in that order. *)
Definition rows_at {A} (l : list A) (idx : list nat) (rows : list A) : Prop :=
  map Some rows = map (nth_error l) idx.

End Spec.

(** ** Vocabulary of the statements on [ReplayBuffer] *)

Module Generic.

Import ReplayBuffer.

Section Vocabulary.

Context {V : Type}.

Implicit Types b : ReplayBuffer.t V.

(** The returns appended by one pass of [finish_one_episode] over the
    scenario ids of [l], in that order. *)
Definition returns_of b (l : list nat) (vals : list Z) : Prop :=
  Forall2 (fun s v =>
             Spec.episode_return (nth s (buffer_rewards b) [])
                                 (nth s (buffer_dones b) []) = Some v) l vals.

(** A transition tagged with scenario id [sid], as a batch of one. *)
Definition one_step (e : V) (r : Z) (d : bool) : data_list V :=
  {| ego_actions := [e]; scenario_actions := [e]; obs := [e]; next_obs := [e];
     rewards := [r]; dones := [d] |}.

Definition tag_of (sid : Z) : dict (pyval V) := [("scenario_id"%string, VInt sid)].

(** Scenario slot 0 after storing the given rewards and done flags, one
    transition per [store] call. *)
Fixpoint store_steps (e : V) (steps : list (Z * bool)) b : ReplayBuffer.t V :=
  match steps with
  | [] => b
  | (r, d) :: steps' =>
    store_steps e steps' (state_of (store (one_step e r d) [tag_of 0] b))
  end.

(** The alignment invariant: bucket by bucket, the six fields have the same
    length (and the six lists of buckets have the same number of buckets). *)
Definition lens {A} (l : list (list A)) : list nat := map (@length A) l.

Definition aligned b : Prop :=
  lens (buffer_ego_actions b) = lens (buffer_rewards b) /\
  lens (buffer_scenario_actions b) = lens (buffer_rewards b) /\
  lens (buffer_obs b) = lens (buffer_rewards b) /\
  lens (buffer_next_obs b) = lens (buffer_rewards b) /\
  lens (buffer_dones b) = lens (buffer_rewards b).

(** The same, read at one scenario id. *)
Definition aligned_at b (s : nat) : Prop :=
  let n := length (nth s (buffer_rewards b) []) in
  length (nth s (buffer_ego_actions b) []) = n /\
  length (nth s (buffer_scenario_actions b) []) = n /\
  length (nth s (buffer_obs b) []) = n /\
  length (nth s (buffer_next_obs b) []) = n /\
  length (nth s (buffer_dones b) []) = n.

(** One value per field appended to bucket [k]: the six appends of one
    iteration of [store]. *)
Definition append_transition (k : nat) (ea sa o no : V) (r : Z) (d : bool) b
  : ReplayBuffer.t V :=
  set_buffer_dones (app_at k d (buffer_dones b))
    (set_buffer_rewards (app_at k r (buffer_rewards b))
      (set_buffer_next_obs (app_at k no (buffer_next_obs b))
        (set_buffer_obs (app_at k o (buffer_obs b))
          (set_buffer_scenario_actions (app_at k sa (buffer_scenario_actions b))
            (set_buffer_ego_actions (app_at k ea (buffer_ego_actions b)) b))))).

(** The buckets are the ones the constructor made: one per scenario slot. *)
Definition wf b : Prop :=
  aligned b /\ length (buffer_rewards b) = num_scenario b.

(** [W = floor(buffer_capacity / num_scenario)] *)
Definition window_size b : Z :=
  (buffer_capacity b / Z.of_nat (num_scenario b))%Z.

(** The six pools of [sample] as the specification describes them. *)
Definition pools b : prepared V :=
  {| prepared_ego_actions := Spec.pool (window_size b) (buffer_ego_actions b);
     prepared_scenario_actions :=
       Spec.pool (window_size b) (buffer_scenario_actions b);
     prepared_obs := Spec.pool (window_size b) (buffer_obs b);
     prepared_next_obs := Spec.pool (window_size b) (buffer_next_obs b);
     prepared_rewards := Spec.pool (window_size b) (buffer_rewards b);
     prepared_dones := Spec.pool (window_size b) (buffer_dones b) |}.

Definition pool_length b : nat := length (prepared_rewards (pools b)).

(** The field [action] is drawn from. *)
Definition action_pool b : list V :=
  if String.eqb (mode b) "train_agent" then prepared_ego_actions (pools b)
  else prepared_scenario_actions (pools b).

Definition set_mode (m : string) b : ReplayBuffer.t V :=
  {| mode := m; buffer_capacity := buffer_capacity b;
     num_scenario := num_scenario b; buffer_len := buffer_len b;
     buffer_ego_actions := buffer_ego_actions b;
     buffer_scenario_actions := buffer_scenario_actions b;
     buffer_obs := buffer_obs b; buffer_next_obs := buffer_next_obs b;
     buffer_rewards := buffer_rewards b; buffer_dones := buffer_dones b;
     buffer_additional_dict := buffer_additional_dict b;
     buffer_static_obs := buffer_static_obs b;
     buffer_init_action := buffer_init_action b;
     buffer_episode_reward := buffer_episode_reward b;
     buffer_init_additional_dict := buffer_init_additional_dict b;
     init_buffer_len := init_buffer_len b |}.

(** The window of [sample_init]: the [store_init] batches it keeps, and the
    episode returns it pairs them with. *)
Definition init_window b : list (list V) :=
  Spec.newest (buffer_capacity b) (buffer_init_action b).

Definition init_window_start b : Z :=
  np_max0 (Z.of_nat (length (buffer_init_action b)) - buffer_capacity b).

Definition reward_window b : list Z :=
  slice_from (init_window_start b) (buffer_episode_reward b).

(** Every drawn index has an [init_action] row, an episode return and a row
    of every registered extra column behind it. *)
Definition init_ready b (idx : list nat) : Prop :=
  Forall (fun i => i < length (concat (init_window b))) idx /\
  Forall (fun i => i < length (reward_window b)) idx /\
  Forall (fun kc => slice_from (init_window_start b) (snd kc) <> [] /\
                    Forall (fun i => i < length (concat
                              (slice_from (init_window_start b) (snd kc)))) idx)
         (buffer_init_additional_dict b).

(** The extra dictionaries too are one per scenario slot. *)
Definition wf_extra b : Prop :=
  wf b /\ length (buffer_additional_dict b) = num_scenario b.

(** The number of buckets and of extra dictionaries is [n], the number of
    scenario slots. *)
Definition shaped (n : nat) b : Prop :=
  num_scenario b = n /\ length (buffer_rewards b) = n /\
  length (buffer_additional_dict b) = n.

(** Every field of the batch has an entry at each of the first [n] positions. *)
Definition covers (data : data_list V) (n : nat) : Prop :=
  n <= length (ego_actions data) /\
  n <= length (scenario_actions data) /\
  n <= length (obs data) /\
  n <= length (next_obs data) /\
  n <= length (rewards data) /\
  n <= length (dones data).

(** Some field of the batch has fewer than [n] entries. *)
Definition short_field (data : data_list V) (n : nat) : Prop :=
  length (ego_actions data) < n \/
  length (scenario_actions data) < n \/
  length (obs data) < n \/
  length (next_obs data) < n \/
  length (rewards data) < n \/
  length (dones data) < n.

(** The tag entry names one of the [n] scenario slots. *)
Definition sid_in_range (n : nat) (tag : dict (pyval V)) : bool :=
  match dict_get "scenario_id" tag with
  | Some (VInt i) => match py_index n i with
                     | Some _ => true
                     | None => false
                     end
  | _ => false
  end.

(** The keys of a [dict] are pairwise distinct. *)
Definition is_dict {A} (d : dict A) : Prop := NoDup (map fst d).

(** What the key loop of [store] makes of one extra dictionary: every key of
    the tag entry but ['scenario_id'] is registered if new and receives its
    value. *)
Fixpoint register_all (items : dict (pyval V)) (d : dict (list (pyval V)))
  : dict (list (pyval V)) :=
  match items with
  | [] => d
  | (key, v) :: items' =>
    if String.eqb key "scenario_id" then register_all items' d
    else register_all items' (dict_register_append key v d)
  end.

(** The extra column [key] of scenario slot [s], if registered. *)
Definition column_of b (s : nat) (key : string) : option (list (pyval V)) :=
  match nth_error (buffer_additional_dict b) s with
  | Some d => dict_get key d
  | None => None
  end.

(** The same, empty when not registered. *)
Definition extra_col b (s : nat) (key : string) : list (pyval V) :=
  match column_of b s key with
  | Some c => c
  | None => []
  end.

(** The entry at batch position [i] is tagged with scenario id [i]. *)
Definition tagged_by_position (tags : list (dict (pyval V))) : Prop :=
  forall i tag, nth_error tags i = Some tag ->
                dict_get "scenario_id" tag = Some (VInt (Z.of_nat i)) /\
                is_dict tag.

(** [b'] differs from [b] in the buckets and the extra dictionaries at
    most. *)
Definition same_frame b b' : Prop :=
  mode b' = mode b /\ buffer_capacity b' = buffer_capacity b /\
  num_scenario b' = num_scenario b /\ buffer_len b' = buffer_len b /\
  buffer_static_obs b' = buffer_static_obs b /\
  buffer_init_action b' = buffer_init_action b /\
  buffer_episode_reward b' = buffer_episode_reward b /\
  buffer_init_additional_dict b' = buffer_init_additional_dict b /\
  init_buffer_len b' = init_buffer_len b.

(** The state after the first [m] positions of a batch tagged by position. *)
Definition stored_upto (data : data_list V) (tags : list (dict (pyval V)))
    b (m : nat) (s : ReplayBuffer.t V) : Prop :=
  wf_extra s /\ num_scenario s = num_scenario b /\
  (forall i, m <= i ->
     nth_error (buffer_additional_dict s) i =
       nth_error (buffer_additional_dict b) i /\
     nth_error (buffer_rewards s) i = nth_error (buffer_rewards b) i) /\
  (forall i tag, i < m -> nth_error tags i = Some tag ->
     exists d c r,
       nth_error (buffer_additional_dict b) i = Some d /\
       nth_error (buffer_additional_dict s) i = Some (register_all tag d) /\
       nth_error (buffer_rewards b) i = Some c /\
       nth_error (buffer_rewards s) i = Some (c ++ [r])).

(** The calls a client can make on the object. *)
Inductive op : Type :=
| Store (data : data_list V) (additional_dict : list (dict (pyval V)))
| StoreInit (static_obs : V) (scenario_init_action : list V)
            (additional_dict : option (dict (list V)))
| FinishOneEpisode
| Sample (batch_size : nat) (g : rng)
| SampleInit (batch_size : nat) (g : rng)
| ResetBuffer
| ResetInitBuffer.

(** The object after a call, whether the call returned or raised. *)
Definition run_op (o : op) b : ReplayBuffer.t V :=
  match o with
  | Store data additional_dict => state_of (store data additional_dict b)
  | StoreInit so ia ad => state_of (store_init so ia ad b)
  | FinishOneEpisode => state_of (finish_one_episode b)
  | Sample n g => state_of (sample n g b)
  | SampleInit n g => state_of (sample_init n g b)
  | ResetBuffer => reset_buffer b
  | ResetInitBuffer => reset_init_buffer b
  end.

Definition run (ops : list op) b : ReplayBuffer.t V :=
  fold_left (fun b o => run_op o b) ops b.

(** The precondition of [store]: the six fields and the tags have one length. *)
Definition batch_aligned (data : data_list V) (additional_dict : list (dict (pyval V)))
  : Prop :=
  length (ego_actions data) = length additional_dict /\
  length (scenario_actions data) = length additional_dict /\
  length (obs data) = length additional_dict /\
  length (next_obs data) = length additional_dict /\
  length (rewards data) = length additional_dict /\
  length (dones data) = length additional_dict.

Definition op_aligned (o : op) : Prop :=
  match o with
  | Store data additional_dict => batch_aligned data additional_dict
  | _ => True
  end.

(** The bucket a tag entry selects among [n] slots: its ['scenario_id'],
    resolved as a Python list index. *)
Definition slot_of (n : nat) (tag : dict (pyval V)) : option nat :=
  match dict_get "scenario_id" tag with
  | Some (VInt i) => py_index n i
  | _ => None
  end.

(** The entries of the batch column [col] whose tag selects slot [s], in
    batch order. *)
Fixpoint routed {A} (n s : nat) (tags : list (dict (pyval V))) (col : list A)
  : list A :=
  match tags, col with
  | tag :: tags', x :: col' =>
    match slot_of n tag with
    | Some k => if k =? s then x :: routed n s tags' col'
                else routed n s tags' col'
    | None => routed n s tags' col'
    end
  | _, _ => []
  end.

(** Bucket by bucket, [l'] is [l] with entries appended. *)
Definition grows {A} (l l' : list (list A)) : Prop :=
  length l' = length l /\
  forall s, exists suffix, nth s l' [] = nth s l [] ++ suffix.

(** Nothing stored in [b] has been removed or reordered in [b']. *)
Definition history_kept b b' : Prop :=
  grows (buffer_ego_actions b) (buffer_ego_actions b') /\
  grows (buffer_scenario_actions b) (buffer_scenario_actions b') /\
  grows (buffer_obs b) (buffer_obs b') /\
  grows (buffer_next_obs b) (buffer_next_obs b') /\
  grows (buffer_rewards b) (buffer_rewards b') /\
  grows (buffer_dones b) (buffer_dones b').

(** [buffer_len] is the number of stored transitions. *)
Definition counted b : Prop :=
  buffer_len b = Z.of_nat (length (concat (buffer_rewards b))).

(** The init-side counters agree with the init-side lists. *)
Definition init_consistent b : Prop :=
  init_buffer_len b = Z.of_nat (length (concat (buffer_init_action b))) /\
  length (buffer_static_obs b) = length (buffer_init_action b).

(** A [store] call whose batch reaches the length of its tags, has no more
    tags than there are [n] scenario slots and tags the entry at position
    [i] with scenario id [i]; any call of another method. *)
Definition by_position (n : nat) (o : op) : Prop :=
  match o with
  | Store data tags =>
    covers data (length tags) /\ length tags <= n /\ tagged_by_position tags
  | _ => True
  end.

(** Every entry a [store] call stores carries [key]. *)
Definition store_carries (key : string) (o : op) : Prop :=
  match o with
  | Store _ tags => Forall (fun tag => dict_has key tag = true) tags
  | _ => True
  end.

(** The init-side extra column of [key], empty when not registered. *)
Definition init_col b (key : string) : list (list V) :=
  match dict_get key (buffer_init_additional_dict b) with
  | Some c => c
  | None => []
  end.

(** A [store_init] call carries [key] in its [additional_dict]. *)
Definition carries (key : string) (o : op) : Prop :=
  match o with
  | StoreInit _ _ (Some items) => is_dict items /\ dict_has key items = true
  | StoreInit _ _ None => False
  | _ => True
  end.

Definition is_reset_buffer (o : op) : bool :=
  match o with
  | ResetBuffer => true
  | _ => false
  end.

(** Every [store] call of the sequence returns. *)
Fixpoint stores_return (ops : list op) b : Prop :=
  match ops with
  | [] => True
  | o :: ops' =>
    match o with
    | Store data additional_dict =>
      failsb (store data additional_dict b) = false
    | _ => True
    end /\ stores_return ops' (run_op o b)
  end.

End Vocabulary.

End Generic.

(** ** Vocabulary of the statements on [ReplayBuffer_Perception] *)

Module Perception.

Import ReplayBuffer_Perception.

Section Vocabulary.

Context {V : Type}.

Implicit Types b : ReplayBuffer_Perception.t V.

Definition aligned b : Prop :=
  Generic.lens (buffer_bbox_label b) = Generic.lens (buffer_loss b) /\
  Generic.lens (buffer_predictions b) = Generic.lens (buffer_loss b) /\
  Generic.lens (buffer_scenario_actions b) = Generic.lens (buffer_loss b) /\
  Generic.lens (buffer_obs b) = Generic.lens (buffer_loss b).

Definition aligned_at b (s : nat) : Prop :=
  let n := length (nth s (buffer_loss b) []) in
  length (nth s (buffer_bbox_label b) []) = n /\
  length (nth s (buffer_predictions b) []) = n /\
  length (nth s (buffer_scenario_actions b) []) = n /\
  length (nth s (buffer_obs b) []) = n.

(** The five appends of one iteration of [store]. *)
Definition append_record (k : nat) (pr sa o bl l : pyval V) b
  : ReplayBuffer_Perception.t V :=
  set_buffer_loss (app_at k l (buffer_loss b))
    (set_buffer_bbox_label (app_at k bl (buffer_bbox_label b))
      (set_buffer_obs (app_at k o (buffer_obs b))
        (set_buffer_scenario_actions (app_at k sa (buffer_scenario_actions b))
          (set_buffer_predictions (app_at k pr (buffer_predictions b)) b)))).

Definition wf b : Prop :=
  aligned b /\ length (buffer_loss b) = num_scenario b.

Definition shaped (n : nat) b : Prop :=
  num_scenario b = n /\ length (buffer_loss b) = n.

Definition window_size b : Z :=
  (buffer_capacity b / Z.of_nat (num_scenario b))%Z.

Definition pools b : prepared V :=
  {| prepared_bbox_label := Spec.pool (window_size b) (buffer_bbox_label b);
     prepared_predictions := Spec.pool (window_size b) (buffer_predictions b);
     prepared_scenario_actions :=
       Spec.pool (window_size b) (buffer_scenario_actions b);
     prepared_obs := Spec.pool (window_size b) (buffer_obs b);
     prepared_loss := Spec.pool (window_size b) (buffer_loss b) |}.

Definition pool_length b : nat := length (prepared_loss (pools b)).

Inductive op : Type :=
| Store (data_list : list (list (dict (pyval V))))
| StoreInit (data : list V) (additional_dict : option (dict (list V)))
| FinishOneEpisode
| Sample (batch_size : nat) (g : rng)
| ResetInitBuffer.

Definition run_op (o : op) b : ReplayBuffer_Perception.t V :=
  match o with
  | Store data_list => state_of (store data_list b)
  | StoreInit d ad => state_of (store_init d ad b)
  | FinishOneEpisode => state_of (finish_one_episode b)
  | Sample n g => state_of (sample n g b)
  | ResetInitBuffer => reset_init_buffer b
  end.

Definition run (ops : list op) b : ReplayBuffer_Perception.t V :=
  fold_left (fun b o => run_op o b) ops b.

Definition has_key (key : string) (e : dict (pyval V)) : Prop :=
  dict_has key e = true.

(** The precondition of [store]: four columns of one length whose entries
    carry the keys the method reads. *)
Definition batch_aligned (data_list : list (list (dict (pyval V)))) : Prop :=
  match data_list with
  | [ego_actions; scenario_actions; obs; infos] =>
    length ego_actions = length infos /\
    length scenario_actions = length infos /\
    length obs = length infos /\
    Forall (has_key "od_result") ego_actions /\
    Forall (has_key "attack") scenario_actions /\
    Forall (has_key "img") obs /\
    Forall (has_key "bbox_label") infos /\
    Forall (has_key "iou_loss") infos
  | _ => False
  end.

Definition op_aligned (o : op) : Prop :=
  match o with
  | Store data_list => batch_aligned data_list
  | _ => True
  end.

(** [buffer_len] is the number of stored records. *)
Definition counted b : Prop :=
  buffer_len b = Z.of_nat (length (concat (buffer_loss b))).

(** The values [col[i][key]] of the batch positions [i] whose [infos[i]]
    selects slot [s] among [n], in batch order. *)
Fixpoint routed (n s : nat) (infos col : list (dict (pyval V))) (key : string)
  : list (pyval V) :=
  match infos, col with
  | tag :: infos', e :: col' =>
    match Generic.slot_of n tag, dict_get key e with
    | Some k, Some v => if k =? s then v :: routed n s infos' col' key
                        else routed n s infos' col' key
    | _, _ => routed n s infos' col' key
    end
  | _, _ => []
  end.

(** Every [store] call of the sequence returns. *)
Fixpoint stores_return (ops : list op) b : Prop :=
  match ops with
  | [] => True
  | o :: ops' =>
    match o with
    | Store data_list => failsb (store data_list b) = false
    | _ => True
    end /\ stores_return ops' (run_op o b)
  end.

End Vocabulary.

End Perception.

(** ** Concrete buffers and batches, with strings as payloads *)

Module Examples.

Open Scope string_scope.

Definition fresh (n : nat) : ReplayBuffer.t string :=
  ReplayBuffer.init n "train_agent" 1000.

Definition tag (sid : Z) : dict (pyval string) := [("scenario_id", VInt sid)].

Definition tag_cost (sid : Z) (c : string) : dict (pyval string) :=
  [("scenario_id", VInt sid); ("cost", VData c)].

(** Two transitions in one batch. *)
Definition two_steps : ReplayBuffer.data_list string :=
  {| ReplayBuffer.ego_actions := ["e0"; "e1"];
     ReplayBuffer.scenario_actions := ["s0"; "s1"];
     ReplayBuffer.obs := ["o0"; "o1"];
     ReplayBuffer.next_obs := ["n0"; "n1"];
     ReplayBuffer.rewards := [10; 20]%Z;
     ReplayBuffer.dones := [true; true] |}.

(** A batch whose [ego_actions] field is empty. *)
Definition no_ego : ReplayBuffer.data_list string :=
  {| ReplayBuffer.ego_actions := [];
     ReplayBuffer.scenario_actions := ["s0"];
     ReplayBuffer.obs := ["o0"];
     ReplayBuffer.next_obs := ["n0"];
     ReplayBuffer.rewards := [10]%Z;
     ReplayBuffer.dones := [true] |}.

(** One scenario slot after the six transitions of the aggregation example,
    [finish_one_episode] being called after the third. *)
Definition three : ReplayBuffer.t string :=
  Generic.store_steps "x" [(1, false); (2, false); (3, true)]%Z (fresh 1).

Definition six : ReplayBuffer.t string :=
  Generic.store_steps "x" [(4, false); (5, false); (6, true)]%Z
    (state_of (ReplayBuffer.finish_one_episode three)).

(** One scenario slot: a transition without extra keys, then one that
    carries ['cost']. *)
Definition late_key : ReplayBuffer.t string :=
  state_of (ReplayBuffer.store (Generic.one_step "x" 2%Z false) [tag_cost 0 "c"]
    (state_of (ReplayBuffer.store (Generic.one_step "x" 1%Z false) [tag 0]
                                  (fresh 1)))).

(** One [store_init], no episode finished yet. *)
Definition init_only : ReplayBuffer.t string :=
  state_of (ReplayBuffer.store_init "obs" ["a0"] None (fresh 1)).

(** Two scenario slots and a sampling capacity of one; two episodes, each
    with one [store_init] of two rows, one [store] of two transitions and one
    [finish_one_episode]. *)
Definition episode (so a b : string) (r1 r2 : Z) (buf : ReplayBuffer.t string)
  : ReplayBuffer.t string :=
  state_of (ReplayBuffer.finish_one_episode
    (state_of (ReplayBuffer.store
       {| ReplayBuffer.ego_actions := ["e0"; "e1"];
          ReplayBuffer.scenario_actions := ["s0"; "s1"];
          ReplayBuffer.obs := ["o0"; "o1"];
          ReplayBuffer.next_obs := ["n0"; "n1"];
          ReplayBuffer.rewards := [r1; r2];
          ReplayBuffer.dones := [true; true] |}
       [tag 0; tag 1]
       (state_of (ReplayBuffer.store_init so [a; b] None buf))))).

Definition two_episodes : ReplayBuffer.t string :=
  episode "obs1" "a2" "a3" 30 40
    (episode "obs0" "a0" "a1" 10 20 (ReplayBuffer.init 2 "train_scenario" 1)).

(** A sequence of calls on the generic buffer. *)
Definition calls : list (@Generic.op string) :=
  [Generic.Store two_steps [tag_cost 1 "c"; tag 0];
   Generic.StoreInit "obs" ["a0"; "a1"] None;
   Generic.FinishOneEpisode;
   Generic.Sample 3 (fun k => k);
   Generic.SampleInit 1 (fun k => k);
   Generic.Store (Generic.one_step "x" 5%Z true) [tag 7]].

(** The four columns of a perception batch of one record. *)
Definition p_ego : list (dict (pyval string)) := [[("od_result", VData "pred")]].
Definition p_scen : list (dict (pyval string)) := [[("attack", VData "tex")]].
Definition p_obs : list (dict (pyval string)) := [[("img", VData "image")]].
Definition p_infos : list (dict (pyval string)) :=
  [[("scenario_id", VInt 0); ("bbox_label", VData "box");
    ("iou_loss", VData "loss")]].

Definition p_fresh : ReplayBuffer_Perception.t string :=
  ReplayBuffer_Perception.init 1 "eval" 1000.

Definition p_one : ReplayBuffer_Perception.t string :=
  state_of (ReplayBuffer_Perception.store [p_ego; p_scen; p_obs; p_infos] p_fresh).

Definition p_calls : list (@Perception.op string) :=
  [Perception.Store [p_ego; p_scen; p_obs; p_infos];
   Perception.Sample 2 (fun k => k);
   Perception.FinishOneEpisode;
   Perception.Store [p_ego; p_scen; p_obs; p_infos];
   Perception.ResetInitBuffer].

(** One transition for each of the scenario ids 0 and 1, marked [k]. *)
Definition both (k : string) (r0 r1 : Z) : ReplayBuffer.data_list string :=
  {| ReplayBuffer.ego_actions := ["e0" ++ k; "e1" ++ k];
     ReplayBuffer.scenario_actions := ["s0" ++ k; "s1" ++ k];
     ReplayBuffer.obs := ["o0" ++ k; "o1" ++ k];
     ReplayBuffer.next_obs := ["n0" ++ k; "n1" ++ k];
     ReplayBuffer.rewards := [r0; r1];
     ReplayBuffer.dones := [false; false] |}.

(** Two scenario slots and a capacity of five, so windows of two entries;
    three transitions stored for each id. *)
Definition windowed : ReplayBuffer.t string :=
  state_of (ReplayBuffer.store (both "c" 2 12) [tag 0; tag 1]
    (state_of (ReplayBuffer.store (both "b" 1 11) [tag 0; tag 1]
      (state_of (ReplayBuffer.store (both "a" 0 10) [tag 0; tag 1]
                  (ReplayBuffer.init 2 "train_agent" 5)))))).

(** One perception record for each of the scenario ids 0 and 1, marked [k]. *)
Definition p_both (k : string) : list (list (dict (pyval string))) :=
  [[[("od_result", VData ("pred0" ++ k))]; [("od_result", VData ("pred1" ++ k))]];
   [[("attack", VData ("tex0" ++ k))]; [("attack", VData ("tex1" ++ k))]];
   [[("img", VData ("img0" ++ k))]; [("img", VData ("img1" ++ k))]];
   [[("scenario_id", VInt 0); ("bbox_label", VData ("box0" ++ k));
     ("iou_loss", VData ("loss0" ++ k))];
    [("scenario_id", VInt 1); ("bbox_label", VData ("box1" ++ k));
     ("iou_loss", VData ("loss1" ++ k))]]].

(** Two scenario slots and a capacity of three, so windows of one entry; two
    records stored for each id. *)
Definition p_windowed : ReplayBuffer_Perception.t string :=
  state_of (ReplayBuffer_Perception.store (p_both "b")
    (state_of (ReplayBuffer_Perception.store (p_both "a")
                (ReplayBuffer_Perception.init 2 "eval" 3)))).

(** [three] with two more transitions of an episode that is not over. *)
Definition three_more : ReplayBuffer.t string :=
  Generic.store_steps "x" [(4, false); (5, false)]%Z three.

(** One scenario slot, two episodes of one init row each. *)
Definition single_rows : ReplayBuffer.t string :=
  state_of (ReplayBuffer.finish_one_episode
    (state_of (ReplayBuffer.store (Generic.one_step "x" 7%Z true) [tag 0]
      (state_of (ReplayBuffer.store_init "obs1" ["a1"] None
        (state_of (ReplayBuffer.finish_one_episode
          (state_of (ReplayBuffer.store (Generic.one_step "x" 5%Z true) [tag 0]
            (state_of (ReplayBuffer.store_init "obs0" ["a0"] None
                                             (fresh 1)))))))))))).

(** Calls whose [store] all return. *)
Definition good_calls : list (@Generic.op string) :=
  [Generic.Store two_steps [tag_cost 1 "c"; tag 0];
   Generic.StoreInit "obs" ["a0"; "a1"] None;
   Generic.FinishOneEpisode;
   Generic.Sample 3 (fun k => k);
   Generic.ResetInitBuffer;
   Generic.Store (Generic.one_step "x" 5%Z true) [tag (-1)]].

(** Calls tagged by position; ['cost'] is carried by some entries only. *)
Definition position_calls : list (@Generic.op string) :=
  [Generic.Store two_steps [tag 0; tag_cost 1 "c"];
   Generic.FinishOneEpisode;
   Generic.Store (Generic.one_step "x" 5%Z true) [tag_cost 0 "d"];
   Generic.Store two_steps [tag_cost 0 "e"; tag 1]].

(** Calls tagged by position in which every entry carries ['cost']. *)
Definition cost_calls : list (@Generic.op string) :=
  [Generic.Store two_steps [tag_cost 0 "c"; tag_cost 1 "d"];
   Generic.FinishOneEpisode;
   Generic.Store (Generic.one_step "x" 5%Z true) [tag_cost 0 "e"]].

(** Calls whose [store_init] all carry ['weather']. *)
Definition init_calls : list (@Generic.op string) :=
  [Generic.StoreInit "obs0" ["a0"] (Some [("weather", ["rain"])]);
   Generic.Store two_steps [tag 0; tag 1];
   Generic.FinishOneEpisode;
   Generic.StoreInit "obs1" ["a1"; "a2"]
     (Some [("town", ["t5"; "t5"]); ("weather", ["sun"; "fog"])]);
   Generic.SampleInit 1 (fun k => k)].

(** A perception batch of two records for the same scenario id. *)
Definition p_ego2 : list (dict (pyval string)) :=
  [[("od_result", VData "pred0")]; [("od_result", VData "pred1")]].
Definition p_scen2 : list (dict (pyval string)) :=
  [[("attack", VData "tex0")]; [("attack", VData "tex1")]].
Definition p_obs2 : list (dict (pyval string)) :=
  [[("img", VData "image0")]; [("img", VData "image1")]].
Definition p_infos2 : list (dict (pyval string)) :=
  [[("scenario_id", VInt 0); ("bbox_label", VData "box0");
    ("iou_loss", VData "loss0")];
   [("scenario_id", VInt (-1)); ("bbox_label", VData "box1");
    ("iou_loss", VData "loss1")]].

(** A leading-vehicle scenario on a straight lane: a transform is the pair
    of the distance along the lane and the offset to its right, controls are
    integers. *)
Definition lane_along (first : Z * Z) (i n : nat) : Z * Z :=
  (fst first + Z.of_nat i, snd first)%Z.

Definition lane_aside (first t : Z * Z) (c : Z) : Z * Z :=
  (fst t, snd t + c)%Z.

(** After [__init__] with three parameters, the two transforms and the two
    actors in place. *)
Definition lane_fresh : OtherLeadingVehicle.t (Z * Z) string Z :=
  OtherLeadingVehicle.init Z.mul Z.sub (fun z => z)
    [(10, 0); (10, -3)]%Z ["lead"; "side"] [1; 0; 1]%Z.

(** After the loops of [initialize_actors]. *)
Definition lane_ready : OtherLeadingVehicle.t (Z * Z) string Z :=
  state_of (OtherLeadingVehicle.build_transform_lists
              lane_along lane_aside (10, 0)%Z lane_fresh).

End Examples.

(** * Properties *)

(** ** Facts on the Python fragment *)

Section PyFacts.

Lemma bind_ok {S A B} (m : M S A) (k : A -> M S B) s a s' :
  m s = Ok a s' -> bind m k s = k a s'.
Proof. unfold bind; intros ->; reflexivity. Qed.

Lemma bind_raise {S A B} (m : M S A) (k : A -> M S B) s e s' :
  m s = Raise e s' -> bind m k s = Raise e s'.
Proof. unfold bind; intros ->; reflexivity. Qed.

Lemma for_each_app {S} (l1 l2 : list nat) (body : nat -> M S unit) s :
  for_each (l1 ++ l2) body s =
  bind (for_each l1 body) (fun _ => for_each l2 body) s.
Proof.
  revert s; induction l1 as [|i l1 IH]; intros s; simpl.
  - reflexivity.
  - unfold bind in *. destruct (body i s) as [[] s'|e s']; [|reflexivity].
    apply IH.
Qed.


Lemma py_index_nonneg (n : nat) (k : nat) :
  k < n -> py_index n (Z.of_nat k) = Some k.
Proof.
  intros H. unfold py_index.
  destruct (Z.leb_spec 0 (Z.of_nat k)); [|lia].
  destruct (Z.ltb_spec (Z.of_nat k) (Z.of_nat n)); [|lia].
  now rewrite Nat2Z.id.
Qed.

Lemma py_index_lt (n : nat) (i : Z) (k : nat) :
  py_index n i = Some k -> k < n.
Proof.
  unfold py_index.
  destruct (Z.leb_spec 0 i).
  - destruct (Z.ltb_spec i (Z.of_nat n)); [|discriminate].
    intros [= <-]. lia.
  - destruct (Z.leb_spec (- Z.of_nat n) i); [|discriminate].
    intros [= <-]. lia.
Qed.

Lemma py_get_last {A} (l : list A) (x : A) :
  py_get (l ++ [x]) (-1) = inr x.
Proof.
  unfold py_get, py_index. rewrite length_app. simpl.
  destruct (Z.leb_spec (- Z.of_nat (length l + 1)) (-1)); [|lia].
  replace (Z.to_nat (Z.of_nat (length l + 1) + -1)) with (length l) by lia.
  rewrite nth_error_app2 by lia. now rewrite Nat.sub_diag.
Qed.

Lemma py_get_last2 {A} (l : list A) (x y : A) :
  py_get (l ++ [x; y]) (-2) = inr x.
Proof.
  unfold py_get, py_index. rewrite length_app. simpl.
  destruct (Z.leb_spec (- Z.of_nat (length l + 2)) (-2)); [|lia].
  replace (Z.to_nat (Z.of_nat (length l + 2) + -2)) with (length l) by lia.
  rewrite nth_error_app2 by lia. now rewrite Nat.sub_diag.
Qed.

Lemma py_get_nil {A} (i : Z) : py_get (@nil A) i = inl IndexError.
Proof.
  unfold py_get, py_index. simpl.
  destruct (Z.leb_spec 0 i).
  - destruct (Z.ltb_spec i 0); [lia|reflexivity].
  - destruct (Z.leb_spec (-0) i); [lia|reflexivity].
Qed.

Lemma filter_map_S (f : nat -> bool) (l : list nat) :
  filter f (map S l) = map S (filter (fun j => f (S j)) l).
Proof.
  induction l as [|x l IH]; simpl; [reflexivity|].
  destruct (f (S x)); simpl; now rewrite IH.
Qed.

Lemma where_from_indices (i : nat) (l : list bool) :
  where_from i l = map (fun j => Z.of_nat (i + j)) (Spec.done_indices l).
Proof.
  unfold Spec.done_indices.
  revert i; induction l as [|d l IH]; intros i; [reflexivity|].
  cbn [where_from length]. rewrite <- cons_seq, <- seq_shift.
  cbn [filter nth]. rewrite filter_map_S. cbn [nth].
  rewrite IH.
  destruct d; cbn [map]; rewrite map_map.
  - rewrite Nat.add_0_r. f_equal. apply map_ext; intros; f_equal; lia.
  - apply map_ext; intros; f_equal; lia.
Qed.

Lemma np_where_indices (l : list bool) :
  np_where l = map Z.of_nat (Spec.done_indices l).
Proof. unfold np_where. now rewrite where_from_indices. Qed.

Lemma done_indices_In (ds : list bool) (i : nat) :
  In i (Spec.done_indices ds) <-> nth_error ds i = Some true.
Proof.
  unfold Spec.done_indices. rewrite filter_In, in_seq. split.
  - intros [[_ H] E]. simpl in H.
    destruct (nth_error ds i) as [x|] eqn:N.
    + rewrite (nth_error_nth _ _ _ N) in E. now subst.
    + apply nth_error_None in N. lia.
  - intros N. split.
    + split; [lia|]. simpl. apply nth_error_Some. now rewrite N.
    + now rewrite (nth_error_nth _ _ _ N).
Qed.

Lemma done_indices_nil (ds : list bool) :
  Spec.done_indices ds = [] <-> ~ In true ds.
Proof.
  split.
  - intros E H. apply In_nth_error in H as [i H].
    apply done_indices_In in H. now rewrite E in H.
  - intros H. destruct (Spec.done_indices ds) as [|i l] eqn:E; [reflexivity|].
    exfalso. apply H.
    assert (I : In i (Spec.done_indices ds)) by (rewrite E; now left).
    apply done_indices_In in I. eapply nth_error_In; eauto.
Qed.

Lemma np_sum_firstn_skipn (rs : list Z) (a k : nat) :
  np_sum (firstn k (skipn a rs)) =
  np_sum (map (fun i => nth i rs 0%Z) (seq a k)).
Proof.
  revert a k; induction rs as [|x rs IH]; intros a k.
  - rewrite skipn_nil, firstn_nil. simpl.
    generalize a. induction k as [|k IHk]; intros a'; simpl; [reflexivity|].
    rewrite <- IHk. now destruct a'.
  - destruct a as [|a].
    + destruct k as [|k]; [reflexivity|].
      cbn [skipn firstn seq map nth]. unfold np_sum in *. cbn [fold_right].
      rewrite <- seq_shift, map_map. cbn [nth].
      f_equal. apply (IH 0 k).
    + cbn [skipn]. rewrite IH. rewrite <- seq_shift, map_map. reflexivity.
Qed.

Lemma clip_of_nat (n k : nat) : clip n (Z.of_nat k) = Nat.min k n.
Proof.
  unfold clip. destruct (Z.ltb_spec (Z.of_nat k) 0); [lia|].
  now rewrite Nat2Z.id.
Qed.

Lemma slice_of_nat {A} (a b : nat) (l : list A) :
  slice (Z.of_nat a) (Z.of_nat b) l = firstn (b - a) (skipn a l).
Proof.
  unfold slice. rewrite !clip_of_nat.
  destruct (Nat.le_gt_cases a (length l)) as [Ha|Ha].
  - rewrite (Nat.min_l a) by lia.
    destruct (Nat.le_gt_cases b (length l)) as [Hb|Hb].
    + now rewrite (Nat.min_l b) by lia.
    + rewrite (Nat.min_r b) by lia.
      rewrite !firstn_all2; try reflexivity; rewrite length_skipn; lia.
  - rewrite (Nat.min_r a) by lia.
    rewrite !skipn_all2 by lia. now rewrite !firstn_nil.
Qed.

Lemma slice_from_of_nat {A} (a : nat) (l : list A) :
  slice_from (Z.of_nat a) l = skipn a l.
Proof.
  unfold slice_from. rewrite clip_of_nat.
  destruct (Nat.le_gt_cases a (length l)) as [Ha|Ha].
  - now rewrite Nat.min_l by lia.
  - rewrite Nat.min_r by lia. now rewrite !skipn_all2 by lia.
Qed.

(** The window of the samplers is the newest [w] entries of the bucket. *)
Lemma window_newest {A} (w : Z) (l : list A) :
  slice_from (np_max0 (Z.of_nat (length l) - w)) l = Spec.newest w l.
Proof.
  unfold np_max0, Spec.newest.
  destruct (Z.le_gt_cases (Z.of_nat (length l) - w) 0) as [H|H].
  - rewrite Z.max_l by lia. change 0%Z with (Z.of_nat 0).
    rewrite slice_from_of_nat. f_equal. lia.
  - rewrite Z.max_r by lia.
    destruct (Z.le_gt_cases 0 w) as [Hw|Hw].
    + replace (Z.of_nat (length l) - w)%Z
        with (Z.of_nat (length l - Z.to_nat w)) by lia.
      now rewrite slice_from_of_nat.
    + unfold slice_from, clip.
      destruct (Z.ltb_spec (Z.of_nat (length l) - w) 0); [lia|].
      replace (Z.to_nat w) with 0 by lia. rewrite Nat.sub_0_r.
      f_equal. lia.
Qed.

End PyFacts.

(** ** The episode aggregator *)

Section EpisodeAggregator.

Import ReplayBuffer Generic.

Context {V : Type}.

Implicit Types b : ReplayBuffer.t V.

Lemma finish_row_ok b s ds rs v :
  nth_error (buffer_dones b) s = Some ds ->
  nth_error (buffer_rewards b) s = Some rs ->
  Spec.episode_return rs ds = Some v ->
  finish_row s b =
  Ok tt (set_buffer_episode_reward (buffer_episode_reward b ++ [v]) b).
Proof.
  intros Hd Hr Hv.
  unfold finish_row, bind, reads, lift, reads, lookup, modify.
  rewrite Hd, np_where_indices, length_map.
  unfold Spec.episode_return in Hv.
  destruct (rev (Spec.done_indices ds)) as [|e [|p r]] eqn:E; [discriminate| |];
    apply (f_equal (@rev nat)) in E; rewrite rev_involutive in E;
    rewrite E; injection Hv as <-.
  - cbn -[slice Spec.span_sum Z.add Z.of_nat].
    change (py_get [Z.of_nat e] (-1)) with (py_get ([] ++ [Z.of_nat e]) (-1)).
    rewrite py_get_last, Hr. do 3 f_equal.
    change (-1 + 1)%Z with (Z.of_nat 0).
    replace (Z.of_nat e + 1)%Z with (Z.of_nat (S e)) by lia.
    rewrite slice_of_nat, np_sum_firstn_skipn. reflexivity.
  - cbn [rev]. rewrite <- app_assoc. cbn [app].
    rewrite length_app. cbn [length].
    replace (1 <? length (rev r) + 2) with true
      by (symmetry; apply Nat.ltb_lt; lia).
    rewrite map_app. cbn [map]. rewrite py_get_last2.
    change [Z.of_nat p; Z.of_nat e] with ([Z.of_nat p] ++ [Z.of_nat e]).
    rewrite app_assoc, py_get_last, Hr. do 3 f_equal.
    replace (Z.of_nat p + 1)%Z with (Z.of_nat (S p)) by lia.
    replace (Z.of_nat e + 1)%Z with (Z.of_nat (S e)) by lia.
    rewrite slice_of_nat, np_sum_firstn_skipn. reflexivity.
Qed.

Lemma finish_row_no_done b s ds :
  nth_error (buffer_dones b) s = Some ds ->
  ~ In true ds ->
  finish_row s b = Raise IndexError b.
Proof.
  intros Hd Hn.
  unfold finish_row, bind, reads, lift, reads, lookup.
  rewrite Hd, np_where_indices.
  apply done_indices_nil in Hn. rewrite Hn. reflexivity.
Qed.

Lemma episode_return_some rs ds :
  In true ds -> exists v, Spec.episode_return rs ds = Some v.
Proof.
  intros H. unfold Spec.episode_return.
  destruct (rev (Spec.done_indices ds)) as [|e [|p r]] eqn:E; eauto.
  exfalso. apply (f_equal (@rev nat)) in E. rewrite rev_involutive in E.
  apply done_indices_nil in E. contradiction.
Qed.

Lemma finish_loop_ok b (l : list nat) :
  (forall s, In s l ->
     s < length (buffer_dones b) /\ s < length (buffer_rewards b) /\
     In true (nth s (buffer_dones b) [])) ->
  exists vals,
    for_each l finish_row b =
    Ok tt (set_buffer_episode_reward (buffer_episode_reward b ++ vals) b) /\
    returns_of b l vals.
Proof.
  revert b; induction l as [|s l IH]; intros b H.
  - exists []. split; [|constructor]. simpl. unfold ret.
    rewrite app_nil_r. now destruct b.
  - destruct (H s (or_introl eq_refl)) as (Hd & Hr & Ht).
    destruct (episode_return_some (nth s (buffer_rewards b) []) _ Ht) as [v Hv].
    pose proof (finish_row_ok b s _ _ v
                  (nth_error_nth' _ [] Hd) (nth_error_nth' _ [] Hr) Hv) as Hrow.
    set (b1 := set_buffer_episode_reward (buffer_episode_reward b ++ [v]) b) in *.
    destruct (IH b1) as (vals & Hloop & Hvals).
    { intros s' Hs'. apply H. now right. }
    exists (v :: vals). split.
    + cbn [for_each]. rewrite (bind_ok _ _ _ _ _ Hrow), Hloop.
      unfold b1. cbn. now rewrite <- app_assoc.
    + constructor; assumption.
Qed.

Lemma finish_loop_raise b (l : list nat) :
  (forall s, In s l ->
     s < length (buffer_dones b) /\ s < length (buffer_rewards b)) ->
  (exists s, In s l /\ ~ In true (nth s (buffer_dones b) [])) ->
  exists b', for_each l finish_row b = Raise IndexError b'.
Proof.
  revert b; induction l as [|s l IH]; intros b H (s0 & Hin & Hno).
  - destruct Hin.
  - destruct (H s (or_introl eq_refl)) as (Hd & Hr).
    destruct (in_dec Bool.bool_dec true (nth s (buffer_dones b) [])) as [Ht|Hf].
    + destruct (episode_return_some (nth s (buffer_rewards b) []) _ Ht) as [v Hv].
      pose proof (finish_row_ok b s _ _ v
                    (nth_error_nth' _ [] Hd) (nth_error_nth' _ [] Hr) Hv) as Hrow.
      cbn [for_each]. rewrite (bind_ok _ _ _ _ _ Hrow).
      apply IH.
      * intros s' Hs'. apply H. now right.
      * destruct Hin as [<-|Hin]; [contradiction|]. exists s0. auto.
    + exists b. cbn [for_each].
      apply bind_raise. apply finish_row_no_done with (ds := nth s (buffer_dones b) []).
      * now apply nth_error_nth'.
      * assumption.
Qed.

End EpisodeAggregator.

Section EpisodeAggregatorTheorems.

Import ReplayBuffer Generic.

Context {V : Type}.

Implicit Types b : ReplayBuffer.t V.

Lemma Forall2_nth_error_pair {A B} (R : A -> B -> Prop) l l' i x y :
  Forall2 R l l' -> nth_error l i = Some x -> nth_error l' i = Some y -> R x y.
Proof.
  intros H; revert i; induction H as [|a c l l' Hac _ IH]; intros i Hx Hy.
  - now destruct i.
  - destruct i as [|i]; cbn in Hx, Hy.
    + injection Hx as <-. injection Hy as <-. exact Hac.
    + eapply IH; eauto.
Qed.

Lemma returns_of_fun b l vals1 vals2 :
  returns_of b l vals1 -> returns_of b l vals2 -> vals1 = vals2.
Proof.
  intros H1; revert vals2; induction H1 as [|s v l vals Hv _ IH];
    intros vals2 H2; inversion H2 as [|s' v' l' vals' Hv' H2']; subst.
  - reflexivity.
  - f_equal; [congruence|auto].
Qed.

Lemma returns_of_length b l vals : returns_of b l vals -> length vals = length l.
Proof. intros H. symmetry. eapply Forall2_length; eauto. Qed.

Lemma finish_one_episode_ok b :
  length (buffer_dones b) = num_scenario b ->
  length (buffer_rewards b) = num_scenario b ->
  (forall s, s < num_scenario b -> In true (nth s (buffer_dones b) [])) ->
  exists vals,
    finish_one_episode b =
    Ok tt (set_buffer_episode_reward (buffer_episode_reward b ++ vals) b) /\
    returns_of b (seq 0 (num_scenario b)) vals.
Proof.
  intros Hd Hr H. unfold finish_one_episode, for_range.
  apply finish_loop_ok. intros s Hs. apply in_seq in Hs.
  rewrite Hd, Hr. repeat split; try lia. apply H. lia.
Qed.

(** C2.  When every scenario id has a done marker, [finish_one_episode]
    appends for each id, in order, the reward sum over [D[-2]+1 .. D[-1]]
    (more than one marker) or over [0 .. D[-1]] (one marker); when some id
    has no marker the call raises.  With rewards [1..6] and done flags
    [F,F,T,F,F,T] the call after the third transition appends 6 and the call
    after the sixth appends 15. *)
Theorem finish_one_episode_spec :
  (forall b,
     length (buffer_dones b) = num_scenario b ->
     length (buffer_rewards b) = num_scenario b ->
     ((forall s, s < num_scenario b -> In true (nth s (buffer_dones b) [])) ->
      exists vals,
        finish_one_episode b =
        Ok tt (set_buffer_episode_reward (buffer_episode_reward b ++ vals) b) /\
        returns_of b (seq 0 (num_scenario b)) vals) /\
     ((exists s, s < num_scenario b /\ ~ In true (nth s (buffer_dones b) [])) ->
      exists b', finish_one_episode b = Raise IndexError b')) /\
  (forall (e : V) (mode : string) (capacity : Z),
     let b3 := store_steps e [(1, false); (2, false); (3, true)]%Z
                           (init 1 mode capacity) in
     let b3' := state_of (finish_one_episode b3) in
     let b6 := store_steps e [(4, false); (5, false); (6, true)]%Z b3' in
     buffer_rewards b6 = [[1; 2; 3; 4; 5; 6]]%Z /\
     buffer_dones b6 = [[false; false; true; false; false; true]] /\
     buffer_episode_reward b3' = [6]%Z /\
     buffer_episode_reward (state_of (finish_one_episode b6)) = [6; 15]%Z).
Proof.
  split.
  - intros b Hd Hr. split.
    + now apply finish_one_episode_ok.
    + unfold finish_one_episode, for_range.
      intros (s & Hs & Hn). apply finish_loop_raise.
      * intros s' Hs'. apply in_seq in Hs'. lia.
      * exists s. split; [apply in_seq; lia|assumption].
  - intros e mode capacity. cbv zeta. repeat split; reflexivity.
Qed.

(** C10.  Calling [finish_one_episode] twice in a row appends the same
    returns twice: the completed episode is aggregated again, not consumed.
    Read back from [buffer_episode_reward], the list after the two calls is
    the former list followed by the returns of the scenario ids, in order,
    and by the same returns once more; the return of scenario id [s] sits at
    offsets [s] and [num_scenario + s] past the former end. *)
Theorem finish_one_episode_twice b :
  length (buffer_dones b) = num_scenario b ->
  length (buffer_rewards b) = num_scenario b ->
  (forall s, s < num_scenario b -> In true (nth s (buffer_dones b) [])) ->
  exists vals,
    returns_of b (seq 0 (num_scenario b)) vals /\
    length vals = num_scenario b /\
    finish_one_episode b =
    Ok tt (set_buffer_episode_reward (buffer_episode_reward b ++ vals) b) /\
    (finish_one_episode ;;; finish_one_episode) b =
    Ok tt (set_buffer_episode_reward
             (buffer_episode_reward b ++ vals ++ vals) b) /\
    buffer_episode_reward (state_of (finish_one_episode b)) =
      buffer_episode_reward b ++ vals /\
    buffer_episode_reward
      (state_of ((finish_one_episode ;;; finish_one_episode) b)) =
      buffer_episode_reward b ++ vals ++ vals /\
    forall s, s < num_scenario b ->
      exists v,
        Spec.episode_return (nth s (buffer_rewards b) [])
                            (nth s (buffer_dones b) []) = Some v /\
        nth_error
          (buffer_episode_reward
             (state_of ((finish_one_episode ;;; finish_one_episode) b)))
          (length (buffer_episode_reward b) + s) = Some v /\
        nth_error
          (buffer_episode_reward
             (state_of ((finish_one_episode ;;; finish_one_episode) b)))
          (length (buffer_episode_reward b) + num_scenario b + s) = Some v.
Proof.
  intros Hd Hr Hall.
  destruct (finish_one_episode_ok b Hd Hr Hall) as (vals & H1 & Hv).
  set (b1 := set_buffer_episode_reward (buffer_episode_reward b ++ vals) b) in *.
  destruct (finish_one_episode_ok b1 Hd Hr Hall) as (vals1 & H2 & Hv1).
  assert (vals1 = vals) as -> by (eapply returns_of_fun; eauto).
  assert (Hl : length vals = num_scenario b)
    by (rewrite (returns_of_length _ _ _ Hv); apply length_seq).
  assert (H12 : (finish_one_episode ;;; finish_one_episode) b =
                Ok tt (set_buffer_episode_reward
                         (buffer_episode_reward b ++ vals ++ vals) b)).
  { rewrite (bind_ok _ _ _ _ _ H1), H2. unfold b1. cbn.
    now rewrite <- app_assoc. }
  exists vals.
  split; [exact Hv|]. split; [exact Hl|]. split; [exact H1|].
  split; [exact H12|]. split; [now rewrite H1|]. split; [now rewrite H12|].
  intros s Hs. rewrite H12. cbn [state_of buffer_episode_reward
                                 set_buffer_episode_reward].
  destruct (nth_error vals s) as [v|] eqn:Ev;
    [|apply nth_error_None in Ev; lia].
  exists v. split; [|split].
  - unfold returns_of in Hv.
    assert (Hsq : nth_error (seq 0 (num_scenario b)) s = Some s).
    { rewrite nth_error_seq. now rewrite (proj2 (Nat.ltb_lt _ _) Hs). }
    destruct (Forall2_nth_error_pair _ _ _ _ _ _ Hv Hsq Ev) as [].
    reflexivity.
  - rewrite nth_error_app2 by lia.
    replace (length (buffer_episode_reward b) + s
             - length (buffer_episode_reward b)) with s by lia.
    rewrite nth_error_app1 by lia. exact Ev.
  - rewrite nth_error_app2 by lia.
    replace (length (buffer_episode_reward b) + num_scenario b + s
             - length (buffer_episode_reward b)) with (length vals + s) by lia.
    rewrite nth_error_app2 by lia.
    replace (length vals + s - length vals) with s by lia. exact Ev.
Qed.

End EpisodeAggregatorTheorems.

(** ** The alignment invariant of [ReplayBuffer] *)

Section ListFacts.

Context {A B : Type}.

Lemma length_app_at (k : nat) (x : A) (l : list (list A)) :
  length (app_at k x l) = length l.
Proof.
  revert k; induction l as [|h t IH]; intros [|k]; simpl; auto.
Qed.

Lemma lens_app_at (k : nat) (x : A) (y : B) (l1 : list (list A))
    (l2 : list (list B)) :
  Generic.lens l1 = Generic.lens l2 ->
  Generic.lens (app_at k x l1) = Generic.lens (app_at k y l2).
Proof.
  unfold Generic.lens.
  revert k l2; induction l1 as [|h1 t1 IH]; intros k [|h2 t2] H;
    try discriminate; [reflexivity|].
  simpl in H. injection H as Hh Ht.
  destruct k as [|k]; simpl.
  - rewrite !length_app, Hh, Ht. reflexivity.
  - rewrite Hh, (IH k t2 Ht). reflexivity.
Qed.

Lemma lens_length (l1 : list (list A)) (l2 : list (list B)) :
  Generic.lens l1 = Generic.lens l2 -> length l1 = length l2.
Proof.
  unfold Generic.lens. intros H. apply (f_equal (@length nat)) in H.
  now rewrite !length_map in H.
Qed.

Lemma lens_nth (l1 : list (list A)) (l2 : list (list B)) (s : nat) :
  Generic.lens l1 = Generic.lens l2 ->
  length (nth s l1 []) = length (nth s l2 []).
Proof.
  unfold Generic.lens.
  revert s l2; induction l1 as [|h1 t1 IH]; intros s [|h2 t2] H;
    simpl in H; try discriminate.
  - now destruct s.
  - injection H as Hh Ht. destruct s as [|s]; simpl; auto.
Qed.

Lemma lens_repeat (n : nat) :
  Generic.lens (repeat (@nil A) n) = Generic.lens (repeat (@nil B) n).
Proof.
  unfold Generic.lens. induction n; simpl; congruence.
Qed.

Lemma nth_app_at_same (k : nat) (x : A) (l : list (list A)) :
  k < length l -> nth k (app_at k x l) [] = nth k l [] ++ [x].
Proof.
  revert k; induction l as [|h t IH]; intros [|k] H; simpl in *; try lia; auto.
  apply IH. lia.
Qed.

Lemma nth_app_at_other (k s : nat) (x : A) (l : list (list A)) :
  s <> k -> nth s (app_at k x l) [] = nth s l [].
Proof.
  revert k s; induction l as [|h t IH]; intros [|k] [|s] H; simpl; auto;
    congruence.
Qed.

End ListFacts.

Lemma for_each_state_inv {S} (P : S -> Prop) (l : list nat)
    (body : nat -> M S unit) :
  (forall i s, In i l -> P s -> P (state_of (body i s))) ->
  forall s, P s -> P (state_of (for_each l body s)).
Proof.
  induction l as [|i l IH]; intros Hbody s Hs; simpl.
  - assumption.
  - unfold bind. pose proof (Hbody i s (or_introl eq_refl) Hs) as H1.
    destruct (body i s) as [[] s1|e s1]; simpl in H1.
    + apply IH; [|assumption]. intros j s' Hj. apply Hbody. now right.
    + assumption.
Qed.

Section AlignmentGeneric.

Import ReplayBuffer Generic.

Context {V : Type}.

Implicit Types b : ReplayBuffer.t V.

Lemma bucket_append_ok {A} (get : ReplayBuffer.t V -> list (list A)) set
    (i : Z) (k : nat) (x : A) col s_i b :
  py_index (length (get b)) i = Some k ->
  nth_error col s_i = Some x ->
  bucket_append get set (VInt i) col s_i b = Ok tt (set (app_at k x (get b)) b).
Proof. unfold bucket_append. intros -> ->. reflexivity. Qed.

Lemma aligned_at_of_aligned b s : aligned b -> aligned_at b s.
Proof.
  intros (H1 & H2 & H3 & H4 & H5). unfold aligned_at. cbv zeta.
  repeat split; now apply lens_nth.
Qed.

Lemma aligned_append_transition b k ea sa o no r d :
  aligned b -> aligned (append_transition k ea sa o no r d b).
Proof.
  intros (H1 & H2 & H3 & H4 & H5). unfold aligned, append_transition. cbn.
  repeat split; now apply lens_app_at.
Qed.

Lemma store_extras_buckets s_i items b :
  let b' := state_of (store_extras s_i items b) in
  buffer_ego_actions b' = buffer_ego_actions b /\
  buffer_scenario_actions b' = buffer_scenario_actions b /\
  buffer_obs b' = buffer_obs b /\
  buffer_next_obs b' = buffer_next_obs b /\
  buffer_rewards b' = buffer_rewards b /\
  buffer_dones b' = buffer_dones b.
Proof.
  revert b; induction items as [|[key v] items IH]; intros b; cbn [store_extras].
  - cbn. repeat split.
  - destruct (String.eqb key "scenario_id"); [apply IH|].
    unfold bind, extra_append.
    destruct (nth_error (buffer_additional_dict b) s_i) as [d|]; cbn.
    + match goal with |- context [store_extras s_i items ?b1] =>
        specialize (IH b1) end.
      cbn in IH. exact IH.
    + repeat split.
Qed.

Lemma aligned_store_extras s_i items b :
  aligned b -> aligned (state_of (store_extras s_i items b)).
Proof.
  intros H. destruct (store_extras_buckets s_i items b)
    as (E1 & E2 & E3 & E4 & E5 & E6).
  unfold aligned. now rewrite E1, E2, E3, E4, E5, E6.
Qed.

(** One iteration of [store] whose tag names a bucket and whose batch
    entries exist: six appends to that bucket, then the extra columns. *)
Lemma store_row_main data tags s_i b tag i k ea sa o no r d :
  aligned b ->
  nth_error tags s_i = Some tag ->
  dict_get "scenario_id" tag = Some (VInt i) ->
  py_index (length (buffer_rewards b)) i = Some k ->
  nth_error (ego_actions data) s_i = Some ea ->
  nth_error (scenario_actions data) s_i = Some sa ->
  nth_error (obs data) s_i = Some o ->
  nth_error (next_obs data) s_i = Some no ->
  nth_error (rewards data) s_i = Some r ->
  nth_error (dones data) s_i = Some d ->
  store_row data tags s_i b =
  store_extras s_i tag (append_transition k ea sa o no r d b).
Proof.
  intros (H1 & H2 & H3 & H4 & H5) Et Esid Ek E1 E2 E3 E4 E5 E6.
  apply lens_length in H1, H2, H3, H4, H5.
  unfold store_row. unfold bind at 1. unfold lift, reads, lookup.
  rewrite Et. unfold bind at 1. rewrite Esid.
    rewrite (bind_ok _ _ _ _ _
      (bucket_append_ok buffer_ego_actions _ i k ea _ s_i b
         ltac:(rewrite H1; exact Ek) E1)).
    match goal with |- bind _ _ ?b1 = _ =>
      rewrite (bind_ok _ _ _ _ _
        (bucket_append_ok buffer_scenario_actions _ i k sa _ s_i b1
           ltac:(cbn; rewrite H2; exact Ek) E2)) end.
    match goal with |- bind _ _ ?b1 = _ =>
      rewrite (bind_ok _ _ _ _ _
        (bucket_append_ok buffer_obs _ i k o _ s_i b1
           ltac:(cbn; rewrite H3; exact Ek) E3)) end.
    match goal with |- bind _ _ ?b1 = _ =>
      rewrite (bind_ok _ _ _ _ _
        (bucket_append_ok buffer_next_obs _ i k no _ s_i b1
           ltac:(cbn; rewrite H4; exact Ek) E4)) end.
    match goal with |- bind _ _ ?b1 = _ =>
      rewrite (bind_ok _ _ _ _ _
        (bucket_append_ok buffer_rewards _ i k r _ s_i b1
           ltac:(cbn; exact Ek) E5)) end.
    match goal with |- bind _ _ ?b1 = _ =>
      rewrite (bind_ok _ _ _ _ _
        (bucket_append_ok buffer_dones _ i k d _ s_i b1
           ltac:(cbn; rewrite H5; exact Ek) E6)) end.
    reflexivity.
Qed.

(** One iteration of [store] on an aligned batch either raises before its
    first append or appends to all six fields of one bucket and goes on to
    the extra columns. *)
Lemma store_row_cases data tags s_i b :
  aligned b -> batch_aligned data tags -> s_i < length tags ->
  (exists e, store_row data tags s_i b = Raise e b) \/
  (exists tag k ea sa o no r d,
     nth_error tags s_i = Some tag /\
     k < length (buffer_rewards b) /\
     nth_error (ego_actions data) s_i = Some ea /\
     nth_error (scenario_actions data) s_i = Some sa /\
     nth_error (obs data) s_i = Some o /\
     nth_error (next_obs data) s_i = Some no /\
     nth_error (rewards data) s_i = Some r /\
     nth_error (dones data) s_i = Some d /\
     (exists i, dict_get "scenario_id" tag = Some (VInt i) /\
                py_index (length (buffer_rewards b)) i = Some k) /\
     store_row data tags s_i b =
     store_extras s_i tag (append_transition k ea sa o no r d b)).
Proof.
  intros Ha (L1 & L2 & L3 & L4 & L5 & L6) Hs.
  pose proof Ha as (H1 & H2 & H3 & H4 & H5).
  apply lens_length in H1, H2, H3, H4, H5.
  destruct (nth_error tags s_i) as [tag|] eqn:Et;
    [|apply nth_error_None in Et; lia].
  destruct (nth_error (ego_actions data) s_i) as [ea|] eqn:E1;
    [|apply nth_error_None in E1; lia].
  destruct (nth_error (scenario_actions data) s_i) as [sa|] eqn:E2;
    [|apply nth_error_None in E2; lia].
  destruct (nth_error (obs data) s_i) as [o|] eqn:E3;
    [|apply nth_error_None in E3; lia].
  destruct (nth_error (next_obs data) s_i) as [no|] eqn:E4;
    [|apply nth_error_None in E4; lia].
  destruct (nth_error (rewards data) s_i) as [r|] eqn:E5;
    [|apply nth_error_None in E5; lia].
  destruct (nth_error (dones data) s_i) as [d|] eqn:E6;
    [|apply nth_error_None in E6; lia].
  destruct (dict_get "scenario_id" tag) as [[i|v]|] eqn:Esid.
  2:{ left. exists TypeError.
      unfold store_row, bind, lift, reads, lookup. rewrite Et, Esid.
      reflexivity. }
  2:{ left. exists KeyError.
      unfold store_row, bind, lift, reads, lookup. rewrite Et, Esid.
      reflexivity. }
  destruct (py_index (length (buffer_rewards b)) i) as [k|] eqn:Ek.
  2:{ left. exists IndexError.
      unfold store_row, bind, lift, reads, lookup. rewrite Et, Esid.
      unfold bucket_append. rewrite H1, Ek. reflexivity. }
  right. exists tag, k, ea, sa, o, no, r, d.
  repeat split; try reflexivity.
  - eapply py_index_lt; eauto.
  - exists i. auto.
  - eapply store_row_main; eauto.
Qed.

Lemma aligned_store_row data tags s_i b :
  aligned b -> batch_aligned data tags -> s_i < length tags ->
  aligned (state_of (store_row data tags s_i b)).
Proof.
  intros Ha Hb Hs.
  destruct (store_row_cases data tags s_i b Ha Hb Hs)
    as [[e ->]|(tag & k & ea & sa & o & no & r & d & _ & _ & _ & _ & _ & _
                & _ & _ & _ & ->)].
  - exact Ha.
  - apply aligned_store_extras. now apply aligned_append_transition.
Qed.

Lemma aligned_store data tags b :
  aligned b -> batch_aligned data tags ->
  aligned (state_of (store data tags b)).
Proof.
  intros Ha Hb. unfold store, bind, modify, for_range.
  apply (for_each_state_inv aligned).
  - intros i s Hi Hs. apply aligned_store_row; auto.
    apply in_seq in Hi. lia.
  - exact Ha.
Qed.

Lemma finish_row_state s b :
  exists vals,
    state_of (finish_row s b) =
    set_buffer_episode_reward (buffer_episode_reward b ++ vals) b.
Proof.
  unfold finish_row, bind, reads, lift, reads, modify.
  destruct (lookup (buffer_dones b) s) as [e|ds]; cbn [state_of].
  { exists []. rewrite app_nil_r. now destruct b. }
  destruct (if 1 <? length (np_where ds) then py_get (np_where ds) (-2)
            else inr (-1)%Z) as [e|start_]; cbn [state_of].
  { exists []. rewrite app_nil_r. now destruct b. }
  destruct (py_get (np_where ds) (-1)) as [e|end_]; cbn [state_of].
  { exists []. rewrite app_nil_r. now destruct b. }
  destruct (lookup (buffer_rewards b) s) as [e|rs]; cbn [state_of].
  { exists []. rewrite app_nil_r. now destruct b. }
  eexists [_]. reflexivity.
Qed.

(** Whatever its outcome, [finish_one_episode] only extends the list of
    episode returns. *)
Lemma finish_one_episode_state b :
  exists vals,
    state_of (finish_one_episode b) =
    set_buffer_episode_reward (buffer_episode_reward b ++ vals) b.
Proof.
  unfold finish_one_episode, for_range.
  apply (for_each_state_inv
           (fun b' => exists vals,
              b' = set_buffer_episode_reward (buffer_episode_reward b ++ vals) b)).
  - intros i s _ [vals ->].
    destruct (finish_row_state i
      (set_buffer_episode_reward (buffer_episode_reward b ++ vals) b))
      as [vals' ->].
    exists (vals ++ vals'). cbn. now rewrite app_assoc.
  - exists []. rewrite app_nil_r. now destruct b.
Qed.

Lemma aligned_run_op (o : Generic.op) b :
  aligned b -> op_aligned o -> aligned (run_op o b).
Proof.
  intros Ha Ho. destruct o; cbn [run_op].
  - now apply aligned_store.
  - exact Ha.
  - destruct (finish_one_episode_state b) as [vals ->]. exact Ha.
  - unfold sample, reads. destruct (sample_pure batch_size g b); exact Ha.
  - unfold sample_init, reads. destruct (sample_init_pure batch_size g b); exact Ha.
  - unfold aligned, reset_buffer. cbn. repeat split; apply lens_repeat.
  - exact Ha.
Qed.

Lemma aligned_init n mode capacity :
  aligned (@init V n mode capacity).
Proof.
  unfold aligned, init. cbn. repeat split; apply lens_repeat.
Qed.

Lemma aligned_run (ops : list Generic.op) b :
  aligned b -> Forall op_aligned ops -> aligned (run ops b).
Proof.
  unfold run. revert b; induction ops as [|o ops IH]; intros b Ha Hf.
  - exact Ha.
  - inversion Hf; subst. cbn [fold_left]. apply IH; [|assumption].
    now apply aligned_run_op.
Qed.

End AlignmentGeneric.

(** ** The alignment invariant of [ReplayBuffer_Perception] *)

Section AlignmentPerception.

Import ReplayBuffer_Perception Perception.

Context {V : Type}.

Implicit Types b : ReplayBuffer_Perception.t V.

Lemma field_ok (col : list (dict (pyval V))) s_i key :
  s_i < length col -> Forall (has_key key) col ->
  exists v, field col s_i key = inr v.
Proof.
  intros Hs Hf. unfold field, rbind, lookup.
  destruct (nth_error col s_i) as [e|] eqn:E;
    [|apply nth_error_None in E; lia].
  rewrite Forall_forall in Hf. specialize (Hf e (nth_error_In _ _ E)).
  unfold has_key, dict_has in Hf.
  destruct (dict_get key e) as [v|]; [eauto|discriminate].
Qed.

Lemma p_bucket_append_ok get set (i : Z) (k : nat) (x : pyval V) col s_i key b :
  py_index (length (get b)) i = Some k ->
  field col s_i key = inr x ->
  bucket_append get set (VInt i) col s_i key b =
  Ok tt (set (app_at k x (get b)) b).
Proof. unfold bucket_append. intros -> ->. reflexivity. Qed.

Lemma p_aligned_append_record b k pr sa o bl l :
  aligned b -> aligned (append_record k pr sa o bl l b).
Proof.
  intros (H1 & H2 & H3 & H4). unfold aligned, append_record. cbn.
  repeat split; now apply lens_app_at.
Qed.

Lemma p_store_row_main ego scen ob infos s_i b i k pr sa o bl l :
  aligned b ->
  field infos s_i "scenario_id" = inr (VInt i) ->
  py_index (length (buffer_loss b)) i = Some k ->
  field ego s_i "od_result" = inr pr ->
  field scen s_i "attack" = inr sa ->
  field ob s_i "img" = inr o ->
  field infos s_i "bbox_label" = inr bl ->
  field infos s_i "iou_loss" = inr l ->
  store_row ego scen ob infos s_i b = Ok tt (append_record k pr sa o bl l b).
Proof.
  intros (H1 & H2 & H3 & H4) Esid Ek E1 E2 E3 E4 E5.
  apply lens_length in H1, H2, H3, H4.
  unfold store_row. unfold bind at 1. unfold lift, reads. rewrite Esid.
  rewrite (bind_ok _ _ _ _ _
    (p_bucket_append_ok buffer_predictions _ i k pr _ s_i _ b
       ltac:(rewrite H2; exact Ek) E1)).
  match goal with |- bind _ _ ?b1 = _ =>
    rewrite (bind_ok _ _ _ _ _
      (p_bucket_append_ok buffer_scenario_actions _ i k sa _ s_i _ b1
         ltac:(cbn; rewrite H3; exact Ek) E2)) end.
  match goal with |- bind _ _ ?b1 = _ =>
    rewrite (bind_ok _ _ _ _ _
      (p_bucket_append_ok buffer_obs _ i k o _ s_i _ b1
         ltac:(cbn; rewrite H4; exact Ek) E3)) end.
  match goal with |- bind _ _ ?b1 = _ =>
    rewrite (bind_ok _ _ _ _ _
      (p_bucket_append_ok buffer_bbox_label _ i k bl _ s_i _ b1
         ltac:(cbn; rewrite H1; exact Ek) E4)) end.
  match goal with |- bucket_append _ _ _ _ _ _ ?b1 = _ =>
    rewrite (p_bucket_append_ok buffer_loss _ i k l _ s_i _ b1
               ltac:(cbn; exact Ek) E5) end.
  reflexivity.
Qed.

(** One iteration of [store] on a well-formed batch either raises before its
    first append or appends to all five buckets of one scenario id. *)
Lemma p_store_row_cases ego scen ob infos s_i b :
  aligned b -> batch_aligned [ego; scen; ob; infos] -> s_i < length infos ->
  (exists e, store_row ego scen ob infos s_i b = Raise e b) \/
  (exists i k pr sa o bl l,
     field infos s_i "scenario_id" = inr (VInt i) /\
     py_index (length (buffer_loss b)) i = Some k /\
     field ego s_i "od_result" = inr pr /\
     field scen s_i "attack" = inr sa /\
     field ob s_i "img" = inr o /\
     field infos s_i "bbox_label" = inr bl /\
     field infos s_i "iou_loss" = inr l /\
     store_row ego scen ob infos s_i b =
     Ok tt (append_record k pr sa o bl l b)).
Proof.
  intros Ha (L1 & L2 & L3 & F1 & F2 & F3 & F4 & F5) Hs.
  pose proof Ha as (H1 & H2 & H3 & H4).
  apply lens_length in H1, H2, H3, H4.
  destruct (field_ok ego s_i "od_result" ltac:(lia) F1) as [pr E1].
  destruct (field_ok scen s_i "attack" ltac:(lia) F2) as [sa E2].
  destruct (field_ok ob s_i "img" ltac:(lia) F3) as [o E3].
  destruct (field_ok infos s_i "bbox_label" Hs F4) as [bl E4].
  destruct (field_ok infos s_i "iou_loss" Hs F5) as [l E5].
  destruct (field infos s_i "scenario_id") as [e|[i|v]] eqn:Esid.
  { left. exists e. unfold store_row, bind, lift, reads. now rewrite Esid. }
  2:{ left. exists TypeError.
      unfold store_row, bind, lift, reads. now rewrite Esid. }
  destruct (py_index (length (buffer_loss b)) i) as [k|] eqn:Ek.
  2:{ left. exists IndexError.
      unfold store_row, bind, lift, reads. rewrite Esid.
      unfold bucket_append. rewrite H2, Ek. reflexivity. }
  right. exists i, k, pr, sa, o, bl, l.
  repeat split; try assumption.
  now apply p_store_row_main with (i := i).
Qed.

Lemma p_aligned_store data_list b :
  aligned b -> batch_aligned data_list ->
  aligned (state_of (store data_list b)).
Proof.
  intros Ha Hb. unfold store.
  destruct data_list as [|ego [|scen [|ob [|infos [|? ?]]]]]; try exact Ha.
  unfold bind, modify, for_range.
  apply (for_each_state_inv aligned); [|exact Ha].
  intros i s Hi Hs. apply in_seq in Hi.
  destruct (p_store_row_cases ego scen ob infos i s Hs Hb ltac:(lia))
    as [[e ->]|(j & k & pr & sa & o & bl & l & _ & _ & _ & _ & _ & _ & _ & ->)].
  - exact Hs.
  - now apply p_aligned_append_record.
Qed.

Lemma p_aligned_at_of_aligned b s : aligned b -> aligned_at b s.
Proof.
  intros (H1 & H2 & H3 & H4). unfold aligned_at. cbv zeta.
  repeat split; now apply lens_nth.
Qed.

Lemma p_aligned_run_op (o : Perception.op) b :
  aligned b -> op_aligned o -> aligned (run_op o b).
Proof.
  intros Ha Ho. destruct o; cbn [run_op].
  - now apply p_aligned_store.
  - exact Ha.
  - exact Ha.
  - unfold sample, reads. destruct (sample_pure batch_size g b); exact Ha.
  - exact Ha.
Qed.

Lemma p_aligned_init n mode capacity :
  aligned (@init V n mode capacity).
Proof.
  unfold aligned, init. cbn. repeat split; apply lens_repeat.
Qed.

Lemma p_aligned_run (ops : list Perception.op) b :
  aligned b -> Forall op_aligned ops -> aligned (run ops b).
Proof.
  unfold run. revert b; induction ops as [|o ops IH]; intros b Ha Hf.
  - exact Ha.
  - inversion Hf; subst. cbn [fold_left]. apply IH; [|assumption].
    now apply p_aligned_run_op.
Qed.

End AlignmentPerception.

Section AlignmentTheorem.

Context {V : Type}.

(** C1.  In both buffer variants every call on aligned input keeps the
    per-field bucket lengths of every scenario id equal, and so does every
    sequence of calls from the freshly constructed buffer: the six fields of
    the generic buffer, the five of the perception buffer. *)
Theorem alignment_invariant :
  (forall (b : ReplayBuffer.t V) (o : Generic.op),
     Generic.aligned b -> Generic.op_aligned o ->
     Generic.aligned (Generic.run_op o b)) /\
  (forall n mode capacity (ops : list Generic.op) (s : nat),
     Forall Generic.op_aligned ops ->
     Generic.aligned_at
       (Generic.run ops (@ReplayBuffer.init V n mode capacity)) s) /\
  (forall (b : ReplayBuffer_Perception.t V) (o : Perception.op),
     Perception.aligned b -> Perception.op_aligned o ->
     Perception.aligned (Perception.run_op o b)) /\
  (forall n mode capacity (ops : list Perception.op) (s : nat),
     Forall Perception.op_aligned ops ->
     Perception.aligned_at
       (Perception.run ops (@ReplayBuffer_Perception.init V n mode capacity)) s).
Proof.
  split; [|split; [|split]].
  - intros b o. apply aligned_run_op.
  - intros n mode capacity ops s H. apply aligned_at_of_aligned.
    apply aligned_run; [apply aligned_init|assumption].
  - intros b o. apply p_aligned_run_op.
  - intros n mode capacity ops s H. apply p_aligned_at_of_aligned.
    apply p_aligned_run; [apply p_aligned_init|assumption].
Qed.

End AlignmentTheorem.

(** ** Pools, draws and rows *)

Section PoolFacts.

Context {A : Type}.

Lemma map_nth_seq {B} (f : list A -> B) (l : list (list A)) :
  map (fun s => f (nth s l [])) (seq 0 (length l)) = map f l.
Proof.
  induction l as [|x l IH]; [reflexivity|].
  cbn [length seq map nth]. rewrite <- seq_shift, map_map. cbn [nth].
  now rewrite IH.
Qed.

Lemma take_ok (l : list A) (idx : list nat) :
  Forall (fun i => i < length l) idx ->
  exists rows, take l idx = inr rows /\ Spec.rows_at l idx rows /\
               length rows = length idx.
Proof.
  unfold Spec.rows_at.
  induction idx as [|i idx IH]; intros H.
  - exists []. repeat split.
  - inversion H as [|? ? Hi Hidx]; subst.
    destruct (IH Hidx) as (rows & E & R & L).
    destruct (nth_error l i) as [x|] eqn:N;
      [|apply nth_error_None in N; lia].
    exists (x :: rows). cbn [take]. rewrite N, E. cbn.
    rewrite R, L, N. repeat split.
Qed.

Lemma take_raises (l : list A) (idx : list nat) :
  ~ Forall (fun i => i < length l) idx -> take l idx = inl IndexError.
Proof.
  induction idx as [|i idx IH]; intros H.
  - exfalso. apply H. constructor.
  - cbn [take]. destruct (nth_error l i) as [x|] eqn:N; [|reflexivity].
    rewrite IH; [reflexivity|]. intros Hf. apply H. constructor; [|assumption].
    apply nth_error_Some. now rewrite N.
Qed.

Lemma take_inr (l : list A) (idx : list nat) rows :
  take l idx = inr rows ->
  Forall (fun i => i < length l) idx /\ Spec.rows_at l idx rows /\
  length rows = length idx.
Proof.
  intros E.
  destruct (Forall_dec (fun i => i < length l)
              (fun i => lt_dec i (length l)) idx) as [F|F].
  - destruct (take_ok l idx F) as (rows' & E' & R & L).
    rewrite E in E'. injection E' as <-. auto.
  - rewrite (take_raises l idx F) in E. discriminate.
Qed.

Lemma newest_nth_error (w : Z) (l : list A) (i : nat) :
  nth_error (Spec.newest w l) i = nth_error l (length l - Z.to_nat w + i).
Proof. unfold Spec.newest. apply nth_error_skipn. Qed.

Lemma newest_length (w : Z) (l : list A) :
  length (Spec.newest w l) = length l - (length l - Z.to_nat w).
Proof. unfold Spec.newest. apply length_skipn. Qed.

(** The [p]-th pool entry is the entry of the buckets at its provenance. *)
Lemma pool_locate (w : Z) (buckets : list (list A)) (p : nat) :
  nth_error (Spec.pool w buckets) p =
  match Spec.locate w (Generic.lens buckets) p with
  | Some (s, j) => nth_error (nth s buckets []) j
  | None => None
  end.
Proof.
  unfold Spec.pool.
  revert p; induction buckets as [|h t IH]; intros p.
  - cbn. now destruct p.
  - cbn [map concat Generic.lens Spec.locate].
    fold (Generic.lens t).
    destruct (Nat.ltb_spec p (length h - (length h - Z.to_nat w))) as [Hp|Hp].
    + rewrite nth_error_app1 by (rewrite newest_length; exact Hp).
      cbn [nth]. apply newest_nth_error.
    + rewrite nth_error_app2 by (rewrite newest_length; exact Hp).
      rewrite newest_length, IH.
      destruct (Spec.locate w (Generic.lens t)
                  (p - (length h - (length h - Z.to_nat w)))) as [[s j]|];
        reflexivity.
Qed.

Lemma pool_seq (w : Z) (l : list (list A)) (n : nat) :
  length l = n ->
  concat (map (fun s => Spec.newest w (nth s l [])) (seq 0 n)) = Spec.pool w l.
Proof. intros <-. unfold Spec.pool. now rewrite map_nth_seq. Qed.

End PoolFacts.

Lemma pool_length_lens {A B} (w : Z) (l1 : list (list A)) (l2 : list (list B)) :
  Generic.lens l1 = Generic.lens l2 ->
  length (Spec.pool w l1) = length (Spec.pool w l2).
Proof.
  unfold Spec.pool, Generic.lens.
  revert l2; induction l1 as [|h1 t1 IH]; intros [|h2 t2] H;
    try discriminate; [reflexivity|].
  injection H as Hh Ht. cbn [map concat].
  rewrite !length_app, !newest_length, Hh, (IH t2 Ht). reflexivity.
Qed.

(** A located entry is among the newest [w] of its trajectory. *)
Lemma locate_bounds (w : Z) (lens : list nat) (p s j : nat) :
  Spec.locate w lens p = Some (s, j) ->
  s < length lens /\ j < nth s lens 0 /\
  (Z.of_nat (nth s lens 0%nat) - w <= Z.of_nat j)%Z.
Proof.
  revert p s j; induction lens as [|n lens IH]; intros p s j; cbn [Spec.locate].
  - discriminate.
  - destruct (Nat.ltb_spec p (n - (n - Z.to_nat w))) as [Hp|Hp].
    + intros [= <- <-]. cbn [length nth]. lia.
    + destruct (Spec.locate w lens (p - (n - (n - Z.to_nat w))))
        as [[s' j']|] eqn:E; [|discriminate].
      intros [= <- <-]. destruct (IH _ _ _ E) as (H1 & H2 & H3).
      cbn [length nth]. lia.
Qed.

Lemma locate_some (w : Z) (lens : list nat) (p : nat) :
  p < length (Spec.pool w (map (fun n => repeat tt n) lens)) ->
  exists s j, Spec.locate w lens p = Some (s, j).
Proof.
  intros H. apply nth_error_Some in H. rewrite pool_locate in H.
  unfold Generic.lens in H. rewrite map_map in H.
  rewrite (map_ext _ (fun n => n)) in H by (intros; apply repeat_length).
  rewrite map_id in H.
  destruct (Spec.locate w lens p) as [[s j]|]; [eauto|congruence].
Qed.

Lemma randint_ok (high size : nat) (g : rng) :
  high <> 0 ->
  exists idx, randint high size g = inr idx /\ length idx = size /\
              Forall (fun i => i < high) idx.
Proof.
  intros H. unfold randint.
  destruct (Nat.eqb_spec high 0); [contradiction|].
  eexists; split; [reflexivity|]. split.
  - now rewrite length_map, length_seq.
  - apply Forall_forall. intros i Hi. apply in_map_iff in Hi as (k & <- & _).
    now apply Nat.mod_upper_bound.
Qed.

(** Every vector of indices below [high] is a possible draw: repetitions
    included. *)
Lemma randint_any (high : nat) (idx : list nat) :
  high <> 0 -> Forall (fun i => i < high) idx ->
  exists g, randint high (length idx) g = inr idx.
Proof.
  intros H F. exists (fun k => nth k idx 0). unfold randint.
  destruct (Nat.eqb_spec high 0); [contradiction|]. f_equal.
  clear n. induction F as [|i idx Hi F IH]; [reflexivity|].
  cbn [length seq map nth]. rewrite Nat.mod_small by assumption.
  f_equal. rewrite <- seq_shift, map_map. exact IH.
Qed.

(** ** The trajectory sampler of [ReplayBuffer] *)

Section SamplerGeneric.

Import ReplayBuffer Generic.

Context {V : Type}.

Implicit Types b : ReplayBuffer.t V.

Lemma prepare_row_spec W b p s :
  aligned b -> s < length (buffer_rewards b) ->
  prepare_row W b p s =
  inr {| prepared_ego_actions :=
           prepared_ego_actions p ++ Spec.newest W (nth s (buffer_ego_actions b) []);
         prepared_scenario_actions :=
           prepared_scenario_actions p ++
           Spec.newest W (nth s (buffer_scenario_actions b) []);
         prepared_obs := prepared_obs p ++ Spec.newest W (nth s (buffer_obs b) []);
         prepared_next_obs :=
           prepared_next_obs p ++ Spec.newest W (nth s (buffer_next_obs b) []);
         prepared_rewards :=
           prepared_rewards p ++ Spec.newest W (nth s (buffer_rewards b) []);
         prepared_dones :=
           prepared_dones p ++ Spec.newest W (nth s (buffer_dones b) []) |}.
Proof.
  intros Ha Hs. destruct (aligned_at_of_aligned b s Ha) as (A1 & A2 & A3 & A4 & A5).
  destruct Ha as (H1 & H2 & H3 & H4 & H5).
  apply lens_length in H1, H2, H3, H4, H5.
  unfold prepare_row, rbind, lookup.
  rewrite (nth_error_nth' (buffer_rewards b) [] Hs).
  rewrite (nth_error_nth' (buffer_ego_actions b) []) by lia.
  rewrite (nth_error_nth' (buffer_scenario_actions b) []) by lia.
  rewrite (nth_error_nth' (buffer_obs b) []) by lia.
  rewrite (nth_error_nth' (buffer_next_obs b) []) by lia.
  rewrite (nth_error_nth' (buffer_dones b) []) by lia.
  rewrite window_newest.
  rewrite <- A1 at 1. rewrite window_newest.
  rewrite <- A2 at 1. rewrite window_newest.
  rewrite <- A3 at 1. rewrite window_newest.
  rewrite <- A4 at 1. rewrite window_newest.
  rewrite <- A5 at 1. rewrite window_newest.
  reflexivity.
Qed.

Lemma prepare_loop_spec W b l p :
  aligned b -> (forall s, In s l -> s < length (buffer_rewards b)) ->
  prepare_loop W b l p =
  inr {| prepared_ego_actions :=
           prepared_ego_actions p ++
           concat (map (fun s => Spec.newest W (nth s (buffer_ego_actions b) [])) l);
         prepared_scenario_actions :=
           prepared_scenario_actions p ++
           concat (map (fun s => Spec.newest W
                                   (nth s (buffer_scenario_actions b) [])) l);
         prepared_obs :=
           prepared_obs p ++
           concat (map (fun s => Spec.newest W (nth s (buffer_obs b) [])) l);
         prepared_next_obs :=
           prepared_next_obs p ++
           concat (map (fun s => Spec.newest W (nth s (buffer_next_obs b) [])) l);
         prepared_rewards :=
           prepared_rewards p ++
           concat (map (fun s => Spec.newest W (nth s (buffer_rewards b) [])) l);
         prepared_dones :=
           prepared_dones p ++
           concat (map (fun s => Spec.newest W (nth s (buffer_dones b) [])) l) |}.
Proof.
  intros Ha. revert p; induction l as [|s l IH]; intros p Hl.
  - cbn. rewrite !app_nil_r. now destruct p.
  - cbn [prepare_loop]. rewrite prepare_row_spec by (auto; apply Hl; now left).
    unfold rbind. rewrite IH by (intros; apply Hl; now right).
    cbn. now rewrite <- !app_assoc.
Qed.

(** The pooling loop of [sample] computes the pools of the specification. *)
Lemma prepare_ok b :
  wf b -> num_scenario b <> 0 -> prepare b = inr (pools b).
Proof.
  intros [Ha Hn] Hz. unfold prepare.
  destruct (Nat.eqb_spec (num_scenario b) 0); [contradiction|].
  rewrite prepare_loop_spec; auto.
  2:{ intros s Hs. apply in_seq in Hs. lia. }
  destruct Ha as (H1 & H2 & H3 & H4 & H5).
  apply lens_length in H1, H2, H3, H4, H5.
  fold (window_size b).
  cbn [prepared_empty prepared_ego_actions prepared_scenario_actions
       prepared_obs prepared_next_obs prepared_rewards prepared_dones app].
  rewrite !pool_seq by lia. reflexivity.
Qed.

Lemma pool_nonempty_scenarios b :
  wf b -> pool_length b <> 0 -> num_scenario b <> 0.
Proof.
  intros [_ Hn] Hp Hz. apply Hp. unfold pool_length, pools. cbn.
  rewrite Hz in Hn. apply length_zero_iff_nil in Hn. now rewrite Hn.
Qed.

Lemma pools_lengths b :
  aligned b ->
  length (prepared_ego_actions (pools b)) = pool_length b /\
  length (prepared_scenario_actions (pools b)) = pool_length b /\
  length (prepared_obs (pools b)) = pool_length b /\
  length (prepared_next_obs (pools b)) = pool_length b /\
  length (prepared_dones (pools b)) = pool_length b.
Proof.
  intros (H1 & H2 & H3 & H4 & H5). unfold pool_length, pools. cbn.
  repeat split; now apply pool_length_lens.
Qed.

Lemma stack_take_ok {A} (l : list A) (idx : list nat) :
  l <> [] -> Forall (fun i => i < length l) idx ->
  exists rows, stack_take l idx = inr rows /\ Spec.rows_at l idx rows /\
               length rows = length idx.
Proof.
  intros Hl F. destruct l as [|x l]; [contradiction|].
  unfold stack_take. now apply take_ok.
Qed.

(** With a non-empty pool [sample] returns, and each returned field holds
    the rows of its pool at the drawn indices. *)
Lemma sample_pure_ok b batch_size g :
  wf b -> pool_length b <> 0 ->
  exists idx bt,
    randint (pool_length b) batch_size g = inr idx /\
    sample_pure batch_size g b = inr bt /\
    Spec.rows_at (action_pool b) idx (action bt) /\
    Spec.rows_at (prepared_obs (pools b)) idx (state bt) /\
    Spec.rows_at (prepared_next_obs (pools b)) idx (n_state bt) /\
    Spec.rows_at (prepared_rewards (pools b)) idx (reward bt) /\
    Spec.rows_at (prepared_dones (pools b)) idx (done bt) /\
    length (action bt) = batch_size /\ length (state bt) = batch_size /\
    length (n_state bt) = batch_size /\ length (reward bt) = batch_size /\
    length (done bt) = batch_size.
Proof.
  intros Hwf Hp. pose proof (pool_nonempty_scenarios b Hwf Hp) as Hz.
  destruct (pools_lengths b (proj1 Hwf)) as (L1 & L2 & L3 & L4 & L5).
  destruct (randint_ok (pool_length b) batch_size g Hp) as (idx & Er & Li & Fi).
  assert (NE : forall A (l : list A), length l = pool_length b -> l <> [])
    by (intros A l E ->; apply Hp; symmetry; exact E).
  assert (FI : forall A (l : list A), length l = pool_length b ->
                 Forall (fun i => i < length l) idx)
    by (intros A l ->; exact Fi).
  destruct (stack_take_ok (action_pool b) idx) as (ac & E1 & R1 & N1).
  { unfold action_pool. destruct (String.eqb _ _); auto. }
  { unfold action_pool. destruct (String.eqb _ _); auto. }
  destruct (stack_take_ok (prepared_obs (pools b)) idx) as (st & E2 & R2 & N2); auto.
  destruct (stack_take_ok (prepared_next_obs (pools b)) idx)
    as (ns & E3 & R3 & N3); auto.
  destruct (stack_take_ok (prepared_rewards (pools b)) idx)
    as (rw & E4 & R4 & N4); auto.
  destruct (stack_take_ok (prepared_dones (pools b)) idx)
    as (dn & E5 & R5 & N5); auto.
  exists idx, {| action := ac; state := st; n_state := ns; reward := rw; done := dn |}.
  split; [exact Er|]. split.
  - unfold sample_pure. rewrite (prepare_ok b Hwf Hz). unfold rbind at 1.
    fold (pool_length b). rewrite Er. unfold rbind at 1.
    unfold action_pool in E1.
    replace (if (mode b =? "train_agent")%string
             then stack_take (prepared_ego_actions (pools b)) idx
             else stack_take (prepared_scenario_actions (pools b)) idx)
      with (@inr exn _ ac) by (destruct (String.eqb _ _); now rewrite E1).
    unfold rbind. now rewrite E2, E3, E4, E5.
  - cbn. repeat split; auto; congruence.
Qed.

Lemma sample_pure_empty b batch_size g :
  wf b -> pool_length b = 0 ->
  sample_pure batch_size g b = inl ValueError \/
  sample_pure batch_size g b = inl ZeroDivisionError.
Proof.
  intros Hwf Hp. unfold sample_pure.
  destruct (Nat.eq_dec (num_scenario b) 0) as [Hz|Hz].
  - right. unfold prepare. now rewrite Hz.
  - left. rewrite (prepare_ok b Hwf Hz). unfold rbind at 1.
    fold (pool_length b). rewrite Hp. reflexivity.
Qed.

End SamplerGeneric.

(** ** The sampler of [ReplayBuffer_Perception] *)

Section SamplerPerception.

Import ReplayBuffer_Perception Perception.

Context {V : Type}.

Implicit Types b : ReplayBuffer_Perception.t V.

Lemma p_prepare_row_spec W b p s :
  aligned b -> s < length (buffer_loss b) ->
  prepare_row W b p s =
  inr {| prepared_bbox_label :=
           prepared_bbox_label p ++ Spec.newest W (nth s (buffer_bbox_label b) []);
         prepared_predictions :=
           prepared_predictions p ++ Spec.newest W (nth s (buffer_predictions b) []);
         prepared_scenario_actions :=
           prepared_scenario_actions p ++
           Spec.newest W (nth s (buffer_scenario_actions b) []);
         prepared_obs := prepared_obs p ++ Spec.newest W (nth s (buffer_obs b) []);
         prepared_loss := prepared_loss p ++ Spec.newest W (nth s (buffer_loss b) []) |}.
Proof.
  intros Ha Hs. destruct (p_aligned_at_of_aligned b s Ha) as (A1 & A2 & A3 & A4).
  destruct Ha as (H1 & H2 & H3 & H4).
  apply lens_length in H1, H2, H3, H4.
  unfold prepare_row, rbind, lookup.
  rewrite (nth_error_nth' (buffer_loss b) [] Hs).
  rewrite (nth_error_nth' (buffer_bbox_label b) []) by lia.
  rewrite (nth_error_nth' (buffer_predictions b) []) by lia.
  rewrite (nth_error_nth' (buffer_scenario_actions b) []) by lia.
  rewrite (nth_error_nth' (buffer_obs b) []) by lia.
  rewrite window_newest.
  rewrite <- A1 at 1. rewrite window_newest.
  rewrite <- A2 at 1. rewrite window_newest.
  rewrite <- A3 at 1. rewrite window_newest.
  rewrite <- A4 at 1. rewrite window_newest.
  reflexivity.
Qed.

Lemma p_prepare_loop_spec W b l p :
  aligned b -> (forall s, In s l -> s < length (buffer_loss b)) ->
  prepare_loop W b l p =
  inr {| prepared_bbox_label :=
           prepared_bbox_label p ++
           concat (map (fun s => Spec.newest W (nth s (buffer_bbox_label b) [])) l);
         prepared_predictions :=
           prepared_predictions p ++
           concat (map (fun s => Spec.newest W (nth s (buffer_predictions b) [])) l);
         prepared_scenario_actions :=
           prepared_scenario_actions p ++
           concat (map (fun s => Spec.newest W
                                   (nth s (buffer_scenario_actions b) [])) l);
         prepared_obs :=
           prepared_obs p ++
           concat (map (fun s => Spec.newest W (nth s (buffer_obs b) [])) l);
         prepared_loss :=
           prepared_loss p ++
           concat (map (fun s => Spec.newest W (nth s (buffer_loss b) [])) l) |}.
Proof.
  intros Ha. revert p; induction l as [|s l IH]; intros p Hl.
  - cbn. rewrite !app_nil_r. now destruct p.
  - cbn [prepare_loop]. rewrite p_prepare_row_spec by (auto; apply Hl; now left).
    unfold rbind. rewrite IH by (intros; apply Hl; now right).
    cbn. now rewrite <- !app_assoc.
Qed.

Lemma p_prepare_ok b :
  wf b -> num_scenario b <> 0 -> prepare b = inr (pools b).
Proof.
  intros [Ha Hn] Hz. unfold prepare.
  destruct (Nat.eqb_spec (num_scenario b) 0); [contradiction|].
  rewrite p_prepare_loop_spec; auto.
  2:{ intros s Hs. apply in_seq in Hs. lia. }
  destruct Ha as (H1 & H2 & H3 & H4).
  apply lens_length in H1, H2, H3, H4.
  fold (window_size b).
  cbn [prepared_empty prepared_bbox_label prepared_predictions
       prepared_scenario_actions prepared_obs prepared_loss app].
  rewrite !pool_seq by lia. reflexivity.
Qed.

Lemma p_pool_nonempty_scenarios b :
  wf b -> pool_length b <> 0 -> num_scenario b <> 0.
Proof.
  intros [_ Hn] Hp Hz. apply Hp. unfold pool_length, pools. cbn.
  rewrite Hz in Hn. apply length_zero_iff_nil in Hn. now rewrite Hn.
Qed.

Lemma p_sample_pure_ok b batch_size g :
  wf b -> pool_length b <> 0 ->
  exists idx bt,
    randint (pool_length b) batch_size g = inr idx /\
    sample_pure batch_size g b = inr bt /\
    Spec.rows_at (prepared_bbox_label (pools b)) idx (label bt) /\
    Spec.rows_at (prepared_obs (pools b)) idx (image bt) /\
    Spec.rows_at (prepared_loss (pools b)) idx (loss bt) /\
    length (label bt) = batch_size /\ length (image bt) = batch_size /\
    length (loss bt) = batch_size.
Proof.
  intros Hwf Hp. pose proof (p_pool_nonempty_scenarios b Hwf Hp) as Hz.
  destruct Hwf as [Ha Hn]. pose proof Ha as (H1 & H2 & H3 & H4).
  assert (L1 : length (prepared_bbox_label (pools b)) = pool_length b)
    by (unfold pool_length, pools; cbn; now apply pool_length_lens).
  assert (L4 : length (prepared_obs (pools b)) = pool_length b)
    by (unfold pool_length, pools; cbn; now apply pool_length_lens).
  destruct (randint_ok (pool_length b) batch_size g Hp) as (idx & Er & Li & Fi).
  assert (NE : forall A (l : list A), length l = pool_length b -> l <> [])
    by (intros A l E ->; apply Hp; symmetry; exact E).
  assert (FI : forall A (l : list A), length l = pool_length b ->
                 Forall (fun i => i < length l) idx)
    by (intros A l ->; exact Fi).
  destruct (stack_take_ok (prepared_bbox_label (pools b)) idx)
    as (lb & E1 & R1 & N1); auto.
  destruct (stack_take_ok (prepared_obs (pools b)) idx)
    as (im & E2 & R2 & N2); auto.
  destruct (stack_take_ok (prepared_loss (pools b)) idx)
    as (ls & E3 & R3 & N3); auto.
  exists idx, {| label := lb; image := im; loss := ls |}.
  split; [exact Er|]. split.
  - unfold sample_pure. rewrite (p_prepare_ok b (conj Ha Hn) Hz).
    unfold rbind at 1. fold (pool_length b). rewrite Er.
    unfold rbind. now rewrite E1, E2, E3.
  - cbn. repeat split; auto; congruence.
Qed.

End SamplerPerception.

(** ** Windowing and mode switching *)

Section SamplerTheorems.

Context {V : Type}.

Lemma rows_at_fun {A} (l : list A) idx rows1 rows2 :
  Spec.rows_at l idx rows1 -> Spec.rows_at l idx rows2 -> rows1 = rows2.
Proof.
  unfold Spec.rows_at. intros H1 H2. rewrite <- H2 in H1. clear H2.
  revert rows2 H1; induction rows1 as [|x r IH]; intros [|y r2] H;
    try discriminate; [reflexivity|].
  injection H as -> H. f_equal. auto.
Qed.

Lemma lens_nth_length {A} (l : list (list A)) (s : nat) :
  nth s (Generic.lens l) 0 = length (nth s l []).
Proof. unfold Generic.lens. apply (map_nth (@length A) l [] s). Qed.

(** The provenance of a pool position in the generic buffer: one scenario id
    and one trajectory position, among the newest [W], for all six fields. *)
Lemma pool_provenance (b : ReplayBuffer.t V) (p : nat) :
  Generic.wf b -> p < Generic.pool_length b ->
  exists s j,
    Spec.locate (Generic.window_size b)
                (Generic.lens (ReplayBuffer.buffer_rewards b)) p = Some (s, j) /\
    s < ReplayBuffer.num_scenario b /\
    j < length (nth s (ReplayBuffer.buffer_rewards b) []) /\
    (Z.of_nat (length (nth s (ReplayBuffer.buffer_rewards b) []))
     - Generic.window_size b <= Z.of_nat j)%Z /\
    nth_error (ReplayBuffer.prepared_ego_actions (Generic.pools b)) p =
      nth_error (nth s (ReplayBuffer.buffer_ego_actions b) []) j /\
    nth_error (ReplayBuffer.prepared_scenario_actions (Generic.pools b)) p =
      nth_error (nth s (ReplayBuffer.buffer_scenario_actions b) []) j /\
    nth_error (ReplayBuffer.prepared_obs (Generic.pools b)) p =
      nth_error (nth s (ReplayBuffer.buffer_obs b) []) j /\
    nth_error (ReplayBuffer.prepared_next_obs (Generic.pools b)) p =
      nth_error (nth s (ReplayBuffer.buffer_next_obs b) []) j /\
    nth_error (ReplayBuffer.prepared_rewards (Generic.pools b)) p =
      nth_error (nth s (ReplayBuffer.buffer_rewards b) []) j /\
    nth_error (ReplayBuffer.prepared_dones (Generic.pools b)) p =
      nth_error (nth s (ReplayBuffer.buffer_dones b) []) j.
Proof.
  intros [(H1 & H2 & H3 & H4 & H5) Hn] Hp.
  unfold Generic.pool_length, Generic.pools in Hp. cbn in Hp.
  pose proof Hp as Hp'. apply nth_error_Some in Hp'.
  rewrite pool_locate in Hp'.
  destruct (Spec.locate (Generic.window_size b)
              (Generic.lens (ReplayBuffer.buffer_rewards b)) p)
    as [[s j]|] eqn:E; [|congruence].
  exists s, j. destruct (locate_bounds _ _ _ _ _ E) as (B1 & B2 & B3).
  rewrite lens_nth_length in B2, B3.
  unfold Generic.lens in B1. rewrite length_map in B1.
  split; [reflexivity|]. split; [lia|]. split; [exact B2|].
  split; [exact B3|].
  unfold Generic.pools. cbn.
  rewrite !pool_locate, H1, H2, H3, H4, H5, E. repeat split.
Qed.

Lemma p_pool_provenance (b : ReplayBuffer_Perception.t V) (p : nat) :
  Perception.wf b -> p < Perception.pool_length b ->
  exists s j,
    Spec.locate (Perception.window_size b)
      (Generic.lens (ReplayBuffer_Perception.buffer_loss b)) p = Some (s, j) /\
    s < ReplayBuffer_Perception.num_scenario b /\
    j < length (nth s (ReplayBuffer_Perception.buffer_loss b) []) /\
    (Z.of_nat (length (nth s (ReplayBuffer_Perception.buffer_loss b) []))
     - Perception.window_size b <= Z.of_nat j)%Z /\
    nth_error (ReplayBuffer_Perception.prepared_bbox_label (Perception.pools b)) p =
      nth_error (nth s (ReplayBuffer_Perception.buffer_bbox_label b) []) j /\
    nth_error (ReplayBuffer_Perception.prepared_obs (Perception.pools b)) p =
      nth_error (nth s (ReplayBuffer_Perception.buffer_obs b) []) j /\
    nth_error (ReplayBuffer_Perception.prepared_loss (Perception.pools b)) p =
      nth_error (nth s (ReplayBuffer_Perception.buffer_loss b) []) j.
Proof.
  intros [(H1 & H2 & H3 & H4) Hn] Hp.
  unfold Perception.pool_length, Perception.pools in Hp. cbn in Hp.
  pose proof Hp as Hp'. apply nth_error_Some in Hp'.
  rewrite pool_locate in Hp'.
  destruct (Spec.locate (Perception.window_size b)
              (Generic.lens (ReplayBuffer_Perception.buffer_loss b)) p)
    as [[s j]|] eqn:E; [|congruence].
  exists s, j. destruct (locate_bounds _ _ _ _ _ E) as (B1 & B2 & B3).
  rewrite lens_nth_length in B2, B3.
  unfold Generic.lens in B1. rewrite length_map in B1.
  split; [reflexivity|]. split; [lia|]. split; [exact B2|].
  split; [exact B3|].
  unfold Perception.pools. cbn.
  rewrite !pool_locate, H1, H4, E. repeat split.
Qed.

(** C3.  In both variants the pooling loop of [sample] computes, field by
    field, the concatenation over the scenario ids of the newest
    [W = floor(buffer_capacity / num_scenario)] entries of each bucket; the
    returned rows are the pool rows at indices drawn below the pool length
    (any index vector, repetitions included, is a possible draw); and every
    pool position holds a transition that is among the newest [W] of its
    scenario id, so an older one is never returned. *)
Theorem sample_window :
  (forall (b : ReplayBuffer.t V) batch_size g,
     Generic.wf b -> Generic.pool_length b <> 0 ->
     ReplayBuffer.prepare b = inr (Generic.pools b) /\
     (exists idx bt,
        randint (Generic.pool_length b) batch_size g = inr idx /\
        Forall (fun i => i < Generic.pool_length b) idx /\
        ReplayBuffer.sample batch_size g b = Ok bt b /\
        Spec.rows_at (Generic.action_pool b) idx (ReplayBuffer.action bt) /\
        Spec.rows_at (ReplayBuffer.prepared_obs (Generic.pools b)) idx
                     (ReplayBuffer.state bt) /\
        Spec.rows_at (ReplayBuffer.prepared_next_obs (Generic.pools b)) idx
                     (ReplayBuffer.n_state bt) /\
        Spec.rows_at (ReplayBuffer.prepared_rewards (Generic.pools b)) idx
                     (ReplayBuffer.reward bt) /\
        Spec.rows_at (ReplayBuffer.prepared_dones (Generic.pools b)) idx
                     (ReplayBuffer.done bt)) /\
     (forall idx, Forall (fun i => i < Generic.pool_length b) idx ->
        exists g', randint (Generic.pool_length b) (length idx) g' = inr idx) /\
     (forall p, p < Generic.pool_length b ->
        exists s j,
          s < ReplayBuffer.num_scenario b /\
          j < length (nth s (ReplayBuffer.buffer_rewards b) []) /\
          (Z.of_nat (length (nth s (ReplayBuffer.buffer_rewards b) []))
           - Generic.window_size b <= Z.of_nat j)%Z /\
          nth_error (ReplayBuffer.prepared_ego_actions (Generic.pools b)) p =
            nth_error (nth s (ReplayBuffer.buffer_ego_actions b) []) j /\
          nth_error (ReplayBuffer.prepared_scenario_actions (Generic.pools b)) p =
            nth_error (nth s (ReplayBuffer.buffer_scenario_actions b) []) j /\
          nth_error (ReplayBuffer.prepared_obs (Generic.pools b)) p =
            nth_error (nth s (ReplayBuffer.buffer_obs b) []) j /\
          nth_error (ReplayBuffer.prepared_next_obs (Generic.pools b)) p =
            nth_error (nth s (ReplayBuffer.buffer_next_obs b) []) j /\
          nth_error (ReplayBuffer.prepared_rewards (Generic.pools b)) p =
            nth_error (nth s (ReplayBuffer.buffer_rewards b) []) j /\
          nth_error (ReplayBuffer.prepared_dones (Generic.pools b)) p =
            nth_error (nth s (ReplayBuffer.buffer_dones b) []) j)) /\
  (forall (b : ReplayBuffer_Perception.t V) batch_size g,
     Perception.wf b -> Perception.pool_length b <> 0 ->
     ReplayBuffer_Perception.prepare b = inr (Perception.pools b) /\
     (exists idx bt,
        randint (Perception.pool_length b) batch_size g = inr idx /\
        Forall (fun i => i < Perception.pool_length b) idx /\
        ReplayBuffer_Perception.sample batch_size g b = Ok bt b /\
        Spec.rows_at (ReplayBuffer_Perception.prepared_bbox_label (Perception.pools b))
                     idx (ReplayBuffer_Perception.label bt) /\
        Spec.rows_at (ReplayBuffer_Perception.prepared_obs (Perception.pools b))
                     idx (ReplayBuffer_Perception.image bt) /\
        Spec.rows_at (ReplayBuffer_Perception.prepared_loss (Perception.pools b))
                     idx (ReplayBuffer_Perception.loss bt)) /\
     (forall idx, Forall (fun i => i < Perception.pool_length b) idx ->
        exists g', randint (Perception.pool_length b) (length idx) g' = inr idx) /\
     (forall p, p < Perception.pool_length b ->
        exists s j,
          s < ReplayBuffer_Perception.num_scenario b /\
          j < length (nth s (ReplayBuffer_Perception.buffer_loss b) []) /\
          (Z.of_nat (length (nth s (ReplayBuffer_Perception.buffer_loss b) []))
           - Perception.window_size b <= Z.of_nat j)%Z /\
          nth_error (ReplayBuffer_Perception.prepared_bbox_label (Perception.pools b)) p =
            nth_error (nth s (ReplayBuffer_Perception.buffer_bbox_label b) []) j /\
          nth_error (ReplayBuffer_Perception.prepared_obs (Perception.pools b)) p =
            nth_error (nth s (ReplayBuffer_Perception.buffer_obs b) []) j /\
          nth_error (ReplayBuffer_Perception.prepared_loss (Perception.pools b)) p =
            nth_error (nth s (ReplayBuffer_Perception.buffer_loss b) []) j)).
Proof.
  split.
  - intros b batch_size g Hwf Hp.
    split; [apply prepare_ok; auto; now apply pool_nonempty_scenarios|].
    split; [|split].
    + destruct (sample_pure_ok b batch_size g Hwf Hp)
        as (idx & bt & Er & Es & R1 & R2 & R3 & R4 & R5 & _).
      exists idx, bt. repeat split; auto.
      * destruct (randint_ok (Generic.pool_length b) batch_size g Hp)
          as (idx' & Er' & _ & F). congruence.
      * unfold ReplayBuffer.sample, reads. now rewrite Es.
    + intros idx F. now apply randint_any.
    + intros p Hlt.
      destruct (pool_provenance b p Hwf Hlt)
        as (s & j & _ & B1 & B2 & B3 & P1 & P2 & P3 & P4 & P5 & P6).
      exists s, j. repeat split; assumption.
  - intros b batch_size g Hwf Hp.
    split; [apply p_prepare_ok; auto; now apply p_pool_nonempty_scenarios|].
    split; [|split].
    + destruct (p_sample_pure_ok b batch_size g Hwf Hp)
        as (idx & bt & Er & Es & R1 & R2 & R3 & _).
      exists idx, bt. repeat split; auto.
      * destruct (randint_ok (Perception.pool_length b) batch_size g Hp)
          as (idx' & Er' & _ & F). congruence.
      * unfold ReplayBuffer_Perception.sample, reads. now rewrite Es.
    + intros idx F. now apply randint_any.
    + intros p Hlt.
      destruct (p_pool_provenance b p Hwf Hlt)
        as (s & j & _ & B1 & B2 & B3 & P1 & P2 & P3).
      exists s, j. repeat split; assumption.
Qed.

Lemma wf_set_mode (b : ReplayBuffer.t V) m :
  Generic.wf b -> Generic.wf (Generic.set_mode m b).
Proof. intros H. exact H. Qed.

(** C6.  With a non-empty pool [sample] returns [batch_size] rows per field;
    [action] holds rows of the [ego_action] pool under mode ['train_agent']
    and rows of the [scenario_action] pool under any other mode; and two
    buffers that differ in the mode only return, for the same draws, the same
    [state], [n_state], [reward] and [done]. *)
Theorem sample_mode (b : ReplayBuffer.t V) (batch_size : nat) (g : rng) :
  Generic.wf b -> Generic.pool_length b <> 0 ->
  (exists idx bt,
     randint (Generic.pool_length b) batch_size g = inr idx /\
     ReplayBuffer.sample batch_size g b = Ok bt b /\
     length (ReplayBuffer.action bt) = batch_size /\
     length (ReplayBuffer.state bt) = batch_size /\
     length (ReplayBuffer.n_state bt) = batch_size /\
     length (ReplayBuffer.reward bt) = batch_size /\
     length (ReplayBuffer.done bt) = batch_size /\
     (ReplayBuffer.mode b = "train_agent"%string ->
      Spec.rows_at (ReplayBuffer.prepared_ego_actions (Generic.pools b)) idx
                   (ReplayBuffer.action bt)) /\
     (ReplayBuffer.mode b <> "train_agent"%string ->
      Spec.rows_at (ReplayBuffer.prepared_scenario_actions (Generic.pools b)) idx
                   (ReplayBuffer.action bt))) /\
  (forall m1 m2,
     exists bt1 bt2,
       ReplayBuffer.sample batch_size g (Generic.set_mode m1 b) =
         Ok bt1 (Generic.set_mode m1 b) /\
       ReplayBuffer.sample batch_size g (Generic.set_mode m2 b) =
         Ok bt2 (Generic.set_mode m2 b) /\
       ReplayBuffer.state bt1 = ReplayBuffer.state bt2 /\
       ReplayBuffer.n_state bt1 = ReplayBuffer.n_state bt2 /\
       ReplayBuffer.reward bt1 = ReplayBuffer.reward bt2 /\
       ReplayBuffer.done bt1 = ReplayBuffer.done bt2).
Proof.
  intros Hwf Hp. split.
  - destruct (sample_pure_ok b batch_size g Hwf Hp)
      as (idx & bt & Er & Es & R1 & R2 & R3 & R4 & R5 & N1 & N2 & N3 & N4 & N5).
    exists idx, bt. repeat split; auto.
    + unfold ReplayBuffer.sample, reads. now rewrite Es.
    + intros Hm. unfold Generic.action_pool in R1. rewrite Hm in R1. exact R1.
    + intros Hm. unfold Generic.action_pool in R1.
      apply String.eqb_neq in Hm. rewrite Hm in R1. exact R1.
  - intros m1 m2.
    destruct (sample_pure_ok (Generic.set_mode m1 b) batch_size g
                (wf_set_mode b m1 Hwf) Hp)
      as (idx1 & bt1 & Er1 & Es1 & _ & S1 & S2 & S3 & S4 & _).
    destruct (sample_pure_ok (Generic.set_mode m2 b) batch_size g
                (wf_set_mode b m2 Hwf) Hp)
      as (idx2 & bt2 & Er2 & Es2 & _ & T1 & T2 & T3 & T4 & _).
    change (Generic.pool_length (Generic.set_mode m1 b))
      with (Generic.pool_length b) in Er1.
    change (Generic.pool_length (Generic.set_mode m2 b))
      with (Generic.pool_length b) in Er2.
    assert (idx2 = idx1) as -> by congruence.
    exists bt1, bt2. unfold ReplayBuffer.sample, reads. rewrite Es1, Es2.
    repeat split.
    + exact (rows_at_fun _ _ _ _ S1 T1).
    + exact (rows_at_fun _ _ _ _ S2 T2).
    + exact (rows_at_fun _ _ _ _ S3 T3).
    + exact (rows_at_fun _ _ _ _ S4 T4).
Qed.

End SamplerTheorems.

(** ** The init-condition sampler *)

Section InitSampler.

Import ReplayBuffer Generic.

Context {V : Type}.

Implicit Types b : ReplayBuffer.t V.

Lemma init_window_slice b :
  slice_from (init_window_start b) (buffer_init_action b) = init_window b.
Proof. unfold init_window_start, init_window. apply window_newest. Qed.

Lemma cat_take_cases {A} (l : list (list A)) (idx : list nat) :
  (l <> [] /\ Forall (fun i => i < length (concat l)) idx /\
   exists x, cat_take l idx = inr x) \/
  (~ (l <> [] /\ Forall (fun i => i < length (concat l)) idx) /\
   exists e, cat_take l idx = inl e /\ e <> ValueError).
Proof.
  destruct l as [|h t].
  - right. split; [intros [H _]; now apply H|].
    exists RuntimeError. split; [reflexivity|discriminate].
  - unfold cat_take.
    destruct (Forall_dec (fun i => i < length (concat (h :: t)))
                (fun i => lt_dec i (length (concat (h :: t)))) idx) as [F|F].
    + left. split; [discriminate|]. split; [exact F|].
      destruct (take_ok _ _ F) as (x & E & _). eauto.
    + right. split; [intros [_ H]; contradiction|].
      exists IndexError. split; [now apply take_raises|discriminate].
Qed.

Lemma sample_init_extras_cases start idx (cols : dict (list (list V))) :
  let ready :=
    Forall (fun kc => slice_from start (snd kc) <> [] /\
                      Forall (fun i => i < length (concat
                                (slice_from start (snd kc)))) idx) cols in
  (ready /\ exists x, sample_init_extras start idx cols = inr x) \/
  (~ ready /\ exists e, sample_init_extras start idx cols = inl e /\
                        e <> ValueError).
Proof.
  cbv zeta. induction cols as [|[key col] cols IH].
  - left. split; [constructor|]. cbn. eauto.
  - cbn [sample_init_extras]. unfold rbind.
    destruct (cat_take_cases (slice_from start col) idx)
      as [(H1 & H2 & x & ->)|(Hn & e & -> & He)].
    + destruct IH as [(Hr & rest & ->)|(Hr & e & -> & He)].
      * left. split; [constructor; auto|]. eauto.
      * right. split; [|eauto]. intros H. inversion H; subst. contradiction.
    + right. split; [|eauto]. intros H. inversion H; subst. contradiction.
Qed.

Lemma sample_init_pure_empty b batch_size g :
  init_window b = [] -> sample_init_pure batch_size g b = inl ValueError.
Proof.
  intros H. unfold sample_init_pure. fold (init_window_start b).
  rewrite init_window_slice, H. reflexivity.
Qed.

(** With a non-empty window [sample_init] returns exactly when every drawn
    index has a row, a return and a row of every extra column behind it; it
    then returns the rows and the windowed returns at the drawn indices. *)
Lemma sample_init_pure_cases b batch_size g :
  init_window b <> [] ->
  exists idx,
    randint (length (init_window b)) batch_size g = inr idx /\
    ((init_ready b idx /\
      exists bt, sample_init_pure batch_size g b = inr bt /\
                 Spec.rows_at (concat (init_window b)) idx (init_action bt) /\
                 Spec.rows_at (reward_window b) idx (episode_reward bt)) \/
     (~ init_ready b idx /\
      exists e, sample_init_pure batch_size g b = inl e /\ e <> ValueError)).
Proof.
  intros Hw.
  assert (Hlen : length (init_window b) <> 0)
    by (intros E; apply length_zero_iff_nil in E; contradiction).
  destruct (randint_ok (length (init_window b)) batch_size g Hlen)
    as (idx & Er & _ & _).
  exists idx. split; [exact Er|].
  assert (Hpure : sample_init_pure batch_size g b =
            (ia <~ take (concat (init_window b)) idx ;;
             er <~ take (reward_window b) idx ;;
             extra <~ sample_init_extras (init_window_start b) idx
                        (buffer_init_additional_dict b) ;;
             inr {| init_action := ia; episode_reward := er;
                    init_extra := extra |})).
  { unfold sample_init_pure. fold (init_window_start b).
    rewrite init_window_slice, Er. unfold rbind at 1.
    unfold concatenate_take.
    destruct (init_window b); [contradiction|reflexivity]. }
  rewrite Hpure. clear Hpure. unfold init_ready.
  destruct (Forall_dec (fun i => i < length (concat (init_window b)))
              (fun i => lt_dec i (length (concat (init_window b)))) idx)
    as [F1|F1].
  2:{ right. split; [intros (H & _); contradiction|].
      rewrite (take_raises _ _ F1). exists IndexError.
      split; [reflexivity|discriminate]. }
  destruct (take_ok _ _ F1) as (ia & E1 & R1 & _). rewrite E1. cbn [rbind].
  destruct (Forall_dec (fun i => i < length (reward_window b))
              (fun i => lt_dec i (length (reward_window b))) idx) as [F2|F2].
  2:{ right. split; [intros (_ & H & _); contradiction|].
      rewrite (take_raises _ _ F2). exists IndexError.
      split; [reflexivity|discriminate]. }
  destruct (take_ok _ _ F2) as (er & E2 & R2 & _). rewrite E2. cbn [rbind].
  destruct (sample_init_extras_cases (init_window_start b) idx
              (buffer_init_additional_dict b))
    as [(F3 & x & ->)|(F3 & e & -> & He)].
  - left. split; [auto|]. eexists. split; [reflexivity|]. cbn. auto.
  - right. split; [intros (_ & _ & H); contradiction|].
    exists e. split; [reflexivity|exact He].
Qed.

Lemma init_window_nil b :
  (1 <= buffer_capacity b)%Z ->
  (init_window b = [] <-> buffer_init_action b = []).
Proof.
  intros Hc. unfold init_window, Spec.newest. split.
  - intros H. apply (f_equal (@length _)) in H.
    rewrite length_skipn in H. cbn in H.
    apply length_zero_iff_nil. lia.
  - intros ->. reflexivity.
Qed.

End InitSampler.

Section FailureTheorems.

Import ReplayBuffer Generic.

Context {V : Type}.

Implicit Types b : ReplayBuffer.t V.

(** C8, as amended.  [sample] fails exactly when the pooled length is zero.
    [sample_init] raises the empty-range error exactly when its window of
    [store_init] batches is empty, which for a capacity of at least one
    means that no [store_init] call has been recorded; with a non-empty
    window it fails exactly when some drawn index has no [init_action] row,
    no episode return or no row of a registered extra column behind it. *)
Theorem sample_failures :
  (forall b batch_size g,
     wf b -> (fails (sample batch_size g b) <-> pool_length b = 0)) /\
  (forall b batch_size g,
     sample_init batch_size g b = Raise ValueError b <-> init_window b = []) /\
  (forall b,
     (1 <= buffer_capacity b)%Z ->
     (init_window b = [] <-> buffer_init_action b = [])) /\
  (forall b batch_size g,
     init_window b <> [] ->
     exists idx,
       randint (length (init_window b)) batch_size g = inr idx /\
       (fails (sample_init batch_size g b) <-> ~ init_ready b idx)).
Proof.
  split; [|split; [|split]].
  - intros b batch_size g Hwf. unfold sample, reads, fails. split.
    + intros (e & s & H).
      destruct (Nat.eq_dec (pool_length b) 0) as [Hz|Hz]; [exact Hz|].
      destruct (sample_pure_ok b batch_size g Hwf Hz) as (idx & bt & _ & E & _).
      rewrite E in H. discriminate.
    + intros Hz.
      destruct (sample_pure_empty b batch_size g Hwf Hz) as [-> | ->]; eauto.
  - intros b batch_size g. unfold sample_init, reads. split.
    + intros H. destruct (init_window b) as [|h t] eqn:E; [reflexivity|].
      assert (E' : init_window b <> []) by (rewrite E; discriminate).
      destruct (sample_init_pure_cases b batch_size g E')
        as (idx & _ & [(_ & bt & Eb & _)|(_ & e & Ee & He)]).
      * rewrite Eb in H. discriminate.
      * rewrite Ee in H. congruence.
    + intros H. now rewrite sample_init_pure_empty.
  - apply init_window_nil.
  - intros b batch_size g Hw.
    destruct (sample_init_pure_cases b batch_size g Hw)
      as (idx & Er & [(Hr & bt & Eb & _)|(Hr & e & Ee & He)]);
      exists idx; (split; [exact Er|]); unfold sample_init, reads, fails.
    + rewrite Eb. split; [intros (e & s & H); discriminate|contradiction].
    + rewrite Ee. split; [auto|eauto].
Qed.

End FailureTheorems.

(** ** What a failing call leaves behind *)

Section MonadFacts.

Context {S : Type}.

Lemma bind_state_inv {A B} (P : S -> Prop) (m : M S A) (k : A -> M S B) s :
  P (state_of (m s)) ->
  (forall a s', P s' -> P (state_of (k a s'))) ->
  P (state_of (bind m k s)).
Proof.
  intros Hm Hk. unfold bind. destruct (m s) as [a s'|e s']; cbn in *; auto.
Qed.

Lemma reads_state {A} (f : S -> res A) s : state_of (reads f s) = s.
Proof. unfold reads. now destruct (f s). Qed.


Lemma bind_fails_now {A B} (m : M S A) (k : A -> M S B) s :
  fails (m s) -> fails (bind m k s).
Proof. intros (e & s' & H). unfold bind. rewrite H. exists e, s'. reflexivity. Qed.

Lemma bind_fails_later {A B} (m : M S A) (k : A -> M S B) s :
  (forall a s', fails (k a s')) -> fails (bind m k s).
Proof.
  intros H. unfold bind. destruct (m s) as [a s'|e s']; [apply H|].
  exists e, s'. reflexivity.
Qed.

(** A loop one of whose iterations raises whatever the state is raises. *)
Lemma for_each_fails_at (l : list nat) (body : nat -> M S unit) (k : nat) s :
  In k l -> (forall s', fails (body k s')) -> fails (for_each l body s).
Proof.
  revert s; induction l as [|i l IH]; intros s Hin Hk; [destruct Hin|].
  cbn [for_each]. destruct Hin as [->|Hin].
  - apply bind_fails_now. apply Hk.
  - apply bind_fails_later. intros _ s'. now apply IH.
Qed.

End MonadFacts.


Section ListUpdateFacts.

Context {A : Type}.

Lemma length_set_at (k : nat) (x : A) (l : list A) :
  length (set_at k x l) = length l.
Proof. revert k; induction l as [|h t IH]; intros [|k]; simpl; auto. Qed.

Lemma nth_error_set_at_same (k : nat) (x : A) (l : list A) :
  k < length l -> nth_error (set_at k x l) k = Some x.
Proof.
  revert k; induction l as [|h t IH]; intros [|k] H; simpl in *; try lia; auto.
  apply IH. lia.
Qed.

Lemma nth_error_set_at_other (k s : nat) (x : A) (l : list A) :
  s <> k -> nth_error (set_at k x l) s = nth_error l s.
Proof.
  revert k s; induction l as [|h t IH]; intros [|k] [|s] H; simpl; auto;
    congruence.
Qed.

Lemma set_at_set_at (k : nat) (x y : A) (l : list A) :
  set_at k y (set_at k x l) = set_at k y l.
Proof.
  revert k; induction l as [|h t IH]; intros [|k]; simpl; auto. now rewrite IH.
Qed.

Lemma set_at_same (k : nat) (x : A) (l : list A) :
  nth_error l k = Some x -> set_at k x l = l.
Proof.
  revert k; induction l as [|h t IH]; intros [|k] H; simpl in *;
    try discriminate.
  - now injection H as ->.
  - now rewrite IH.
Qed.

Lemma nth_error_app_at_same (k : nat) (x : A) (l : list (list A)) c :
  nth_error l k = Some c -> nth_error (app_at k x l) k = Some (c ++ [x]).
Proof.
  revert k; induction l as [|h t IH]; intros [|k] H; simpl in *;
    try discriminate; auto.
  now injection H as ->.
Qed.

Lemma nth_error_app_at_other (k s : nat) (x : A) (l : list (list A)) :
  s <> k -> nth_error (app_at k x l) s = nth_error l s.
Proof.
  revert k s; induction l as [|h t IH]; intros [|k] [|s] H; simpl; auto;
    congruence.
Qed.

End ListUpdateFacts.

Section StoreFacts.

Import ReplayBuffer Generic.

Context {V : Type}.

Implicit Types b : ReplayBuffer.t V.

(** The key loop of [store] at a position that has an extra dictionary. *)
Lemma store_extras_ok s_i items b d :
  nth_error (buffer_additional_dict b) s_i = Some d ->
  store_extras s_i items b =
  Ok tt (set_buffer_additional_dict
           (set_at s_i (register_all items d) (buffer_additional_dict b)) b).
Proof.
  revert b d; induction items as [|[key v] items IH]; intros b d Hd.
  - cbn. unfold ret. rewrite (set_at_same _ _ _ Hd). now destruct b.
  - cbn [store_extras register_all].
    destruct (String.eqb key "scenario_id"); [now apply IH|].
    unfold bind, extra_append. rewrite Hd.
    erewrite IH.
    2:{ cbn. apply nth_error_set_at_same. apply nth_error_Some. now rewrite Hd. }
    cbn. now rewrite set_at_set_at.
Qed.


Lemma same_frame_refl b : same_frame b b.
Proof. unfold same_frame. repeat split. Qed.

Lemma same_frame_trans b1 b2 b3 :
  same_frame b1 b2 -> same_frame b2 b3 -> same_frame b1 b3.
Proof.
  unfold same_frame.
  intros (A1 & A2 & A3 & A4 & A5 & A6 & A7 & A8 & A9)
         (B1 & B2 & B3 & B4 & B5 & B6 & B7 & B8 & B9).
  repeat split; congruence.
Qed.

Lemma bucket_append_frame {A} (get : ReplayBuffer.t V -> list (list A)) set
    sid col s_i b0 b :
  (forall x b1, same_frame b1 (set x b1)) ->
  same_frame b0 b ->
  same_frame b0 (state_of (bucket_append get set sid col s_i b)).
Proof.
  intros Hset H. unfold bucket_append.
  destruct sid as [i|v]; [|exact H].
  destruct (py_index (length (get b)) i); [|exact H].
  destruct (nth_error col s_i); [|exact H].
  cbn. eapply same_frame_trans; [exact H|apply Hset].
Qed.

Lemma store_extras_frame s_i items b0 b :
  same_frame b0 b -> same_frame b0 (state_of (store_extras s_i items b)).
Proof.
  revert b; induction items as [|[key v] items IH]; intros b H.
  - exact H.
  - cbn [store_extras]. destruct (String.eqb key "scenario_id"); [now apply IH|].
    apply bind_state_inv.
    + unfold extra_append.
      destruct (nth_error (buffer_additional_dict b) s_i); [|exact H].
      cbn. eapply same_frame_trans; [exact H|]. unfold same_frame. cbn.
      repeat split.
    + intros _ s' H'. now apply IH.
Qed.

Lemma store_row_frame data tags s_i b0 b :
  same_frame b0 b -> same_frame b0 (state_of (store_row data tags s_i b)).
Proof.
  intros H. unfold store_row.
  apply bind_state_inv; [unfold lift; now rewrite reads_state|].
  intros tag s1 H1.
  apply bind_state_inv; [unfold lift; now rewrite reads_state|].
  intros sid s2 H2.
  repeat (apply bind_state_inv;
          [apply bucket_append_frame;
           [intros x b1; unfold same_frame; cbn; repeat split|assumption]
          |intros _ ? ?]).
  now apply store_extras_frame.
Qed.

Lemma store_frame data tags b :
  same_frame
    (set_buffer_len (buffer_len b + Z.of_nat (length (rewards data)))%Z b)
    (state_of (store data tags b)).
Proof.
  unfold store, bind, modify, for_range.
  apply (for_each_state_inv (same_frame _)).
  - intros i s _ H. now apply store_row_frame.
  - apply same_frame_refl.
Qed.




Lemma finish_row_inv s b b1 :
  finish_row s b = Ok tt b1 ->
  exists v,
    Spec.episode_return (nth s (buffer_rewards b) [])
                        (nth s (buffer_dones b) []) = Some v /\
    b1 = set_buffer_episode_reward (buffer_episode_reward b ++ [v]) b.
Proof.
  intros H.
  destruct (nth_error (buffer_dones b) s) as [ds|] eqn:Ed.
  2:{ unfold finish_row, bind, reads, lookup in H. rewrite Ed in H.
      discriminate. }
  destruct (in_dec Bool.bool_dec true ds) as [Ht|Hf].
  2:{ rewrite (finish_row_no_done b s ds Ed Hf) in H. discriminate. }
  destruct (nth_error (buffer_rewards b) s) as [rs|] eqn:Er.
  2:{ unfold finish_row, bind, reads, lift, reads, lookup, modify in H.
      rewrite Ed in H. cbv beta iota in H.
      destruct (if 1 <? length (np_where ds) then py_get (np_where ds) (-2)
                else inr (-1)%Z); [discriminate|].
      destruct (py_get (np_where ds) (-1)); [discriminate|].
      rewrite Er in H. discriminate. }
  destruct (episode_return_some rs ds Ht) as [v Hv].
  rewrite (finish_row_ok b s ds rs v Ed Er Hv) in H. injection H as <-.
  exists v. split; [|reflexivity].
  now rewrite (nth_error_nth _ _ _ Ed), (nth_error_nth _ _ _ Er).
Qed.

Lemma finish_loop_inv l b bmid :
  for_each l finish_row b = Ok tt bmid ->
  exists vals,
    returns_of b l vals /\
    bmid = set_buffer_episode_reward (buffer_episode_reward b ++ vals) b.
Proof.
  revert b; induction l as [|s l IH]; intros b H.
  - cbn in H. injection H as <-. exists []. split; [constructor|].
    rewrite app_nil_r. now destruct b.
  - cbn [for_each] in H. unfold bind in H.
    destruct (finish_row s b) as [[] b1|e b1] eqn:E; [|discriminate].
    apply finish_row_inv in E as (v & Hv & ->).
    apply IH in H as (vals & Hvals & ->).
    exists (v :: vals). split.
    + constructor; assumption.
    + cbn. now rewrite <- app_assoc.
Qed.

End StoreFacts.

Section AtomicityTheorem.

Import ReplayBuffer Generic.

Context {V : Type}.

Implicit Types b : ReplayBuffer.t V.


End AtomicityTheorem.

(** ** When [store] raises *)

Lemma for_each_ok {S} (P : S -> Prop) (l : list nat) (body : nat -> M S unit) :
  (forall i s, In i l -> P s -> exists s', body i s = Ok tt s' /\ P s') ->
  forall s, P s -> exists s', for_each l body s = Ok tt s' /\ P s'.
Proof.
  induction l as [|i l IH]; intros Hbody s Hs.
  - exists s. split; [reflexivity|assumption].
  - destruct (Hbody i s (or_introl eq_refl) Hs) as (s1 & E1 & P1).
    destruct (IH (fun j s' Hj => Hbody j s' (or_intror Hj)) s1 P1)
      as (s2 & E2 & P2).
    exists s2. split; [|assumption].
    cbn [for_each]. now rewrite (bind_ok _ _ _ _ _ E1).
Qed.

Section StoreShape.

Import ReplayBuffer Generic.

Context {V : Type}.

Implicit Types b : ReplayBuffer.t V.

Lemma bucket_append_short {A} (get : ReplayBuffer.t V -> list (list A)) set
    sid col s_i b :
  nth_error col s_i = None -> fails (bucket_append get set sid col s_i b).
Proof.
  intros H. unfold bucket_append, fails.
  destruct sid as [i|v]; [|eauto].
  destruct (py_index (length (get b)) i); [|eauto].
  rewrite H. eauto.
Qed.

(** The iteration at a position some field does not reach raises. *)
Lemma store_row_short data tags s_i b :
  short_field data (S s_i) -> fails (store_row data tags s_i b).
Proof.
  intros H. unfold store_row.
  apply bind_fails_later. intros tag s1.
  apply bind_fails_later. intros sid s2.
  destruct H as [H|[H|[H|[H|[H|H]]]]];
    assert (N := proj2 (nth_error_None _ s_i) (proj1 (Nat.lt_succ_r _ _) H)).
  - apply bind_fails_now. now apply bucket_append_short.
  - apply bind_fails_later. intros _ s3.
    apply bind_fails_now. now apply bucket_append_short.
  - do 2 (apply bind_fails_later; intros _ ?).
    apply bind_fails_now. now apply bucket_append_short.
  - do 3 (apply bind_fails_later; intros _ ?).
    apply bind_fails_now. now apply bucket_append_short.
  - do 4 (apply bind_fails_later; intros _ ?).
    apply bind_fails_now. now apply bucket_append_short.
  - do 5 (apply bind_fails_later; intros _ ?).
    apply bind_fails_now. now apply bucket_append_short.
Qed.

Lemma store_short_fails data tags b :
  short_field data (length tags) -> fails (store data tags b).
Proof.
  intros H. unfold store. apply bind_fails_later. intros _ s'.
  unfold for_range.
  set (n := length tags) in *.
  assert (exists k, k < n /\ short_field data (S k)) as (k & Hk & Hs).
  { unfold short_field in *.
    destruct H as [H|[H|[H|[H|[H|H]]]]];
      eexists; (split; [exact H|]); auto 10. }
  apply for_each_fails_at with (k := k).
  - apply in_seq. lia.
  - intros s''. now apply store_row_short.
Qed.

Lemma wf_extra_append_transition b k ea sa o no r d :
  wf_extra b -> wf_extra (append_transition k ea sa o no r d b).
Proof.
  intros [[Ha Hn] He]. split; [split|].
  - now apply aligned_append_transition.
  - unfold append_transition. cbn. now rewrite length_app_at.
  - exact He.
Qed.

(** A position below [num_scenario] whose tag names a scenario slot and whose
    batch entries exist is stored. *)
Lemma store_row_ok data tags s_i tag b :
  wf_extra b -> covers data (S s_i) ->
  nth_error tags s_i = Some tag -> s_i < num_scenario b ->
  sid_in_range (num_scenario b) tag = true ->
  exists i k ea sa o no r d dct,
    dict_get "scenario_id" tag = Some (VInt i) /\
    py_index (num_scenario b) i = Some k /\
    nth_error (ego_actions data) s_i = Some ea /\
    nth_error (scenario_actions data) s_i = Some sa /\
    nth_error (obs data) s_i = Some o /\
    nth_error (next_obs data) s_i = Some no /\
    nth_error (rewards data) s_i = Some r /\
    nth_error (dones data) s_i = Some d /\
    nth_error (buffer_additional_dict b) s_i = Some dct /\
    store_row data tags s_i b =
    Ok tt (set_buffer_additional_dict
             (set_at s_i (register_all tag dct) (buffer_additional_dict b))
             (append_transition k ea sa o no r d b)).
Proof.
  intros [[Ha Hn] He] (C1 & C2 & C3 & C4 & C5 & C6) Et Hs Hsid.
  unfold sid_in_range in Hsid.
  destruct (dict_get "scenario_id" tag) as [[i|v]|] eqn:Esid; try discriminate.
  destruct (py_index (num_scenario b) i) as [k|] eqn:Ek; [|discriminate].
  destruct (nth_error (ego_actions data) s_i) as [ea|] eqn:E1;
    [|apply nth_error_None in E1; lia].
  destruct (nth_error (scenario_actions data) s_i) as [sa|] eqn:E2;
    [|apply nth_error_None in E2; lia].
  destruct (nth_error (obs data) s_i) as [o|] eqn:E3;
    [|apply nth_error_None in E3; lia].
  destruct (nth_error (next_obs data) s_i) as [no|] eqn:E4;
    [|apply nth_error_None in E4; lia].
  destruct (nth_error (rewards data) s_i) as [r|] eqn:E5;
    [|apply nth_error_None in E5; lia].
  destruct (nth_error (dones data) s_i) as [d|] eqn:E6;
    [|apply nth_error_None in E6; lia].
  destruct (nth_error (buffer_additional_dict b) s_i) as [dct|] eqn:Ex;
    [|apply nth_error_None in Ex; lia].
  exists i, k, ea, sa, o, no, r, d, dct.
  repeat split; try reflexivity; try assumption.
  rewrite (store_row_main data tags s_i b tag i k ea sa o no r d Ha Et Esid
             ltac:(rewrite Hn; exact Ek) E1 E2 E3 E4 E5 E6).
  rewrite (store_extras_ok s_i tag _ dct) by exact Ex.
  reflexivity.
Qed.

Lemma wf_extra_store_row_state b k ea sa o no r d s_i x :
  wf_extra b ->
  wf_extra (set_buffer_additional_dict
              (set_at s_i x (buffer_additional_dict b))
              (append_transition k ea sa o no r d b)).
Proof.
  intros [[(H1 & H2 & H3 & H4 & H5) Hn] He].
  unfold wf_extra, wf, aligned, append_transition. cbn.
  rewrite length_app_at, length_set_at.
  repeat split; try assumption; now apply lens_app_at.
Qed.

Lemma store_ok data tags b :
  wf_extra b -> covers data (length tags) ->
  length tags <= num_scenario b ->
  Forall (fun tag => sid_in_range (num_scenario b) tag = true) tags ->
  exists b', store data tags b = Ok tt b' /\ wf_extra b'.
Proof.
  intros Hwf (C1 & C2 & C3 & C4 & C5 & C6) Hn Hf.
  unfold store, bind, modify, for_range.
  set (b0 := set_buffer_len _ b).
  assert (Hwf0 : wf_extra b0) by exact Hwf.
  destruct (for_each_ok
              (fun s => wf_extra s /\ num_scenario s = num_scenario b)
              (seq 0 (length tags)) (store_row data tags)) with (s := b0)
    as (b' & E & Hb' & _).
  - intros i s Hi [Hs Hns]. apply in_seq in Hi.
    destruct (nth_error tags i) as [tag|] eqn:Et;
      [|apply nth_error_None in Et; lia].
    rewrite Forall_forall in Hf. pose proof (Hf tag (nth_error_In _ _ Et)) as Hsid.
    rewrite <- Hns in Hsid.
    destruct (store_row_ok data tags i tag s Hs) as
      (j & k & ea & sa & o & no & r & d & dct & _ & _ & _ & _ & _ & _ & _ & _ & _ & ->);
      auto; try lia.
    { unfold covers. repeat split; lia. }
    eexists. split; [reflexivity|]. split.
    + now apply wf_extra_store_row_state.
    + cbn. exact Hns.
  - split; [assumption|reflexivity].
  - eauto.
Qed.

End StoreShape.

Section StoreShapePerception.

Import ReplayBuffer_Perception Perception.

Context {V : Type}.

Implicit Types b : ReplayBuffer_Perception.t V.

Lemma p_store_arity data_list b :
  length data_list <> 4 -> store data_list b = Raise AssertionError b.
Proof.
  intros H. unfold store.
  destruct data_list as [|? [|? [|? [|? [|? ?]]]]]; cbn in H; try reflexivity.
  contradiction.
Qed.

Lemma p_wf_append_record b k pr sa o bl l :
  wf b -> wf (append_record k pr sa o bl l b).
Proof.
  intros [Ha Hn]. split.
  - now apply p_aligned_append_record.
  - unfold append_record. cbn. now rewrite length_app_at.
Qed.

Lemma field_sid infos s_i tag n :
  nth_error infos s_i = Some tag ->
  Generic.sid_in_range n tag = true ->
  exists i k, field infos s_i "scenario_id" = inr (@VInt V i) /\
              py_index n i = Some k.
Proof.
  intros Et H. unfold Generic.sid_in_range in H.
  unfold field, rbind, lookup. rewrite Et.
  destruct (dict_get "scenario_id" tag) as [[i|v]|]; try discriminate.
  destruct (py_index n i) as [k|] eqn:Ek; [|discriminate].
  exists i, k. split; [reflexivity|exact Ek].
Qed.

Lemma p_store_ok ego scen ob infos b :
  wf b -> batch_aligned [ego; scen; ob; infos] ->
  Forall (fun tag => Generic.sid_in_range (num_scenario b) tag = true) infos ->
  exists b', store [ego; scen; ob; infos] b = Ok tt b' /\ wf b'.
Proof.
  intros Hwf Hb Hf. pose proof Hb as (L1 & L2 & L3 & F1 & F2 & F3 & F4 & F5).
  unfold store, bind, modify, for_range.
  set (b0 := set_buffer_len _ b).
  assert (Hwf0 : wf b0) by exact Hwf.
  destruct (for_each_ok
              (fun s => wf s /\ num_scenario s = num_scenario b)
              (seq 0 (length infos)) (store_row ego scen ob infos))
    with (s := b0) as (b' & E & Hb' & _).
  - intros i s Hi [[Ha Hl] Hns]. apply in_seq in Hi.
    destruct (nth_error infos i) as [tag|] eqn:Et;
      [|apply nth_error_None in Et; lia].
    rewrite Forall_forall in Hf. pose proof (Hf tag (nth_error_In _ _ Et)) as Hsid.
    destruct (field_sid infos i tag _ Et Hsid) as (j & k & Esid & Ek).
    destruct (field_ok ego i "od_result" ltac:(lia) F1) as [pr E1].
    destruct (field_ok scen i "attack" ltac:(lia) F2) as [sa E2].
    destruct (field_ok ob i "img" ltac:(lia) F3) as [o E3].
    destruct (field_ok infos i "bbox_label" ltac:(lia) F4) as [bl E4].
    destruct (field_ok infos i "iou_loss" ltac:(lia) F5) as [l E5].
    exists (append_record k pr sa o bl l s). split; [|split].
    + apply p_store_row_main with (i := j); auto. rewrite Hl, Hns. exact Ek.
    + apply p_wf_append_record. now split.
    + exact Hns.
  - split; [assumption|reflexivity].
  - eauto.
Qed.

End StoreShapePerception.

Section StoreShapeTheorem.

Context {V : Type}.

(** C7, as amended.  [ReplayBuffer.store] raises whenever some field of the
    batch is shorter than the tags list; when no field is shorter (the
    lengths may still disagree), the tags name scenario slots and there are
    no more tags than slots, it returns.  [ReplayBuffer_Perception.store]
    raises on any number of fields other than four and returns on a
    well-formed batch of four. *)
Theorem store_shape_failures :
  (forall (b : ReplayBuffer.t V) data tags,
     Generic.short_field data (length tags) ->
     fails (ReplayBuffer.store data tags b)) /\
  (forall (b : ReplayBuffer.t V) data tags,
     Generic.wf_extra b -> Generic.covers data (length tags) ->
     length tags <= ReplayBuffer.num_scenario b ->
     Forall (fun tag => Generic.sid_in_range (ReplayBuffer.num_scenario b) tag
                        = true) tags ->
     exists b', ReplayBuffer.store data tags b = Ok tt b') /\
  (forall (b : ReplayBuffer_Perception.t V) data_list,
     length data_list <> 4 ->
     ReplayBuffer_Perception.store data_list b = Raise AssertionError b) /\
  (forall (b : ReplayBuffer_Perception.t V) ego scen ob infos,
     Perception.wf b -> Perception.batch_aligned [ego; scen; ob; infos] ->
     Forall (fun tag => Generic.sid_in_range
                          (ReplayBuffer_Perception.num_scenario b) tag = true)
            infos ->
     exists b', ReplayBuffer_Perception.store [ego; scen; ob; infos] b = Ok tt b').
Proof.
  split; [|split; [|split]].
  - intros b data tags. apply store_short_fails.
  - intros b data tags H1 H2 H3 H4.
    destruct (store_ok data tags b H1 H2 H3 H4) as (b' & E & _). eauto.
  - intros b data_list. apply p_store_arity.
  - intros b ego scen ob infos H1 H2 H3.
    destruct (p_store_ok ego scen ob infos b H1 H2 H3) as (b' & E & _). eauto.
Qed.

End StoreShapeTheorem.

(** ** The extra columns *)

Section ExtraColumns.

Import ReplayBuffer Generic.

Context {V : Type}.

Implicit Types b : ReplayBuffer.t V.

Lemma dict_get_set {A} (k key : string) (x : A) (d : dict A) :
  dict_get key (dict_set k x d) =
  if String.eqb k key then Some x else dict_get key d.
Proof.
  induction d as [|[k0 c] d IH]; cbn.
  - reflexivity.
  - destruct (String.eqb_spec k0 k) as [->|Hk]; cbn.
    + destruct (String.eqb k key); reflexivity.
    + destruct (String.eqb_spec k0 key) as [->|Hk0].
      * destruct (String.eqb_spec k key) as [->|_]; [contradiction|reflexivity].
      * exact IH.
Qed.

Lemma dict_get_append {A} (k key : string) (v : A) (d : dict (list A)) :
  dict_get key (dict_append k v d) =
  if String.eqb k key
  then match dict_get key d with Some c => Some (c ++ [v]) | None => None end
  else dict_get key d.
Proof.
  induction d as [|[k0 c] d IH]; cbn.
  - destruct (String.eqb k key); reflexivity.
  - destruct (String.eqb_spec k0 k) as [->|Hk]; cbn.
    + destruct (String.eqb k key); reflexivity.
    + destruct (String.eqb_spec k0 key) as [->|Hk0].
      * destruct (String.eqb_spec k key) as [->|_]; [contradiction|reflexivity].
      * exact IH.
Qed.

(** Registering and appending: the column of [k] gains [v] (starting from
    the empty column when [k] is new); every other column is untouched. *)
Lemma dict_get_register_append {A} (k key : string) (v : A) (d : dict (list A)) :
  dict_get key (dict_register_append k v d) =
  if String.eqb k key
  then Some (match dict_get key d with Some c => c | None => [] end ++ [v])
  else dict_get key d.
Proof.
  unfold dict_register_append, dict_has.
  destruct (String.eqb_spec k key) as [->|Hk].
  - destruct (dict_get key d) as [c|] eqn:E.
    + now rewrite dict_get_append, String.eqb_refl, E.
    + now rewrite dict_get_append, String.eqb_refl, dict_get_set, String.eqb_refl.
  - apply String.eqb_neq in Hk.
    destruct (dict_get k d) as [c|] eqn:E.
    + now rewrite dict_get_append, Hk.
    + now rewrite dict_get_append, Hk, dict_get_set, Hk.
Qed.

Lemma dict_get_not_in {A} (key : string) (d : dict A) :
  ~ In key (map fst d) -> dict_get key d = None.
Proof.
  induction d as [|[k0 c] d IH]; cbn; intros H; [reflexivity|].
  destruct (String.eqb_spec k0 key) as [->|_]; [exfalso; auto|].
  apply IH. auto.
Qed.

(** The key loop of [store] on one tag entry: a key the entry carries gets
    its value appended to its column, created if need be; any other column
    is left as it was. *)
Lemma register_all_get (items : dict (pyval V)) d key :
  is_dict items -> key <> "scenario_id"%string ->
  dict_get key (register_all items d) =
  match dict_get key items with
  | Some v => Some (match dict_get key d with Some c => c | None => [] end ++ [v])
  | None => dict_get key d
  end.
Proof.
  unfold is_dict. intros Hd Hk.
  revert d; induction items as [|[k0 v] items IH]; intros d; [reflexivity|].
  cbn in Hd. inversion Hd as [|? ? Hnin Hd']; subst.
  cbn [register_all dict_get].
  destruct (String.eqb_spec k0 "scenario_id") as [->|Hs].
  - destruct (String.eqb_spec "scenario_id" key) as [<-|_]; [contradiction|].
    now apply IH.
  - rewrite (IH Hd'), dict_get_register_append.
    destruct (String.eqb_spec k0 key) as [->|Hk0].
    + now rewrite (dict_get_not_in key items Hnin).
    + reflexivity.
Qed.

Lemma store_loop_upto data tags b (m : nat) :
  wf_extra b -> covers data (length tags) ->
  length tags <= num_scenario b -> tagged_by_position tags ->
  m <= length tags ->
  exists s,
    for_each (seq 0 m) (store_row data tags)
      (set_buffer_len (buffer_len b + Z.of_nat (length (rewards data)))%Z b)
    = Ok tt s /\
    stored_upto data tags b m s.
Proof.
  intros Hwf Hc Hn Ht. induction m as [|m IH]; intros Hm.
  - eexists. split; [reflexivity|]. unfold stored_upto. cbn.
    repeat split; try apply Hwf; auto. intros i tag Hi. lia.
  - destruct (IH ltac:(lia)) as (s & E & Hs & Hns & Hge & Hlt).
    rewrite seq_S, for_each_app, (bind_ok _ _ _ _ _ E). cbn [Nat.add for_each].
    destruct (nth_error tags m) as [tag|] eqn:Et;
      [|apply nth_error_None in Et; lia].
    destruct (Ht m tag Et) as [Esid Hd].
    destruct (store_row_ok data tags m tag s Hs) as
      (j & k & ea & sa & o & no & r & d & dct
         & Ej & Ek & _ & _ & _ & _ & E5 & _ & Ex & Erow); auto; try lia.
    { destruct Hc as (C1 & C2 & C3 & C4 & C5 & C6).
      unfold covers. repeat split; lia. }
    { unfold sid_in_range. rewrite Esid, py_index_nonneg by lia. reflexivity. }
    rewrite Esid in Ej. injection Ej as <-.
    rewrite py_index_nonneg in Ek by lia. injection Ek as <-.
    rewrite (bind_ok _ _ _ _ _ Erow). unfold ret.
    eexists. split; [reflexivity|].
    destruct (Hge m (le_n m)) as [Gd Gr].
    assert (Hr : exists c, nth_error (buffer_rewards s) m = Some c).
    { destruct (nth_error (buffer_rewards s) m) eqn:N; [eauto|].
      apply nth_error_None in N. destruct Hs as [[_ Hl] _]. lia. }
    destruct Hr as [c Hr].
    split; [now apply wf_extra_store_row_state|]. split; [exact Hns|]. split.
    + intros i Hi. cbn.
      rewrite nth_error_set_at_other, nth_error_app_at_other by lia.
      apply Hge. lia.
    + intros i tag' Hi Et'. cbn.
      destruct (Nat.eq_dec i m) as [->|Hne].
      * rewrite Et in Et'. injection Et' as <-.
        exists dct, c, r. rewrite <- Gd, <- Gr.
        repeat split; try assumption.
        -- apply nth_error_set_at_same. apply nth_error_Some. now rewrite Ex.
        -- now apply nth_error_app_at_same.
      * rewrite nth_error_set_at_other, nth_error_app_at_other by exact Hne.
        apply Hlt; [lia|exact Et'].
Qed.

End ExtraColumns.

(** ** The init-condition sampler on batched appends *)

Section InitSamplerBatched.

Import ReplayBuffer Examples.

(** C5.  Two [store_init] calls of two rows each and a capacity of one: the
    running count is 4, the newest record is row ["a3"] with return 40, yet
    [sample_init] windows by calls, draws below the number of calls kept and
    indexes rows and returns with that draw: it returns row ["a2"] paired
    with the return 20 of row ["a1"], whatever the generator. *)
Theorem sample_init_batched (g : rng) :
  init_buffer_len two_episodes = 4%Z /\
  buffer_capacity two_episodes = 1%Z /\
  buffer_init_action two_episodes = [["a0"; "a1"]; ["a2"; "a3"]]%string /\
  buffer_episode_reward two_episodes = [10; 20; 30; 40]%Z /\
  sample_init 1 g two_episodes =
  Ok {| init_action := ["a2"%string]; episode_reward := [20%Z];
        init_extra := [] |} two_episodes.
Proof.
  repeat split.
Qed.

(** The extra keys of a tags entry go to the dictionary at the batch
    position of the entry, not at its scenario id: one transition tagged with
    scenario id 1 at position 0 leaves its ['cost'] in slot 0. *)
Example store_extra_by_position :
  let b := state_of (store (Generic.one_step "x"%string 1%Z false)
                           [tag_cost 1 "c"] (fresh 2)) in
  buffer_rewards b = [[]; [1%Z]] /\
  buffer_additional_dict b = [[("cost"%string, [VData "c"%string])]; []].
Proof. split; reflexivity. Qed.

End InitSamplerBatched.

(** ** Where the stated properties fail *)

Section Counterexamples.

Import ReplayBuffer Examples.

(** Against C4: a key first seen at the second transition of a scenario id
    gets a column of length one beside main fields of length two. *)
Lemma extra_column_not_backfilled :
  Generic.column_of late_key 0 "cost" = Some [VData "c"%string] /\
  nth 0 (buffer_rewards late_key) [] = [1; 2]%Z /\
  length (Generic.extra_col late_key 0 "cost") <>
    length (nth 0 (buffer_rewards late_key) []).
Proof. repeat split; try (vm_compute; reflexivity). vm_compute. discriminate. Qed.

(** Against C7: fields of length two and a tags list of length one disagree,
    and [store] returns. *)
Lemma store_accepts_short_tags :
  length (rewards two_steps) <> length [tag 0] /\
  failsb (store two_steps [tag 0] (fresh 1)) = false /\
  buffer_rewards (state_of (store two_steps [tag 0] (fresh 1))) = [[10%Z]] /\
  buffer_len (state_of (store two_steps [tag 0] (fresh 1))) = 2%Z.
Proof.
  split; [cbn; discriminate|]. repeat split; vm_compute; reflexivity.
Qed.

(** Against C8: one InitRecord is stored, and [sample_init] fails. *)
Lemma sample_init_fails_with_records :
  init_buffer_len init_only = 1%Z /\
  buffer_init_action init_only = [["a0"%string]] /\
  sample_init 1 (fun _ => 0) init_only = Raise IndexError init_only.
Proof. repeat split; vm_compute; reflexivity. Qed.


End Counterexamples.

(** ** Reachable buffers are well formed *)

Section Reachable.

Context {V : Type}.

Lemma shaped_store_extras (n : nat) s_i items (b : ReplayBuffer.t V) :
  Generic.shaped n b ->
  Generic.shaped n (state_of (ReplayBuffer.store_extras s_i items b)).
Proof.
  revert b; induction items as [|[key v] items IH]; intros s Hs; [exact Hs|].
  cbn [ReplayBuffer.store_extras].
  destruct (String.eqb key "scenario_id"); [now apply IH|].
  apply bind_state_inv; [|intros _ s' Hs'; now apply IH].
  unfold ReplayBuffer.extra_append.
  destruct (nth_error (ReplayBuffer.buffer_additional_dict s) s_i); [|exact Hs].
  destruct Hs as (A1 & A2 & A3). unfold Generic.shaped. cbn.
  rewrite length_set_at. auto.
Qed.

Lemma shaped_store_row (n : nat) data tags s_i (b : ReplayBuffer.t V) :
  Generic.shaped n b ->
  Generic.shaped n (state_of (ReplayBuffer.store_row data tags s_i b)).
Proof.
  intros H. unfold ReplayBuffer.store_row.
  apply bind_state_inv; [unfold lift; now rewrite reads_state|].
  intros tag s1 H1.
  apply bind_state_inv; [unfold lift; now rewrite reads_state|].
  intros sid s2 H2.
  assert (Hb : forall A get set (col : list A) s,
             (forall k x b1, Generic.shaped n b1 ->
                             Generic.shaped n (set (app_at k x (get b1)) b1)) ->
             Generic.shaped n s ->
             Generic.shaped n
               (state_of (ReplayBuffer.bucket_append get set sid col s_i s))).
  { intros A get set col s Hset Hs. unfold ReplayBuffer.bucket_append.
    destruct sid as [i|v]; [|exact Hs].
    destruct (py_index (length (get s)) i); [|exact Hs].
    destruct (nth_error col s_i); [|exact Hs].
    cbn. now apply Hset. }
  repeat (apply bind_state_inv;
          [apply Hb;
           [intros k x b1 (A1 & A2 & A3); unfold Generic.shaped; cbn;
            rewrite ?length_app_at; auto
           |assumption]
          |intros _ ? ?]).
  now apply shaped_store_extras.
Qed.

Lemma shaped_run_op (n : nat) (o : Generic.op) (b : ReplayBuffer.t V) :
  Generic.shaped n b -> Generic.shaped n (Generic.run_op o b).
Proof.
  intros H. destruct o; cbn [Generic.run_op].
  - unfold ReplayBuffer.store, bind, modify, for_range.
    apply (for_each_state_inv (Generic.shaped n)); [|exact H].
    intros i s _ Hs. now apply shaped_store_row.
  - exact H.
  - destruct (finish_one_episode_state b) as [vals ->]. exact H.
  - unfold ReplayBuffer.sample. now rewrite reads_state.
  - unfold ReplayBuffer.sample_init. now rewrite reads_state.
  - destruct H as (A1 & A2 & A3). unfold Generic.shaped. cbn.
    rewrite !repeat_length. auto.
  - exact H.
Qed.

(** Every buffer reached from the constructor by calls on aligned batches is
    well formed: aligned, with one bucket and one extra dictionary per slot. *)
Lemma reachable_wf n mode capacity (ops : list Generic.op) :
  Forall Generic.op_aligned ops ->
  Generic.wf_extra (Generic.run ops (@ReplayBuffer.init V n mode capacity)).
Proof.
  intros Hf.
  assert (Hs : Generic.shaped n
                 (Generic.run ops (@ReplayBuffer.init V n mode capacity))).
  { assert (H0 : Generic.shaped n (@ReplayBuffer.init V n mode capacity))
      by (unfold Generic.shaped; cbn; rewrite !repeat_length; auto).
    revert H0. generalize (@ReplayBuffer.init V n mode capacity).
    unfold Generic.run. clear Hf.
    induction ops as [|o ops IH]; intros b Hb; [exact Hb|].
    cbn [fold_left]. apply IH. now apply shaped_run_op. }
  destruct Hs as (A1 & A2 & A3).
  split; [split|]; [|congruence|congruence].
  apply aligned_run; [apply aligned_init|exact Hf].
Qed.

Lemma p_wf_run_op (o : Perception.op) (b : ReplayBuffer_Perception.t V) :
  Perception.op_aligned o -> Perception.wf b ->
  Perception.wf (Perception.run_op o b).
Proof.
  intros Ho [Ha Hn]. split; [now apply p_aligned_run_op|].
  destruct o; cbn [Perception.run_op]; try exact Hn.
  - cbn in Ho.
    destruct data_list as [|ego [|scen [|ob [|infos [|? ?]]]]]; try contradiction.
    unfold ReplayBuffer_Perception.store, bind, modify, for_range.
    apply (for_each_state_inv
             (fun s => Perception.aligned s /\
                       length (ReplayBuffer_Perception.buffer_loss s) =
                       ReplayBuffer_Perception.num_scenario s));
      [|split; assumption].
    intros i s Hi [Hs Hl]. apply in_seq in Hi.
    destruct (p_store_row_cases ego scen ob infos i s Hs Ho ltac:(lia))
      as [[e ->]|(j & k & pr & sa & o & bl & l & _ & _ & _ & _ & _ & _ & _ & ->)].
    + split; assumption.
    + apply p_wf_append_record. now split.
  - unfold ReplayBuffer_Perception.sample. now rewrite reads_state.
Qed.

Lemma p_reachable_wf n mode capacity (ops : list Perception.op) :
  Forall Perception.op_aligned ops ->
  Perception.wf
    (Perception.run ops (@ReplayBuffer_Perception.init V n mode capacity)).
Proof.
  assert (H0 : Perception.wf (@ReplayBuffer_Perception.init V n mode capacity)).
  { split; [apply p_aligned_init|]. cbn. apply repeat_length. }
  revert H0. generalize (@ReplayBuffer_Perception.init V n mode capacity).
  unfold Perception.run.
  induction ops as [|o ops IH]; intros b Hb Hf; [exact Hb|].
  inversion Hf; subst. cbn [fold_left]. apply IH; [|assumption].
  now apply p_wf_run_op.
Qed.

End Reachable.

(** ** The theorems at concrete buffers *)

Section Instances.

Import Examples.

Lemma wf_six : Generic.wf six.
Proof. repeat split. Defined.

Lemma wf_extra_fresh (n : nat) : Generic.wf_extra (fresh n).
Proof.
  unfold Generic.wf_extra, Generic.wf, Generic.aligned, fresh. cbn.
  rewrite !repeat_length. repeat split; apply lens_repeat.
Defined.

Lemma p_wf_fresh : Perception.wf p_fresh.
Proof. repeat split. Defined.

Lemma p_batch_ok : Perception.batch_aligned [p_ego; p_scen; p_obs; p_infos].
Proof. cbn. repeat split; repeat constructor. Defined.

Lemma alignment_invariant_witness :
  Forall Generic.op_aligned calls /\
  Generic.aligned_at (Generic.run calls (ReplayBuffer.init 2 "train_agent" 1000)) 1 /\
  Forall Perception.op_aligned p_calls /\
  Perception.aligned_at
    (Perception.run p_calls (ReplayBuffer_Perception.init 1 "eval" 1000)) 0.
Proof.
  assert (H1 : Forall Generic.op_aligned calls)
    by (repeat constructor).
  assert (H2 : Forall Perception.op_aligned p_calls)
    by (repeat constructor; exact p_batch_ok).
  destruct (@alignment_invariant string) as (_ & G & _ & P).
  split; [exact H1|]. split; [apply G; exact H1|].
  split; [exact H2|]. apply P; exact H2.
Defined.

Lemma finish_one_episode_spec_witness :
  (exists vals,
     ReplayBuffer.finish_one_episode three =
     Ok tt (ReplayBuffer.set_buffer_episode_reward
              (ReplayBuffer.buffer_episode_reward three ++ vals) three) /\
     Generic.returns_of three (seq 0 (ReplayBuffer.num_scenario three)) vals) /\
  (exists b', ReplayBuffer.finish_one_episode (fresh 1) = Raise IndexError b').
Proof.
  destruct (@finish_one_episode_spec string) as [H _]. split.
  - apply (proj1 (H three eq_refl eq_refl)).
    intros [|s] Hs.
    + cbn. do 2 right. left. reflexivity.
    + change (S s < 1) in Hs. lia.
  - apply (proj2 (H (fresh 1) eq_refl eq_refl)).
    exists 0. split; [cbn; lia|]. cbn. intros [].
Defined.

Lemma finish_one_episode_twice_witness :
  ReplayBuffer.buffer_episode_reward six = [6]%Z /\
  ReplayBuffer.buffer_episode_reward
    (state_of (ReplayBuffer.finish_one_episode six)) = [6; 15]%Z /\
  ReplayBuffer.buffer_episode_reward
    (state_of ((ReplayBuffer.finish_one_episode ;;;
                ReplayBuffer.finish_one_episode) six)) = [6; 15; 15]%Z.
Proof.
  destruct (finish_one_episode_twice six eq_refl eq_refl)
    as (vals & Hv & _ & _ & _ & R1 & R2 & _).
  - intros [|s] Hs.
    + cbn. do 2 right. left. reflexivity.
    + change (S s < 1) in Hs. lia.
  - assert (vals = [15]%Z) as ->.
    { eapply returns_of_fun; [exact Hv|]. repeat constructor. }
    split; [reflexivity|]. split; [exact R1|exact R2].
Defined.

Lemma p_wf_one : Perception.wf p_one.
Proof. repeat split. Defined.

Lemma sample_window_witness :
  (Generic.window_size windowed = 2%Z /\
   ReplayBuffer.buffer_rewards windowed = [[0; 1; 2]; [10; 11; 12]]%Z /\
   ReplayBuffer.buffer_obs windowed =
     [["o0a"; "o0b"; "o0c"]; ["o1a"; "o1b"; "o1c"]] /\
   ReplayBuffer.prepare windowed = inr (Generic.pools windowed) /\
   ReplayBuffer.prepared_rewards (Generic.pools windowed) = [1; 2; 11; 12]%Z /\
   ReplayBuffer.prepared_obs (Generic.pools windowed) =
     ["o0b"; "o0c"; "o1b"; "o1c"] /\
   (exists idx bt,
      randint 4 3 (fun k => k) = inr idx /\
      Forall (fun i => i < 4) idx /\
      ReplayBuffer.sample 3 (fun k => k) windowed = Ok bt windowed /\
      Spec.rows_at [1; 2; 11; 12]%Z idx (ReplayBuffer.reward bt) /\
      Spec.rows_at ["o0b"; "o0c"; "o1b"; "o1c"] idx (ReplayBuffer.state bt)) /\
   (forall p, p < 4 ->
      exists s j,
        s < 2 /\ 1 <= j < 3 /\
        nth_error (ReplayBuffer.prepared_rewards (Generic.pools windowed)) p =
          nth_error (nth s (ReplayBuffer.buffer_rewards windowed) []) j /\
        nth_error (ReplayBuffer.prepared_obs (Generic.pools windowed)) p =
          nth_error (nth s (ReplayBuffer.buffer_obs windowed) []) j)) /\
  (Perception.window_size p_windowed = 1%Z /\
   ReplayBuffer_Perception.buffer_loss p_windowed =
     [[VData "loss0a"; VData "loss0b"]; [VData "loss1a"; VData "loss1b"]] /\
   ReplayBuffer_Perception.prepare p_windowed = inr (Perception.pools p_windowed) /\
   ReplayBuffer_Perception.prepared_loss (Perception.pools p_windowed) =
     [VData "loss0b"; VData "loss1b"] /\
   (exists idx bt,
      Forall (fun i => i < 2) idx /\
      ReplayBuffer_Perception.sample 3 (fun k => k) p_windowed = Ok bt p_windowed /\
      Spec.rows_at [VData "loss0b"; VData "loss1b"] idx
                   (ReplayBuffer_Perception.loss bt)) /\
   (forall p, p < 2 ->
      exists s j,
        s < 2 /\ 1 <= j < 2 /\
        nth_error (ReplayBuffer_Perception.prepared_loss
                     (Perception.pools p_windowed)) p =
          nth_error (nth s (ReplayBuffer_Perception.buffer_loss p_windowed) []) j)).
Proof.
  destruct (@sample_window string) as [G P]. split.
  - destruct (G windowed 3 (fun k => k))
      as (Eprep & (idx & bt & Er & F & Es & _ & Ro & _ & Rr & _) & _ & Hprov).
    { repeat split. }
    { vm_compute. intros H. discriminate H. }
    split; [reflexivity|]. split; [reflexivity|]. split; [reflexivity|].
    split; [exact Eprep|]. split; [reflexivity|]. split; [reflexivity|].
    split.
    + exists idx, bt. split; [exact Er|]. split; [exact F|].
      split; [exact Es|]. split; [exact Rr|exact Ro].
    + intros p Hp. destruct (Hprov p Hp)
        as (s & j & Hs & Hj & Hw & _ & _ & Ho & _ & Hr & _).
      exists s, j. split; [exact Hs|].
      split; [|split; [exact Hr|exact Ho]].
      destruct s as [|[|s]].
      * change (j < 3) in Hj. change (1 <= Z.of_nat j)%Z in Hw. lia.
      * change (j < 3) in Hj. change (1 <= Z.of_nat j)%Z in Hw. lia.
      * change (S (S s) < 2) in Hs. lia.
  - destruct (P p_windowed 3 (fun k => k))
      as (Eprep & (idx & bt & _ & F & Es & _ & _ & Rl) & _ & Hprov).
    { repeat split. }
    { vm_compute. intros H. discriminate H. }
    split; [reflexivity|]. split; [reflexivity|].
    split; [exact Eprep|]. split; [reflexivity|].
    split.
    + exists idx, bt. split; [exact F|]. split; [exact Es|exact Rl].
    + intros p Hp. destruct (Hprov p Hp)
        as (s & j & Hs & Hj & Hw & _ & _ & Hl).
      exists s, j. split; [exact Hs|]. split; [|exact Hl].
      destruct s as [|[|s]].
      * change (j < 2) in Hj. change (1 <= Z.of_nat j)%Z in Hw. lia.
      * change (j < 2) in Hj. change (1 <= Z.of_nat j)%Z in Hw. lia.
      * change (S (S s) < 2) in Hs. lia.
Defined.

Lemma sample_mode_witness :
  exists bt,
    ReplayBuffer.sample 2 (fun k => k) six = Ok bt six /\
    length (ReplayBuffer.action bt) = 2 /\ length (ReplayBuffer.state bt) = 2.
Proof.
  destruct (sample_mode six 2 (fun k => k) wf_six) as [(idx & bt & _ & E & L1 & L2 & _) _].
  - vm_compute. intros H. discriminate H.
  - exists bt. repeat split; assumption.
Defined.

Lemma store_shape_failures_witness :
  fails (ReplayBuffer.store no_ego [tag 0] (fresh 1)) /\
  (exists b', ReplayBuffer.store two_steps [tag 0; tag (-1)] (fresh 2) = Ok tt b') /\
  ReplayBuffer_Perception.store [p_ego; p_scen; p_obs] p_fresh =
    Raise AssertionError p_fresh /\
  (exists b', ReplayBuffer_Perception.store [p_ego; p_scen; p_obs; p_infos] p_fresh
              = Ok tt b').
Proof.
  destruct (@store_shape_failures string) as (S1 & S2 & P1 & P2).
  split; [|split; [|split]].
  - apply S1. left. cbn. lia.
  - apply S2.
    + apply wf_extra_fresh.
    + unfold Generic.covers. cbn. lia.
    + cbn. lia.
    + repeat constructor.
  - apply P1. cbn. lia.
  - apply P2.
    + exact p_wf_fresh.
    + exact p_batch_ok.
    + repeat constructor.
Defined.

Lemma sample_failures_witness :
  fails (ReplayBuffer.sample 1 (fun k => k) (fresh 1)) /\
  (Generic.init_window (fresh 1) = [] <->
   ReplayBuffer.buffer_init_action (fresh 1) = []) /\
  (exists idx,
     randint (length (Generic.init_window init_only)) 1 (fun k => k) = inr idx /\
     (fails (ReplayBuffer.sample_init 1 (fun k => k) init_only) <->
      ~ Generic.init_ready init_only idx)).
Proof.
  destruct (@sample_failures string) as (S1 & _ & S3 & S4).
  split; [|split].
  - apply (S1 (fresh 1) 1 (fun k => k)).
    + apply wf_extra_fresh.
    + reflexivity.
  - apply S3. cbn. lia.
  - apply S4. vm_compute. intros H. discriminate H.
Defined.


End Instances.

(** ** Demultiplexing *)

Section Demultiplexing.

Import ReplayBuffer Generic.

Context {V : Type}.

Implicit Types b : ReplayBuffer.t V.

Lemma routed_nil_col {A} n s (tags : list (dict (pyval V))) :
  routed n s tags (@nil A) = [].
Proof. now destruct tags. Qed.

(** Routing one more position appends its entry to the slot it selects. *)
Lemma routed_snoc {A} n s (tags : list (dict (pyval V))) (col : list A) m tag x :
  nth_error tags m = Some tag -> nth_error col m = Some x ->
  routed n s (firstn (S m) tags) col =
  routed n s (firstn m tags) col ++
  match slot_of n tag with
  | Some k => if k =? s then [x] else []
  | None => []
  end.
Proof.
  revert col m; induction tags as [|t tags IH]; intros col m Ht Hx.
  - now destruct m.
  - destruct col as [|y col]; [now destruct m|].
    destruct m as [|m].
    + cbn in Ht, Hx. injection Ht as ->. injection Hx as ->.
      cbn [firstn routed]. destruct tags; cbn [firstn routed];
        destruct (slot_of n tag) as [k|]; try destruct (k =? s); reflexivity.
    + cbn in Ht, Hx. specialize (IH col m Ht Hx).
      change (firstn (S (S m)) (t :: tags)) with (t :: firstn (S m) tags).
      change (firstn (S m) (t :: tags)) with (t :: firstn m tags).
      cbn [routed]. rewrite IH.
      destruct (slot_of n t) as [k|]; try destruct (k =? s); reflexivity.
Qed.

Lemma nth_app_at {A} (k s : nat) (x : A) (l : list (list A)) :
  k < length l ->
  nth s (app_at k x l) [] = nth s l [] ++ (if k =? s then [x] else []).
Proof.
  intros H. destruct (Nat.eqb_spec k s) as [->|Hne].
  - now apply nth_app_at_same.
  - rewrite nth_app_at_other by congruence. now rewrite app_nil_r.
Qed.

Lemma routed_step {A} n s (tags : list (dict (pyval V))) (col : list A)
    m tag x k (l0 l : list (list A)) :
  nth_error tags m = Some tag -> nth_error col m = Some x ->
  slot_of n tag = Some k -> k < length l ->
  nth s l [] = nth s l0 [] ++ routed n s (firstn m tags) col ->
  nth s (app_at k x l) [] =
  nth s l0 [] ++ routed n s (firstn (S m) tags) col.
Proof.
  intros Ht Hx Hk Hlt E.
  rewrite (routed_snoc n s tags col m tag x Ht Hx), Hk, nth_app_at, E by exact Hlt.
  now rewrite app_assoc.
Qed.

(** The buffer after the first [m] positions of a batch [store] accepts. *)
Lemma store_loop_routed data tags b (m : nat) :
  wf_extra b -> covers data (length tags) ->
  length tags <= num_scenario b ->
  Forall (fun tag => sid_in_range (num_scenario b) tag = true) tags ->
  m <= length tags ->
  exists st,
    for_each (seq 0 m) (store_row data tags)
      (set_buffer_len (buffer_len b + Z.of_nat (length (rewards data)))%Z b)
    = Ok tt st /\
    wf_extra st /\ num_scenario st = num_scenario b /\
    (forall s,
       nth s (buffer_ego_actions st) [] =
         nth s (buffer_ego_actions b) [] ++
         routed (num_scenario b) s (firstn m tags) (ego_actions data) /\
       nth s (buffer_scenario_actions st) [] =
         nth s (buffer_scenario_actions b) [] ++
         routed (num_scenario b) s (firstn m tags) (scenario_actions data) /\
       nth s (buffer_obs st) [] =
         nth s (buffer_obs b) [] ++
         routed (num_scenario b) s (firstn m tags) (obs data) /\
       nth s (buffer_next_obs st) [] =
         nth s (buffer_next_obs b) [] ++
         routed (num_scenario b) s (firstn m tags) (next_obs data) /\
       nth s (buffer_rewards st) [] =
         nth s (buffer_rewards b) [] ++
         routed (num_scenario b) s (firstn m tags) (rewards data) /\
       nth s (buffer_dones st) [] =
         nth s (buffer_dones b) [] ++
         routed (num_scenario b) s (firstn m tags) (dones data)) /\
    (forall i, m <= i ->
       nth_error (buffer_additional_dict st) i =
       nth_error (buffer_additional_dict b) i) /\
    (forall i tag, i < m -> nth_error tags i = Some tag ->
       exists d, nth_error (buffer_additional_dict b) i = Some d /\
                 nth_error (buffer_additional_dict st) i =
                 Some (register_all tag d)).
Proof.
  intros Hwf Hc Hn Hf. induction m as [|m IH]; intros Hm.
  - eexists. split; [reflexivity|]. cbn.
    split; [exact Hwf|]. split; [reflexivity|]. split; [|split].
    + intros s. rewrite !app_nil_r. repeat split.
    + reflexivity.
    + intros i tag Hi. lia.
  - destruct (IH ltac:(lia)) as (st & E & Hst & Hns & Hb & Hge & Hlt).
    rewrite seq_S, for_each_app, (bind_ok _ _ _ _ _ E). cbn [Nat.add for_each].
    destruct (nth_error tags m) as [tag|] eqn:Et;
      [|apply nth_error_None in Et; lia].
    rewrite Forall_forall in Hf.
    pose proof (Hf tag (nth_error_In _ _ Et)) as Hsid.
    destruct (store_row_ok data tags m tag st Hst) as
      (j & k & ea & sa & o & no & r & d & dct
         & Ej & Ek & E1 & E2 & E3 & E4 & E5 & E6 & Ex & Erow); auto; try lia.
    { destruct Hc as (C1 & C2 & C3 & C4 & C5 & C6).
      unfold covers. repeat split; lia. }
    { now rewrite Hns. }
    rewrite (bind_ok _ _ _ _ _ Erow). unfold ret.
    eexists. split; [reflexivity|].
    assert (Hslot : slot_of (num_scenario b) tag = Some k)
      by (unfold slot_of; now rewrite Ej, <- Hns).
    assert (Hk : k < num_scenario st) by (eapply py_index_lt; eauto).
    destruct Hst as [[Ha Hl] Hd].
    pose proof Ha as (A1 & A2 & A3 & A4 & A5).
    apply lens_length in A1, A2, A3, A4, A5.
    split; [now apply wf_extra_store_row_state|]. split; [exact Hns|].
    split; [|split].
    + intros s. destruct (Hb s) as (B1 & B2 & B3 & B4 & B5 & B6). cbn.
      repeat split; eapply routed_step; eauto; lia.
    + intros i Hi. cbn. rewrite nth_error_set_at_other by lia. apply Hge. lia.
    + intros i tag' Hi Et'. cbn.
      destruct (Nat.eq_dec i m) as [->|Hne].
      * rewrite Et in Et'. injection Et' as <-.
        exists dct. rewrite <- (Hge m (le_n m)). split; [exact Ex|].
        apply nth_error_set_at_same. apply nth_error_Some. now rewrite Ex.
      * rewrite nth_error_set_at_other by exact Hne.
        apply Hlt; [lia|exact Et'].
Qed.

(** X1.  A batch of at most [num_scenario] entries whose tags name scenario
    slots (a negative id counts from the last slot) and whose fields reach the
    length of the tags is stored: every bucket of every field receives, after
    what it held, exactly the entries whose tag selects it, in batch order;
    [buffer_len] grows by the number of rewards. *)
Theorem store_demultiplexes b data tags :
  wf_extra b -> covers data (length tags) ->
  length tags <= num_scenario b ->
  Forall (fun tag => sid_in_range (num_scenario b) tag = true) tags ->
  exists b',
    store data tags b = Ok tt b' /\
    buffer_len b' = (buffer_len b + Z.of_nat (length (rewards data)))%Z /\
    forall s,
      nth s (buffer_ego_actions b') [] =
        nth s (buffer_ego_actions b) [] ++
        routed (num_scenario b) s tags (ego_actions data) /\
      nth s (buffer_scenario_actions b') [] =
        nth s (buffer_scenario_actions b) [] ++
        routed (num_scenario b) s tags (scenario_actions data) /\
      nth s (buffer_obs b') [] =
        nth s (buffer_obs b) [] ++
        routed (num_scenario b) s tags (obs data) /\
      nth s (buffer_next_obs b') [] =
        nth s (buffer_next_obs b) [] ++
        routed (num_scenario b) s tags (next_obs data) /\
      nth s (buffer_rewards b') [] =
        nth s (buffer_rewards b) [] ++
        routed (num_scenario b) s tags (rewards data) /\
      nth s (buffer_dones b') [] =
        nth s (buffer_dones b) [] ++
        routed (num_scenario b) s tags (dones data).
Proof.
  intros Hwf Hc Hn Hf.
  destruct (store_loop_routed data tags b (length tags) Hwf Hc Hn Hf (le_n _))
    as (b' & E & _ & _ & Hb & _).
  exists b'. split; [exact E|]. split.
  - pose proof (store_frame data tags b) as F.
    unfold store, bind, modify, for_range in F. rewrite E in F.
    apply F.
  - intros s. rewrite firstn_all in Hb. apply Hb.
Qed.

(** X2.  On the same batches the extra keys of the entry at batch position
    [i] are registered and appended in the extra dictionary at index [i] of
    [buffer_additional_dict], whatever scenario id the entry carries; the
    dictionaries at the other indices are untouched. *)
Theorem store_extras_at_position b data tags :
  wf_extra b -> covers data (length tags) ->
  length tags <= num_scenario b ->
  Forall (fun tag => sid_in_range (num_scenario b) tag = true) tags ->
  exists b',
    store data tags b = Ok tt b' /\
    (forall i tag, nth_error tags i = Some tag ->
       exists d, nth_error (buffer_additional_dict b) i = Some d /\
                 nth_error (buffer_additional_dict b') i =
                 Some (register_all tag d)) /\
    (forall i, length tags <= i ->
       nth_error (buffer_additional_dict b') i =
       nth_error (buffer_additional_dict b) i).
Proof.
  intros Hwf Hc Hn Hf.
  destruct (store_loop_routed data tags b (length tags) Hwf Hc Hn Hf (le_n _))
    as (b' & E & _ & _ & _ & Hge & Hlt).
  exists b'. split; [exact E|]. split; [|exact Hge].
  intros i tag Et. apply Hlt; [|exact Et].
  apply nth_error_Some. now rewrite Et.
Qed.

End Demultiplexing.

Section ExtraColumnsTheorem.

Import ReplayBuffer Generic.

Context {V : Type}.

Implicit Types b : ReplayBuffer.t V.

(** The key loop of [store] never registers ['scenario_id']. *)
Lemma register_all_sid (items : dict (pyval V)) d :
  dict_get "scenario_id" (register_all items d) = dict_get "scenario_id" d.
Proof.
  revert d; induction items as [|[k0 v] items IH]; intros d; [reflexivity|].
  cbn [register_all]. destruct (String.eqb_spec k0 "scenario_id") as [->|Hs].
  - apply IH.
  - rewrite IH, dict_get_register_append.
    apply String.eqb_neq in Hs. now rewrite Hs.
Qed.

(** A column grows by one when the entry carries its key, by nothing
    otherwise. *)
Lemma register_all_length (tag : dict (pyval V)) d key :
  is_dict tag ->
  length (match dict_get key (register_all tag d) with
          | Some c => c
          | None => []
          end) =
  length (match dict_get key d with Some c => c | None => [] end) +
  (if negb (String.eqb key "scenario_id") && dict_has key tag then 1 else 0).
Proof.
  intros Hd. destruct (String.eqb_spec key "scenario_id") as [->|Hk];
    cbn [negb andb].
  - rewrite register_all_sid. lia.
  - rewrite register_all_get by assumption. unfold dict_has.
    destruct (dict_get key tag); [rewrite length_app; cbn; lia|lia].
Qed.

Lemma nth_of_nth_error {A} (l l' : list (list A)) s :
  nth_error l' s = nth_error l s -> nth s l' [] = nth s l [].
Proof.
  intros H. destruct (nth_error l s) as [c|] eqn:N.
  - now rewrite (nth_error_nth _ _ _ H), (nth_error_nth _ _ _ N).
  - rewrite !nth_overflow; [reflexivity| |]; apply nth_error_None; assumption.
Qed.

(** What a [store] call tagged by position adds to the main fields and to
    an extra column of a scenario slot. *)
Lemma store_by_position_lengths data tags b :
  wf_extra b -> covers data (length tags) ->
  length tags <= num_scenario b -> tagged_by_position tags ->
  exists b',
    store data tags b = Ok tt b' /\ wf_extra b' /\
    num_scenario b' = num_scenario b /\
    forall s key,
      exists d e,
        length (nth s (buffer_rewards b') []) =
          length (nth s (buffer_rewards b) []) + d /\
        length (extra_col b' s key) = length (extra_col b s key) + e /\
        e <= d /\
        (key <> "scenario_id"%string ->
         Forall (fun tag => dict_has key tag = true) tags -> e = d).
Proof.
  intros Hwf Hc Hn Ht.
  destruct (store_loop_upto data tags b (length tags) Hwf Hc Hn Ht (le_n _))
    as (b' & E & Hwf' & Hns & Hge & Hlt).
  exists b'. split; [exact E|]. split; [exact Hwf'|]. split; [exact Hns|].
  intros s key. destruct (lt_dec s (length tags)) as [Hs|Hs].
  - destruct (nth_error tags s) as [tag|] eqn:Et;
      [|apply nth_error_None in Et; lia].
    destruct (Hlt s tag Hs Et) as (d & c & r & D1 & D2 & R1 & R2).
    exists 1,
      (if negb (String.eqb key "scenario_id") && dict_has key tag then 1 else 0).
    split; [|split; [|split]].
    + rewrite (nth_error_nth _ _ _ R1), (nth_error_nth _ _ _ R2), length_app.
      reflexivity.
    + unfold extra_col, column_of. rewrite D1, D2.
      apply register_all_length. apply (Ht s tag Et).
    + destruct (negb (String.eqb key "scenario_id") && dict_has key tag); lia.
    + intros Hk Hall. rewrite Forall_forall in Hall.
      rewrite (Hall tag (nth_error_In _ _ Et)).
      apply String.eqb_neq in Hk. now rewrite Hk.
  - destruct (Hge s ltac:(lia)) as [Gd Gr]. exists 0, 0.
    split; [|split; [|split]].
    + rewrite (nth_of_nth_error _ _ _ Gr). lia.
    + unfold extra_col, column_of. rewrite Gd. lia.
    + lia.
    + reflexivity.
Qed.

Lemma extra_col_empty b s key n :
  buffer_additional_dict b = repeat [] n -> length (extra_col b s key) = 0.
Proof.
  intros H. unfold extra_col, column_of. rewrite H.
  destruct (nth_error _ s) as [d|] eqn:E; [|reflexivity].
  apply nth_error_In, repeat_spec in E. now subst.
Qed.

Lemma wf_extra_reset_buffer b : wf_extra (reset_buffer b).
Proof.
  unfold wf_extra, wf, aligned, reset_buffer. cbn.
  rewrite !repeat_length. repeat split; apply lens_repeat.
Qed.

(** The relation between an extra column and the main fields is kept by
    every call of a history tagged by position. *)
Lemma by_position_run_op n (o : Generic.op) b :
  by_position n o -> wf_extra b -> num_scenario b = n ->
  wf_extra (run_op o b) /\ num_scenario (run_op o b) = n /\
  ((forall s key, length (extra_col b s key)
                  <= length (nth s (buffer_rewards b) [])) ->
   forall s key, length (extra_col (run_op o b) s key)
                 <= length (nth s (buffer_rewards (run_op o b)) [])) /\
  (forall key, key <> "scenario_id"%string -> store_carries key o ->
     (forall s, length (extra_col b s key)
                = length (nth s (buffer_rewards b) [])) ->
     forall s, length (extra_col (run_op o b) s key)
               = length (nth s (buffer_rewards (run_op o b)) [])).
Proof.
  intros Ho Hwf Hn. destruct o; cbn [run_op].
  - destruct Ho as (Hc & Hl & Ht).
    destruct (store_by_position_lengths data additional_dict b Hwf Hc
                ltac:(lia) Ht) as (b' & E & Hwf' & Hns & Hstep).
    rewrite E. cbn [state_of].
    split; [exact Hwf'|]. split; [congruence|]. split.
    + intros H s key. destruct (Hstep s key) as (d & e & -> & -> & Hed & _).
      specialize (H s key). lia.
    + intros key Hk Hcar H s.
      destruct (Hstep s key) as (d & e & -> & -> & _ & Heq).
      rewrite (Heq Hk Hcar), (H s). reflexivity.
  - split; [exact Hwf|]. split; [exact Hn|]. split; [intros H; exact H|].
    intros key _ _ H; exact H.
  - destruct (finish_one_episode_state b) as [vals ->].
    split; [exact Hwf|]. split; [exact Hn|]. split; [intros H; exact H|].
    intros key _ _ H; exact H.
  - unfold sample. rewrite reads_state.
    split; [exact Hwf|]. split; [exact Hn|]. split; [intros H; exact H|].
    intros key _ _ H; exact H.
  - unfold sample_init. rewrite reads_state.
    split; [exact Hwf|]. split; [exact Hn|]. split; [intros H; exact H|].
    intros key _ _ H; exact H.
  - split; [apply wf_extra_reset_buffer|]. split; [exact Hn|].
    assert (Hz : forall s key,
               length (extra_col (reset_buffer b) s key) = 0 /\
               length (nth s (buffer_rewards (reset_buffer b)) []) = 0).
    { intros s key. split.
      - now apply (extra_col_empty _ s key (num_scenario b)).
      - cbn. now rewrite nth_repeat. }
    split.
    + intros _ s key. destruct (Hz s key) as [-> ->]. lia.
    + intros key _ _ _ s. destruct (Hz s key) as [-> ->]. reflexivity.
  - split; [exact Hwf|]. split; [exact Hn|]. split; [intros H; exact H|].
    intros key _ _ H; exact H.
Qed.

Lemma by_position_run n (ops : list Generic.op) b :
  Forall (by_position n) ops -> wf_extra b -> num_scenario b = n ->
  wf_extra (run ops b) /\
  ((forall s key, length (extra_col b s key)
                  <= length (nth s (buffer_rewards b) [])) ->
   forall s key, length (extra_col (run ops b) s key)
                 <= length (nth s (buffer_rewards (run ops b)) [])) /\
  (forall key, key <> "scenario_id"%string ->
     Forall (store_carries key) ops ->
     (forall s, length (extra_col b s key)
                = length (nth s (buffer_rewards b) [])) ->
     forall s, length (extra_col (run ops b) s key)
               = length (nth s (buffer_rewards (run ops b)) [])).
Proof.
  unfold run. revert b; induction ops as [|o ops IH]; intros b Hf Hwf Hn.
  - cbn. split; [exact Hwf|]. split; [intros H; exact H|].
    intros key _ _ H; exact H.
  - inversion Hf as [|? ? Ho Hf']; subst. cbn [fold_left].
    destruct (by_position_run_op (num_scenario b) o b Ho Hwf eq_refl)
      as (Hwf1 & Hn1 & Hle1 & Heq1).
    destruct (IH (run_op o b) Hf' Hwf1 Hn1) as (Hwf2 & Hle2 & Heq2).
    split; [exact Hwf2|]. split.
    + intros H. apply Hle2. now apply Hle1.
    + intros key Hk Hcar H. inversion Hcar as [|? ? Hco Hcar']; subst.
      apply Heq2; [exact Hk|exact Hcar'|]. now apply Heq1.
Qed.

(** C4, as amended.  On a batch [store] accepts, each key other than
    ['scenario_id'] of an entry that carries at batch position [i] the
    scenario id [i] is appended to the same-named extra column of scenario
    id [i], the column being created on first sight; a key the entry does
    not carry leaves its column as it was (no backfill), and the slots
    beyond the batch keep their columns.  When every entry of the batch is
    tagged with its position, the main fields of each id of the batch grow
    by one.  Hence, on a buffer built from a new one by calls tagged by
    position, an extra column of a scenario id is never longer than the
    main fields of that id, and it is exactly as long when every stored
    entry carried its key.

    Entries whose scenario id differs from their batch position are left
    out of the statement: lines 81-83 index the extra dictionaries by the
    batch position where lines 70-75 index the buckets by the scenario id,
    so such an entry leaves its keys in the slot of its position and the
    relation between column and main fields is lost. *)
Theorem store_extra_columns :
  (forall b (data : data_list V) tags,
     wf_extra b -> covers data (length tags) ->
     length tags <= num_scenario b ->
     Forall (fun tag => sid_in_range (num_scenario b) tag = true) tags ->
     exists b',
       store data tags b = Ok tt b' /\
       (forall i tag, nth_error tags i = Some tag ->
          dict_get "scenario_id" tag = Some (VInt (Z.of_nat i)) ->
          is_dict tag ->
          forall key, key <> "scenario_id"%string ->
            match dict_get key tag with
            | Some v => column_of b' i key = Some (extra_col b i key ++ [v])
            | None => column_of b' i key = column_of b i key
            end) /\
       (forall i, length tags <= i ->
          forall key, column_of b' i key = column_of b i key) /\
       (forall i, aligned_at b' i) /\
       (tagged_by_position tags ->
        (forall i, i < length tags ->
           length (nth i (buffer_rewards b') []) =
           S (length (nth i (buffer_rewards b) []))) /\
        (forall i, length tags <= i ->
           nth i (buffer_rewards b') [] = nth i (buffer_rewards b) []))) /\
  (forall n mode capacity (ops : list Generic.op),
     Forall (by_position n) ops ->
     forall s key,
       aligned_at (run ops (@ReplayBuffer.init V n mode capacity)) s /\
       length (extra_col (run ops (@ReplayBuffer.init V n mode capacity)) s key)
       <= length (nth s (buffer_rewards
                           (run ops (@ReplayBuffer.init V n mode capacity))) []) /\
       (key <> "scenario_id"%string -> Forall (store_carries key) ops ->
        length (extra_col (run ops (@ReplayBuffer.init V n mode capacity)) s key)
        = length (nth s (buffer_rewards
                           (run ops (@ReplayBuffer.init V n mode capacity))) []))).
Proof.
  split.
  - intros b data tags Hwf Hc Hn Hf.
    destruct (store_loop_routed data tags b (length tags) Hwf Hc Hn Hf (le_n _))
      as (b' & E & Hwf' & _ & _ & Hge & Hlt).
    exists b'. split; [exact E|]. split; [|split; [|split]].
    + intros i tag Et _ Hd key Hk.
      assert (Hi : i < length tags) by (apply nth_error_Some; now rewrite Et).
      destruct (Hlt i tag Hi Et) as (d & D1 & D2).
      unfold extra_col, column_of. rewrite D1, D2.
      rewrite register_all_get by assumption.
      destruct (dict_get key tag); reflexivity.
    + intros i Hi key. unfold column_of. now rewrite (Hge i Hi).
    + intros i. apply aligned_at_of_aligned. apply Hwf'.
    + intros Ht.
      destruct (store_loop_upto data tags b (length tags) Hwf Hc Hn Ht (le_n _))
        as (b'' & E' & _ & _ & Uge & Ult).
      rewrite E in E'. injection E' as <-. split.
      * intros i Hi.
        destruct (nth_error tags i) as [tag|] eqn:Et;
          [|apply nth_error_None in Et; lia].
        destruct (Ult i tag Hi Et) as (d & c & r & _ & _ & R1 & R2).
        rewrite (nth_error_nth _ _ _ R1), (nth_error_nth _ _ _ R2), length_app.
        cbn. lia.
      * intros i Hi. apply nth_of_nth_error. apply (Uge i Hi).
  - intros n mode capacity ops Hf s key.
    assert (Hwf0 : wf_extra (@ReplayBuffer.init V n mode capacity)).
    { unfold wf_extra, wf. cbn. rewrite !repeat_length.
      split; [split; [apply aligned_init|reflexivity]|reflexivity]. }
    assert (Hz : forall s key,
               length (extra_col (@ReplayBuffer.init V n mode capacity) s key) = 0 /\
               length (nth s (buffer_rewards
                                (@ReplayBuffer.init V n mode capacity)) []) = 0).
    { intros s0 key0. split.
      - now apply (extra_col_empty _ s0 key0 n).
      - cbn. now rewrite nth_repeat. }
    destruct (by_position_run n ops _ Hf Hwf0 eq_refl) as (Hwf1 & Hle & Heq).
    split; [apply aligned_at_of_aligned; apply Hwf1|]. split.
    + apply Hle. intros s0 key0. destruct (Hz s0 key0) as [-> ->]. lia.
    + intros Hk Hcar. apply (Heq key Hk Hcar).
      intros s0. destruct (Hz s0 key) as [-> ->]. reflexivity.
Qed.

End ExtraColumnsTheorem.

(** ** What the calls keep *)

Section Kept.

Import ReplayBuffer Generic.

Context {V : Type}.

Implicit Types b : ReplayBuffer.t V.

(** A property kept by each of the seven writes of an iteration of [store]
    is kept by the iteration, whether it returns or raises. *)
Lemma store_row_preserves (P : ReplayBuffer.t V -> Prop) data tags s_i b :
  (forall k x b1, P b1 ->
     P (set_buffer_ego_actions (app_at k x (buffer_ego_actions b1)) b1)) ->
  (forall k x b1, P b1 ->
     P (set_buffer_scenario_actions
          (app_at k x (buffer_scenario_actions b1)) b1)) ->
  (forall k x b1, P b1 -> P (set_buffer_obs (app_at k x (buffer_obs b1)) b1)) ->
  (forall k x b1, P b1 ->
     P (set_buffer_next_obs (app_at k x (buffer_next_obs b1)) b1)) ->
  (forall k x b1, P b1 ->
     P (set_buffer_rewards (app_at k x (buffer_rewards b1)) b1)) ->
  (forall k x b1, P b1 ->
     P (set_buffer_dones (app_at k x (buffer_dones b1)) b1)) ->
  (forall i d b1, P b1 ->
     P (set_buffer_additional_dict
          (set_at i d (buffer_additional_dict b1)) b1)) ->
  P b -> P (state_of (store_row data tags s_i b)).
Proof.
  intros H1 H2 H3 H4 H5 H6 H7 H. unfold store_row.
  apply bind_state_inv; [unfold lift; now rewrite reads_state|].
  intros tag s1 Hs1.
  apply bind_state_inv; [unfold lift; now rewrite reads_state|].
  intros sid s2 Hs2.
  assert (Hb : forall A get set (col : list A) s,
             (forall k x b1, P b1 -> P (set (app_at k x (get b1)) b1)) ->
             P s -> P (state_of (bucket_append get set sid col s_i s))).
  { intros A get set col s Hset Hs. unfold bucket_append.
    destruct sid as [i|v]; [|exact Hs].
    destruct (py_index (length (get s)) i); [|exact Hs].
    destruct (nth_error col s_i); [|exact Hs].
    cbn. now apply Hset. }
  apply bind_state_inv; [now apply Hb|]. intros _ s3 Hs3.
  apply bind_state_inv; [now apply Hb|]. intros _ s4 Hs4.
  apply bind_state_inv; [now apply Hb|]. intros _ s5 Hs5.
  apply bind_state_inv; [now apply Hb|]. intros _ s6 Hs6.
  apply bind_state_inv; [now apply Hb|]. intros _ s7 Hs7.
  apply bind_state_inv; [now apply Hb|]. intros _ s8 Hs8.
  clear - H7 Hs8. revert s8 Hs8.
  induction tag as [|[key v] items IH]; intros s Hs; [exact Hs|].
  cbn [store_extras].
  destruct (String.eqb key "scenario_id"); [now apply IH|].
  apply bind_state_inv; [|intros _ s' Hs'; now apply IH].
  unfold extra_append.
  destruct (nth_error (buffer_additional_dict s) s_i); [|exact Hs].
  cbn. now apply H7.
Qed.

Lemma store_preserves (P : ReplayBuffer.t V -> Prop) data tags b :
  (forall x b1, P b1 -> P (set_buffer_len x b1)) ->
  (forall k x b1, P b1 ->
     P (set_buffer_ego_actions (app_at k x (buffer_ego_actions b1)) b1)) ->
  (forall k x b1, P b1 ->
     P (set_buffer_scenario_actions
          (app_at k x (buffer_scenario_actions b1)) b1)) ->
  (forall k x b1, P b1 -> P (set_buffer_obs (app_at k x (buffer_obs b1)) b1)) ->
  (forall k x b1, P b1 ->
     P (set_buffer_next_obs (app_at k x (buffer_next_obs b1)) b1)) ->
  (forall k x b1, P b1 ->
     P (set_buffer_rewards (app_at k x (buffer_rewards b1)) b1)) ->
  (forall k x b1, P b1 ->
     P (set_buffer_dones (app_at k x (buffer_dones b1)) b1)) ->
  (forall i d b1, P b1 ->
     P (set_buffer_additional_dict
          (set_at i d (buffer_additional_dict b1)) b1)) ->
  P b -> P (state_of (store data tags b)).
Proof.
  intros H0 H1 H2 H3 H4 H5 H6 H7 H.
  unfold store, bind, modify, for_range.
  apply (for_each_state_inv P).
  - intros i s _ Hs. now apply store_row_preserves.
  - now apply H0.
Qed.

Lemma grows_refl {A} (l : list (list A)) : grows l l.
Proof.
  split; [reflexivity|]. intros s. exists []. now rewrite app_nil_r.
Qed.

Lemma grows_trans {A} (l1 l2 l3 : list (list A)) :
  grows l1 l2 -> grows l2 l3 -> grows l1 l3.
Proof.
  intros [L1 G1] [L2 G2]. split; [congruence|].
  intros s. destruct (G1 s) as [x1 E1]. destruct (G2 s) as [x2 E2].
  exists (x1 ++ x2). now rewrite E2, E1, app_assoc.
Qed.

Lemma grows_app_at {A} (k : nat) (x : A) (l : list (list A)) :
  grows l (app_at k x l).
Proof.
  split; [apply length_app_at|]. intros s.
  destruct (Nat.lt_ge_cases k (length l)) as [Hk|Hk].
  - rewrite nth_app_at by exact Hk. eauto.
  - exists []. rewrite app_nil_r. f_equal.
    clear s. revert k Hk; induction l as [|h t IH]; intros k Hk; [reflexivity|].
    destruct k as [|k]; cbn in *; [lia|]. f_equal. apply IH. lia.
Qed.

Lemma history_kept_refl b : history_kept b b.
Proof.
  unfold history_kept.
  repeat (match goal with |- _ /\ _ => split end); apply grows_refl.
Qed.

Lemma history_kept_store data tags b :
  history_kept b (state_of (store data tags b)).
Proof.
  apply (store_preserves (history_kept b)); try apply history_kept_refl;
    intros until b1; intros (G1 & G2 & G3 & G4 & G5 & G6);
    unfold history_kept; cbn -[grows];
    repeat (match goal with |- _ /\ _ => split end); try assumption;
    (eapply grows_trans; [eassumption|apply grows_app_at]).
Qed.

Lemma history_kept_run_op (o : Generic.op) b :
  is_reset_buffer o = false -> history_kept b (run_op o b).
Proof.
  intros Ho. destruct o; cbn [run_op]; try discriminate.
  - apply history_kept_store.
  - exact (history_kept_refl b).
  - destruct (finish_one_episode_state b) as [vals ->].
    exact (history_kept_refl b).
  - unfold sample. rewrite reads_state. apply history_kept_refl.
  - unfold sample_init. rewrite reads_state. apply history_kept_refl.
  - exact (history_kept_refl b).
Qed.

Lemma history_kept_trans b1 b2 b3 :
  history_kept b1 b2 -> history_kept b2 b3 -> history_kept b1 b3.
Proof.
  intros (A1 & A2 & A3 & A4 & A5 & A6) (B1 & B2 & B3 & B4 & B5 & B6).
  unfold history_kept.
  repeat (match goal with |- _ /\ _ => split end);
    eapply grows_trans; eassumption.
Qed.

(** X3.  Storage is append-only: over any sequence of calls other than
    [reset_buffer], on any input and whether the calls return or raise,
    every bucket of every field keeps what it held as a prefix, and the
    sampling capacity and the number of slots stay what they were.  The
    capacity never evicts. *)
Theorem history_is_kept (ops : list Generic.op) b :
  Forall (fun o => is_reset_buffer o = false) ops ->
  history_kept b (run ops b) /\
  buffer_capacity (run ops b) = buffer_capacity b /\
  num_scenario (run ops b) = num_scenario b.
Proof.
  unfold run. revert b; induction ops as [|o ops IH]; intros b Hf.
  - cbn. split; [apply history_kept_refl|]. split; reflexivity.
  - inversion Hf as [|? ? Ho Hf']; subst. cbn [fold_left].
    destruct (IH (run_op o b) Hf') as (H1 & H2 & H3).
    split; [|split].
    + eapply history_kept_trans; [|exact H1]. now apply history_kept_run_op.
    + rewrite H2. destruct o; cbn [run_op]; try discriminate; try reflexivity.
      * apply (store_frame data additional_dict b).
      * destruct (finish_one_episode_state b) as [vals ->]. reflexivity.
      * unfold sample. now rewrite reads_state.
      * unfold sample_init. now rewrite reads_state.
    + rewrite H3. destruct o; cbn [run_op]; try discriminate; try reflexivity.
      * apply (store_frame data additional_dict b).
      * destruct (finish_one_episode_state b) as [vals ->]. reflexivity.
      * unfold sample. now rewrite reads_state.
      * unfold sample_init. now rewrite reads_state.
Qed.

Lemma init_consistent_run_op (o : Generic.op) b :
  init_consistent b -> init_consistent (run_op o b).
Proof.
  intros [H1 H2]. destruct o; cbn [run_op].
  - destruct (store_frame data additional_dict b)
      as (_ & _ & _ & _ & F5 & F6 & _ & _ & F9).
    unfold init_consistent. rewrite F5, F6, F9. cbn. now split.
  - unfold init_consistent. cbn.
    rewrite concat_app, !length_app, H1, H2. cbn. rewrite app_nil_r.
    split; lia.
  - destruct (finish_one_episode_state b) as [vals ->]. now split.
  - unfold sample. rewrite reads_state. now split.
  - unfold sample_init. rewrite reads_state. now split.
  - now split.
  - split; reflexivity.
Qed.

(** X4.  Whatever the calls and their outcomes, [init_buffer_len] is the
    number of [init_action] rows recorded since the last
    [reset_init_buffer], and there is one [static_obs] per recorded
    [init_action] batch. *)
Theorem init_side_consistent n mode capacity (ops : list Generic.op) :
  init_consistent (run ops (@ReplayBuffer.init V n mode capacity)).
Proof.
  assert (H0 : init_consistent (@ReplayBuffer.init V n mode capacity))
    by (split; reflexivity).
  revert H0. generalize (@ReplayBuffer.init V n mode capacity).
  unfold run. induction ops as [|o ops IH]; intros b Hb; [exact Hb|].
  cbn [fold_left]. apply IH. now apply init_consistent_run_op.
Qed.

End Kept.

(** ** Counting what is stored *)

Lemma for_each_ok_count {S} (Q : nat -> S -> Prop) (l : list nat)
    (body : nat -> M S unit) :
  (forall i s1 s2 c, In i l -> Q c s1 -> body i s1 = Ok tt s2 -> Q (Datatypes.S c) s2) ->
  forall c s s', Q c s -> for_each l body s = Ok tt s' -> Q (c + length l) s'.
Proof.
  induction l as [|i l IH]; intros Hbody c s s' Hq E.
  - cbn in E. injection E as <-. now rewrite Nat.add_0_r.
  - cbn [for_each] in E. unfold bind in E.
    destruct (body i s) as [[] s1|e s1] eqn:Ei; [|discriminate].
    cbn [length]. rewrite Nat.add_succ_r.
    apply (IH (fun j s1 s2 c' Hj => Hbody j s1 s2 c' (or_intror Hj))
              (Datatypes.S c) s1 s'); [|exact E].
    eapply Hbody; eauto. now left.
Qed.

Lemma length_concat_app_at {A} (k : nat) (x : A) (l : list (list A)) :
  k < length l -> length (concat (app_at k x l)) = S (length (concat l)).
Proof.
  revert k; induction l as [|h t IH]; intros k Hk; [cbn in Hk; lia|].
  destruct k as [|k]; cbn [app_at concat].
  - rewrite !length_app. cbn. lia.
  - rewrite !length_app, IH by (cbn in Hk; lia). lia.
Qed.

Section Counting.

Context {V : Type}.

Lemma counted_store (b b' : ReplayBuffer.t V) data tags :
  Generic.aligned b -> Generic.batch_aligned data tags -> Generic.counted b ->
  ReplayBuffer.store data tags b = Ok tt b' ->
  Generic.counted b'.
Proof.
  intros Ha Hb Hc E. unfold Generic.counted in *.
  pose proof (store_frame data tags b) as F. rewrite E in F.
  destruct F as (_ & _ & _ & F4 & _). cbn in F4. rewrite F4.
  unfold ReplayBuffer.store, bind, modify, for_range in E.
  apply (for_each_ok_count
           (fun c s => Generic.aligned s /\
                       length (concat (ReplayBuffer.buffer_rewards s)) =
                       length (concat (ReplayBuffer.buffer_rewards b)) + c))
    with (c := 0) in E.
  - destruct E as [_ E]. rewrite E, length_seq.
    destruct Hb as (_ & _ & _ & _ & L5 & _). rewrite Hc, L5. lia.
  - intros i s1 s2 c Hi [Hs1 Hl] Ei. apply in_seq in Hi.
    destruct (store_row_cases data tags i s1 Hs1 Hb ltac:(lia))
      as [[e Er]|(tag & k & ea & sa & o & no & r & d & _ & Hk & _ & _ & _ & _
                  & _ & _ & _ & Er)]; rewrite Er in Ei; [discriminate|].
    assert (E2 : s2 = state_of (ReplayBuffer.store_extras i tag
                   (Generic.append_transition k ea sa o no r d s1)))
      by now rewrite Ei.
    subst s2. split.
    + apply aligned_store_extras. now apply aligned_append_transition.
    + destruct (store_extras_buckets i tag
                  (Generic.append_transition k ea sa o no r d s1))
        as (_ & _ & _ & _ & B5 & _).
      rewrite B5. cbn. rewrite length_concat_app_at by exact Hk. lia.
  - split; [exact Ha|]. cbn. lia.
Qed.

Lemma p_counted_store (b b' : ReplayBuffer_Perception.t V) data_list :
  Perception.wf b -> Perception.batch_aligned data_list -> Perception.counted b ->
  ReplayBuffer_Perception.store data_list b = Ok tt b' ->
  Perception.counted b'.
Proof.
  intros [Ha Hn] Hb Hc E. unfold Perception.counted in *.
  destruct data_list as [|ego [|scen [|ob [|infos [|? ?]]]]]; try contradiction.
  unfold ReplayBuffer_Perception.store, bind, modify, for_range in E.
  apply (for_each_ok_count
           (fun c s => Perception.aligned s /\
                       ReplayBuffer_Perception.buffer_len s =
                       (ReplayBuffer_Perception.buffer_len b
                        + Z.of_nat (length infos))%Z /\
                       length (concat (ReplayBuffer_Perception.buffer_loss s)) =
                       length (concat (ReplayBuffer_Perception.buffer_loss b)) + c))
    with (c := 0) in E.
  - destruct E as (_ & E1 & E2). rewrite E1, E2, length_seq, Hc. lia.
  - intros i s1 s2 c Hi (Hs1 & Hbl & Hl) Ei. apply in_seq in Hi.
    destruct (p_store_row_cases ego scen ob infos i s1 Hs1 Hb ltac:(lia))
      as [[e Er]|(j & k & pr & sa & o & bl & l & _ & Hk & _ & _ & _ & _ & _ & Er)];
      rewrite Er in Ei; [discriminate|].
    injection Ei as <-. split; [|split].
    + now apply p_aligned_append_record.
    + exact Hbl.
    + cbn. rewrite length_concat_app_at by (eapply py_index_lt; eauto). lia.
  - split; [exact Ha|]. split; [reflexivity|]. cbn. lia.
Qed.

(** X5.  In both variants [buffer_len] is the number of stored entries as
    long as every [store] call was given an aligned batch and returned and
    [reset_buffer] was not called ([reset_buffer] empties the buckets and
    leaves [buffer_len] as it is; a [store] that raises has already added the
    whole batch to [buffer_len]). *)
Theorem buffer_len_counts :
  (forall n mode capacity (ops : list Generic.op),
     Forall Generic.op_aligned ops ->
     Forall (fun o => Generic.is_reset_buffer o = false) ops ->
     Generic.stores_return ops (@ReplayBuffer.init V n mode capacity) ->
     Generic.counted (Generic.run ops (@ReplayBuffer.init V n mode capacity))) /\
  (forall n mode capacity (ops : list Perception.op),
     Forall Perception.op_aligned ops ->
     Perception.stores_return ops (@ReplayBuffer_Perception.init V n mode capacity) ->
     Perception.counted
       (Perception.run ops (@ReplayBuffer_Perception.init V n mode capacity))).
Proof.
  split.
  - intros n mode capacity ops.
    assert (H0 : Generic.aligned (@ReplayBuffer.init V n mode capacity) /\
                 Generic.counted (@ReplayBuffer.init V n mode capacity)).
    { split; [apply aligned_init|]. unfold Generic.counted. cbn.
      induction n as [|n IH]; [reflexivity|exact IH]. }
    revert H0. generalize (@ReplayBuffer.init V n mode capacity).
    unfold Generic.run.
    induction ops as [|o ops IH]; intros b [Ha Hc] Hal Hnr Hret; [exact Hc|].
    inversion Hal as [|? ? Ho Hal']; subst.
    inversion Hnr as [|? ? Hr Hnr']; subst.
    destruct Hret as [Hret1 Hret2].
    cbn [fold_left]. apply IH; try assumption.
    split; [now apply aligned_run_op|].
    destruct o; cbn [Generic.run_op]; try discriminate.
    + destruct (ReplayBuffer.store data additional_dict b) as [[] b'|e b'] eqn:E;
        [|discriminate].
      cbn. eapply counted_store; eauto.
    + exact Hc.
    + destruct (finish_one_episode_state b) as [vals ->]. exact Hc.
    + unfold ReplayBuffer.sample. now rewrite reads_state.
    + unfold ReplayBuffer.sample_init. now rewrite reads_state.
    + exact Hc.
  - intros n mode capacity ops.
    assert (H0 : Perception.wf (@ReplayBuffer_Perception.init V n mode capacity) /\
                 Perception.counted (@ReplayBuffer_Perception.init V n mode capacity)).
    { split; [split; [apply p_aligned_init|cbn; apply repeat_length]|].
      unfold Perception.counted. cbn.
      induction n as [|n IH]; [reflexivity|exact IH]. }
    revert H0. generalize (@ReplayBuffer_Perception.init V n mode capacity).
    unfold Perception.run.
    induction ops as [|o ops IH]; intros b [Hw Hc] Hal Hret; [exact Hc|].
    inversion Hal as [|? ? Ho Hal']; subst.
    destruct Hret as [Hret1 Hret2].
    cbn [fold_left]. apply IH; try assumption.
    split; [now apply p_wf_run_op|].
    destruct o; cbn [Perception.run_op]; try exact Hc.
    + destruct (ReplayBuffer_Perception.store data_list b) as [[] b'|e b'] eqn:E;
        [|discriminate].
      cbn. eapply p_counted_store; eauto.
    + unfold ReplayBuffer_Perception.sample. now rewrite reads_state.
Qed.

End Counting.

(** ** The sampling budget *)

Section Budget.

Context {V : Type}.




Lemma window_empty (n : nat) (capacity : Z) :
  (capacity < Z.of_nat n)%Z -> Z.to_nat (capacity / Z.of_nat n) = 0.
Proof.
  intros Hc. destruct n as [|n]; [cbn [Z.of_nat]; now rewrite Z.div_0_r|].
  assert (capacity / Z.of_nat (S n) < 1)%Z
    by (apply Z.div_lt_upper_bound; lia).
  lia.
Qed.

Lemma pool_empty {A} (w : Z) (buckets : list (list A)) :
  Z.to_nat w = 0 -> Spec.pool w buckets = [].
Proof.
  intros Hw. unfold Spec.pool, Spec.newest. rewrite Hw.
  induction buckets as [|h t IH]; [reflexivity|].
  cbn [map concat]. rewrite Nat.sub_0_r, skipn_all, IH. reflexivity.
Qed.

Lemma p_sample_pure_empty (b : ReplayBuffer_Perception.t V) batch_size g :
  Perception.wf b -> Perception.pool_length b = 0 ->
  ReplayBuffer_Perception.sample_pure batch_size g b = inl ValueError \/
  ReplayBuffer_Perception.sample_pure batch_size g b = inl ZeroDivisionError.
Proof.
  intros Hwf Hp. unfold ReplayBuffer_Perception.sample_pure.
  destruct (Nat.eq_dec (ReplayBuffer_Perception.num_scenario b) 0) as [Hz|Hz].
  - right. unfold ReplayBuffer_Perception.prepare. now rewrite Hz.
  - left. rewrite (p_prepare_ok b Hwf Hz). unfold rbind at 1.
    fold (Perception.pool_length b). rewrite Hp. reflexivity.
Qed.


(** X7.  A capacity below the number of scenario slots gives every slot a
    window of zero entries: [sample] raises whatever is stored and whatever
    the batch size, in both variants. *)
Theorem sample_needs_capacity :
  (forall (b : ReplayBuffer.t V) batch_size g,
     Generic.wf b ->
     (ReplayBuffer.buffer_capacity b < Z.of_nat (ReplayBuffer.num_scenario b))%Z ->
     fails (ReplayBuffer.sample batch_size g b)) /\
  (forall (b : ReplayBuffer_Perception.t V) batch_size g,
     Perception.wf b ->
     (ReplayBuffer_Perception.buffer_capacity b
      < Z.of_nat (ReplayBuffer_Perception.num_scenario b))%Z ->
     fails (ReplayBuffer_Perception.sample batch_size g b)).
Proof.
  split.
  - intros b batch_size g Hwf Hc.
    assert (Hp : Generic.pool_length b = 0).
    { unfold Generic.pool_length, Generic.pools. cbn.
      rewrite pool_empty; [reflexivity|]. now apply window_empty. }
    unfold ReplayBuffer.sample, reads, fails.
    destruct (sample_pure_empty b batch_size g Hwf Hp) as [-> | ->]; eauto.
  - intros b batch_size g Hwf Hc.
    assert (Hp : Perception.pool_length b = 0).
    { unfold Perception.pool_length, Perception.pools. cbn.
      rewrite pool_empty; [reflexivity|]. now apply window_empty. }
    unfold ReplayBuffer_Perception.sample, reads, fails.
    destruct (p_sample_pure_empty b batch_size g Hwf Hp) as [-> | ->]; eauto.
Qed.

End Budget.

(** ** Init records of one row *)

Section InitPairs.

Import ReplayBuffer Generic.

Context {V : Type}.

Implicit Types b : ReplayBuffer.t V.

Lemma rows_at_nth {A} (l : list A) idx rows k i :
  Spec.rows_at l idx rows -> nth_error idx k = Some i ->
  exists x, nth_error rows k = Some x /\ nth_error l i = Some x.
Proof.
  unfold Spec.rows_at. intros H Hk.
  apply (f_equal (fun m => nth_error m k)) in H.
  rewrite !nth_error_map, Hk in H. cbn in H.
  destruct (nth_error rows k) as [x|]; cbn in H; [|discriminate].
  exists x. split; [reflexivity|]. now injection H as <-.
Qed.

Lemma rows_at_length {A} (l : list A) idx rows :
  Spec.rows_at l idx rows -> length rows = length idx.
Proof.
  unfold Spec.rows_at. intros H. apply (f_equal (@length _)) in H.
  now rewrite !length_map in H.
Qed.

Lemma concat_single_rows {A} (l : list (list A)) :
  Forall (fun batch => length batch = 1) l ->
  length (concat l) = length l /\
  forall i batch, nth_error l i = Some batch ->
    exists row, batch = [row] /\ nth_error (concat l) i = Some row.
Proof.
  induction 1 as [|h t Hh _ [IHl IHn]]; [split; [reflexivity|]|].
  - intros i batch H. now destruct i.
  - destruct h as [|row [|? ?]]; try discriminate. split.
    + cbn. now rewrite IHl.
    + intros [|i] batch H; cbn in H.
      * injection H as <-. exists row. split; reflexivity.
      * cbn. now apply IHn.
Qed.

Lemma Forall_skipn_of {A} (P : A -> Prop) (n : nat) (l : list A) :
  Forall P l -> Forall P (skipn n l).
Proof.
  intros H. rewrite <- (firstn_skipn n l) in H.
  now apply Forall_app in H.
Qed.

(** X8.  When every [store_init] call recorded a single row, a return is
    recorded for each of them, no extra column is registered and the
    capacity is at least one, [sample_init] returns [batch_size] pairs, and
    each pair is the row of one of the newest [buffer_capacity] records
    together with the return recorded at the same position. *)
Theorem sample_init_pairs b batch_size g :
  Forall (fun batch => length batch = 1) (buffer_init_action b) ->
  length (buffer_init_action b) <= length (buffer_episode_reward b) ->
  buffer_init_additional_dict b = [] ->
  buffer_init_action b <> [] ->
  (1 <= buffer_capacity b)%Z ->
  exists idx bt,
    randint (length (init_window b)) batch_size g = inr idx /\
    sample_init batch_size g b = Ok bt b /\
    length (init_action bt) = batch_size /\
    length (episode_reward bt) = batch_size /\
    forall k i, nth_error idx k = Some i ->
      let j := length (buffer_init_action b) - length (init_window b) + i in
      j < length (buffer_init_action b) /\
      (Z.of_nat (length (buffer_init_action b)) - buffer_capacity b
       <= Z.of_nat j)%Z /\
      (exists row, nth_error (buffer_init_action b) j = Some [row] /\
                   nth_error (init_action bt) k = Some row) /\
      nth_error (episode_reward bt) k = nth_error (buffer_episode_reward b) j.
Proof.
  intros Hone Hret Hex Hne Hcap.
  set (total := length (buffer_init_action b)) in *.
  set (start := total - Z.to_nat (buffer_capacity b)).
  assert (Ew : init_window b = skipn start (buffer_init_action b)) by reflexivity.
  assert (Lw : length (init_window b) = total - start)
    by (rewrite Ew; apply length_skipn).
  assert (Hpos : 0 < total).
  { unfold total. destruct (buffer_init_action b); [contradiction|cbn; lia]. }
  assert (Hw : init_window b <> []).
  { intros E. rewrite E in Lw. cbn in Lw. lia. }
  assert (Er : reward_window b = skipn start (buffer_episode_reward b)).
  { unfold reward_window, init_window_start, np_max0. fold total.
    replace (Z.max 0 (Z.of_nat total - buffer_capacity b))
      with (Z.of_nat start) by lia.
    rewrite slice_from_of_nat. reflexivity. }
  assert (Hsingle : Forall (fun batch => length batch = 1) (init_window b))
    by (rewrite Ew; now apply Forall_skipn_of).
  destruct (concat_single_rows _ Hsingle) as [Lc Hrow].
  destruct (sample_init_pure_cases b batch_size g Hw)
    as (idx & Ei & [(_ & bt & Eb & R1 & R2)|(Hnr & _)]).
  2:{ exfalso. apply Hnr.
      destruct (randint_ok (length (init_window b)) batch_size g) as (idx' & Ei' & _ & F).
      { rewrite Lw. lia. }
      assert (idx' = idx) as -> by congruence.
      unfold init_ready. rewrite Hex, Lc, Er, length_skipn.
      split; [exact F|]. split; [|constructor].
      eapply Forall_impl; [|exact F]. cbn. intros i Hi. rewrite Lw in Hi. lia. }
  destruct (randint_ok (length (init_window b)) batch_size g) as (idx' & Ei' & Li & F).
  { rewrite Lw. lia. }
  assert (idx' = idx) as -> by congruence.
  exists idx, bt. split; [exact Ei|]. split.
  { unfold sample_init, reads. now rewrite Eb. }
  split; [rewrite (rows_at_length _ _ _ R1); exact Li|].
  split; [rewrite (rows_at_length _ _ _ R2); exact Li|].
  intros k i Hk. cbv zeta. rewrite Lw.
  assert (Hi : i < total - start).
  { rewrite Forall_forall in F. rewrite <- Lw. apply F.
    eapply nth_error_In; eauto. }
  replace (total - (total - start) + i) with (start + i) by lia.
  split; [lia|]. split; [lia|]. split.
  - destruct (rows_at_nth _ _ _ _ _ R1 Hk) as (x & Ex & Ec).
    destruct (nth_error (init_window b) i) as [batch|] eqn:Eb';
      [|apply nth_error_None in Eb'; lia].
    destruct (Hrow i batch Eb') as (row & -> & Erow).
    rewrite Ec in Erow. injection Erow as ->.
    exists row. split; [|exact Ex].
    rewrite Ew, nth_error_skipn in Eb'. exact Eb'.
  - destruct (rows_at_nth _ _ _ _ _ R2 Hk) as (x & Ex & Ec).
    rewrite Ex, <- Ec, Er, nth_error_skipn. reflexivity.
Qed.

End InitPairs.

(** ** The episode in progress *)

Section InProgress.

Import ReplayBuffer Generic.

Context {V : Type}.

Implicit Types b : ReplayBuffer.t V.

Lemma filter_none {A} (f : A -> bool) (l : list A) :
  (forall x, In x l -> f x = false) -> filter f l = [].
Proof.
  induction l as [|x l IH]; intros H; [reflexivity|].
  cbn. rewrite (H x (or_introl eq_refl)). apply IH.
  intros y Hy. apply H. now right.
Qed.

Lemma done_indices_app_false (ds : list bool) (k : nat) :
  Spec.done_indices (ds ++ repeat false k) = Spec.done_indices ds.
Proof.
  unfold Spec.done_indices. rewrite length_app, repeat_length, seq_app, filter_app.
  cbn [Nat.add].
  replace (filter (fun i => nth i (ds ++ repeat false k) false)
                  (seq (length ds) k)) with (@nil nat).
  - rewrite app_nil_r. apply filter_ext_in. intros i Hi. apply in_seq in Hi.
    apply app_nth1. lia.
  - symmetry. apply filter_none.
    intros i Hi. apply in_seq in Hi.
    rewrite app_nth2 by lia.
    destruct (nth_in_or_default (i - length ds) (repeat false k) false) as [H| ->];
      [|reflexivity].
    apply repeat_spec in H. now rewrite H.
Qed.

Lemma span_sum_app (rs rs' : list Z) (lo hi : nat) :
  hi < length rs -> Spec.span_sum (rs ++ rs') lo hi = Spec.span_sum rs lo hi.
Proof.
  intros H. unfold Spec.span_sum. f_equal. apply map_ext_in.
  intros i Hi. apply in_seq in Hi. apply app_nth1. lia.
Qed.

(** Transitions appended with a false done flag do not change the return of
    the last completed episode. *)
Lemma episode_return_extend (rs rs' : list Z) (ds : list bool) (k : nat) :
  length rs = length ds ->
  Spec.episode_return (rs ++ rs') (ds ++ repeat false k) =
  Spec.episode_return rs ds.
Proof.
  intros Hl. unfold Spec.episode_return. rewrite done_indices_app_false.
  destruct (rev (Spec.done_indices ds)) as [|e [|p r]] eqn:E; [reflexivity| |];
    (assert (He : e < length rs);
     [ rewrite Hl; apply nth_error_Some;
       assert (I : In e (Spec.done_indices ds))
         by (apply in_rev; rewrite E; now left);
       apply done_indices_In in I; now rewrite I
     | now rewrite span_sum_app ]).
Qed.

Lemma finish_loop_returns b (l : list nat) vals :
  returns_of b l vals ->
  (forall s, In s l ->
     s < length (buffer_dones b) /\ s < length (buffer_rewards b)) ->
  for_each l finish_row b =
  Ok tt (set_buffer_episode_reward (buffer_episode_reward b ++ vals) b).
Proof.
  revert b vals. induction l as [|s l IH]; intros b vals H Hl;
    inversion H as [|? v ? vals' Hv Hvals]; subst.
  - cbn. unfold ret. rewrite app_nil_r. now destruct b.
  - destruct (Hl s (or_introl eq_refl)) as [Hd Hr].
    pose proof (finish_row_ok b s _ _ v
                  (nth_error_nth' _ [] Hd) (nth_error_nth' _ [] Hr) Hv) as Hrow.
    cbn [for_each]. rewrite (bind_ok _ _ _ _ _ Hrow).
    rewrite (IH (set_buffer_episode_reward (buffer_episode_reward b ++ [v]) b)
                vals').
    + cbn. now rewrite <- app_assoc.
    + exact Hvals.
    + intros s' Hs'. apply Hl. now right.
Qed.

(** X9.  Transitions stored after the last done marker of a scenario id (the
    episode in progress, done flags all false) do not change what
    [finish_one_episode] appends: on a buffer that extends another one by
    such transitions only, the call appends the same returns. *)
Theorem finish_ignores_episode_in_progress b b' vals :
  length (buffer_dones b) = num_scenario b ->
  length (buffer_rewards b) = num_scenario b ->
  num_scenario b' = num_scenario b ->
  length (buffer_dones b') = num_scenario b ->
  length (buffer_rewards b') = num_scenario b ->
  (forall s, s < num_scenario b ->
     length (nth s (buffer_rewards b) []) = length (nth s (buffer_dones b) []) /\
     exists rs' k,
       nth s (buffer_rewards b') [] = nth s (buffer_rewards b) [] ++ rs' /\
       nth s (buffer_dones b') [] = nth s (buffer_dones b) [] ++ repeat false k) ->
  finish_one_episode b =
    Ok tt (set_buffer_episode_reward (buffer_episode_reward b ++ vals) b) ->
  finish_one_episode b' =
    Ok tt (set_buffer_episode_reward (buffer_episode_reward b' ++ vals) b').
Proof.
  intros Hd Hr Hn Hd' Hr' Hext E.
  unfold finish_one_episode, for_range in *. rewrite Hn.
  apply finish_loop_inv in E as (vals0 & Hv & E).
  apply (f_equal buffer_episode_reward) in E. cbn in E.
  apply app_inv_head in E. subst vals0.
  apply finish_loop_returns.
  - unfold returns_of in *.
    assert (Hin : forall s, In s (seq 0 (num_scenario b)) -> s < num_scenario b)
      by (intros s Hs; apply in_seq in Hs; lia).
    revert Hin. induction Hv as [|s v l vs Hsv _ IH]; intros Hin; constructor.
    + destruct (Hext s (Hin s (or_introl eq_refl))) as (Hl & rs' & k & -> & ->).
      now rewrite episode_return_extend.
    + apply IH. intros s' Hs'. apply Hin. now right.
  - intros s Hs. apply in_seq in Hs. lia.
Qed.

End InProgress.

(** ** The leading vehicle scenario *)

Section LeadingVehicle.

Import OtherLeadingVehicle.

Context {Transform Actor F : Type}.

Implicit Types s : OtherLeadingVehicle.t Transform Actor F.

Lemma calls_eq (cs : list (command Transform)) s :
  calls cs s =
  {| dece_distance := dece_distance s;
     dece_target_speed := dece_target_speed s;
     need_decelerate := need_decelerate s;
     other_actor_speed := other_actor_speed s;
     other_actor_transform := other_actor_transform s;
     other_actors := other_actors s;
     step := step s; control_seq := control_seq s;
     total_steps := total_steps s;
     actor_transform_list := actor_transform_list s;
     perturbed_actor_transform_list := perturbed_actor_transform_list s;
     operations := operations s ++ cs |}.
Proof.
  unfold calls. revert s; induction cs as [|c cs IH]; intros s.
  - cbn. rewrite app_nil_r. now destruct s.
  - cbn [fold_left]. rewrite IH. cbn. now rewrite <- app_assoc.
Qed.

(** The actors that are not steered to a target are sent straight on. *)
Lemma straight_loop (l : list nat) s :
  (forall i, In i l ->
     (i =? 0) && need_decelerate s = false /\
     i < length (other_actor_speed s)) ->
  for_each l update_actor s = Ok tt (calls (straight s l) s).
Proof.
  revert s; induction l as [|i l IH]; intros s H; [reflexivity|].
  destruct (H i (or_introl eq_refl)) as [Hi Hlt].
  cbn [for_each]. unfold bind, update_actor at 1. rewrite Hi.
  unfold lookup. rewrite (nth_error_nth' _ 0%Z Hlt).
  rewrite IH; [reflexivity|].
  intros j Hj. cbn. apply H. now right.
Qed.

(** The target index: the step while it is below [total_steps], the last
    entry afterwards. *)
Lemma target_clamped (l : list Transform) (st total : nat) :
  length l = total -> 0 < total ->
  exists target,
    nth_error l (Nat.min st (total - 1)) = Some target /\
    py_get l (if st <? total then Z.of_nat st else (-1)%Z) = inr target.
Proof.
  intros Hl Hpos. destruct (Nat.ltb_spec st total) as [Hlt|Hge].
  - rewrite Nat.min_l by lia.
    destruct (nth_error l st) as [x|] eqn:E;
      [|apply nth_error_None in E; lia].
    exists x. split; [reflexivity|].
    unfold py_get. rewrite py_index_nonneg by lia. now rewrite E.
  - rewrite Nat.min_r by lia.
    destruct (exists_last (l := l)) as (l' & x & ->).
    { intros ->. cbn in Hl. lia. }
    exists x. rewrite length_app in Hl. cbn in Hl. split.
    + rewrite nth_error_app2 by lia.
      replace (total - 1 - length l') with 0 by lia. reflexivity.
    + apply py_get_last.
Qed.

Lemma set_need_same s :
  need_decelerate s = true -> set_need_decelerate true s = s.
Proof. intros H. destruct s. cbn in *. now subst. Qed.

Lemma latch_set (d : QArith_base.Q) s :
  decelerating d s ->
  (if negb (QArith_base.Qle_bool d (QArith_base.inject_Z (dece_distance s)))
   then set_need_decelerate true s else s) = set_need_decelerate true s.
Proof.
  intros [H|H].
  - rewrite (set_need_same s H). now destruct (negb _).
  - destruct (QArith_base.Qle_bool d (QArith_base.inject_Z (dece_distance s)))
      eqn:E; [|reflexivity].
    apply QArith_base.Qle_bool_iff in E.
    exfalso. exact (QArith_base.Qlt_not_le _ _ H E).
Qed.

Lemma latch_unset (d : QArith_base.Q) s :
  ~ decelerating d s ->
  need_decelerate s = false /\
  (if negb (QArith_base.Qle_bool d (QArith_base.inject_Z (dece_distance s)))
   then set_need_decelerate true s else s) = s.
Proof.
  intros H. unfold decelerating in H. split.
  - destruct (need_decelerate s); [exfalso; auto|reflexivity].
  - destruct (QArith_base.Qle_bool d (QArith_base.inject_Z (dece_distance s)))
      eqn:E; [reflexivity|].
    exfalso. apply H. right. apply QArith_base.Qnot_le_lt.
    intros Hle. apply QArith_base.Qle_bool_iff in Hle. congruence.
Qed.

Lemma decelerating_dec (d : QArith_base.Q) s :
  decelerating d s \/ ~ decelerating d s.
Proof.
  unfold decelerating. destruct (need_decelerate s); [now left; left|].
  destruct (QArith_base.Qlt_le_dec (QArith_base.inject_Z (dece_distance s)) d)
    as [H|H].
  - left. now right.
  - right. intros [H'|H']; [discriminate|].
    exact (QArith_base.Qlt_not_le _ _ H' H).
Qed.

Lemma update_decelerating_eq (d : QArith_base.Q) s :
  ready s -> decelerating d s ->
  exists target,
    nth_error (perturbed_actor_transform_list s)
              (Nat.min (step s) (total_steps s - 1)) = Some target /\
    update_behavior d s =
    Ok tt (calls (drive_to_target_followlane 0 target (dece_target_speed s)
                  :: straight s (seq 1 (length (other_actors s) - 1)))
                 (set_step (step s + 1) (set_need_decelerate true s))).
Proof.
  intros (Ht & Ha & Hs & Hp & Hpos) Hd.
  destruct (target_clamped (perturbed_actor_transform_list s) (step s)
              (total_steps s) Hp Hpos) as (target & En & Eg).
  exists target. split; [exact En|].
  destruct (other_actor_transform s) as [|t0 ts] eqn:Et; [contradiction|].
  destruct (other_actors s) as [|a0 as'] eqn:Ea; [contradiction|].
  unfold update_behavior, bind, reads, lookup, modify.
  rewrite Et. cbn [nth_error]. rewrite Ea. cbn [nth_error].
  rewrite (latch_set d s Hd).
  change (other_actors (set_need_decelerate true s)) with (other_actors s).
  rewrite Ea. unfold for_range. cbn [length seq for_each].
  unfold bind, update_actor at 1.
  cbn [Nat.eqb andb need_decelerate set_need_decelerate
       perturbed_actor_transform_list step total_steps].
  rewrite Eg. rewrite straight_loop.
  - cbn [length Nat.sub]. rewrite Nat.sub_0_r. reflexivity.
  - intros i Hi. apply in_seq in Hi. cbn in Hs |- *.
    split; [|lia]. destruct i; [lia|reflexivity].
Qed.

Lemma update_cruising_eq (d : QArith_base.Q) s :
  other_actor_transform s <> [] -> other_actors s <> [] ->
  length (other_actors s) <= length (other_actor_speed s) ->
  ~ decelerating d s ->
  update_behavior d s =
  Ok tt (calls (straight s (seq 0 (length (other_actors s)))) s).
Proof.
  intros Ht Ha Hs Hd. destruct (latch_unset d s Hd) as [Hn El].
  destruct (other_actor_transform s) as [|t0 ts] eqn:Et; [contradiction|].
  destruct (other_actors s) as [|a0 as'] eqn:Ea; [contradiction|].
  unfold update_behavior, bind, reads, lookup, modify.
  rewrite Et. cbn [nth_error]. rewrite Ea. cbn [nth_error].
  rewrite El, Ea. unfold for_range.
  apply straight_loop. intros i Hi. apply in_seq in Hi.
  rewrite Hn, andb_false_r. split; [reflexivity|]. lia.
Qed.

(** X10.  Once decelerating (the latch is set, or the measured distance
    exceeds [dece_distance]), an update of a ready scenario steers actor 0
    to the perturbed transform at index [step] while [step < total_steps]
    and to the last one afterwards, advances [step] by one, sets the latch,
    and sends every other actor straight on at its own speed with throttle
    2. *)
Theorem update_decelerating (d : QArith_base.Q) s :
  ready s -> decelerating d s ->
  exists target,
    nth_error (perturbed_actor_transform_list s)
              (Nat.min (step s) (total_steps s - 1)) = Some target /\
    update_behavior d s =
    Ok tt (calls (drive_to_target_followlane 0 target (dece_target_speed s)
                  :: straight s (seq 1 (length (other_actors s) - 1)))
                 (set_step (step s + 1) (set_need_decelerate true s))).
Proof. apply update_decelerating_eq. Qed.

(** X11.  Before that (latch unset and measured distance at most
    [dece_distance]) an update sends every actor, actor 0 included, straight
    on at its own speed and changes nothing else: [step] does not advance. *)
Theorem update_cruising (d : QArith_base.Q) s :
  other_actor_transform s <> [] -> other_actors s <> [] ->
  length (other_actors s) <= length (other_actor_speed s) ->
  ~ decelerating d s ->
  update_behavior d s =
  Ok tt (calls (straight s (seq 0 (length (other_actors s)))) s).
Proof. apply update_cruising_eq. Qed.

(** X12.  With no perturbed transform (an empty parameter list) the first
    decelerating update raises [IndexError]: the latch is set, no call is
    made on [scenario_operation] and [step] does not advance. *)
Theorem update_without_targets (d : QArith_base.Q) s :
  other_actor_transform s <> [] -> other_actors s <> [] ->
  perturbed_actor_transform_list s = [] ->
  decelerating d s ->
  update_behavior d s = Raise IndexError (set_need_decelerate true s).
Proof.
  intros Ht Ha Hp Hd.
  destruct (other_actor_transform s) as [|t0 ts] eqn:Et; [contradiction|].
  destruct (other_actors s) as [|a0 as'] eqn:Ea; [contradiction|].
  unfold update_behavior, bind, reads, lookup, modify.
  rewrite Et. cbn [nth_error]. rewrite Ea. cbn [nth_error].
  rewrite (latch_set d s Hd).
  change (other_actors (set_need_decelerate true s)) with (other_actors s).
  rewrite Ea. unfold for_range. cbn [length seq for_each].
  unfold bind, update_actor at 1.
  cbn [Nat.eqb andb need_decelerate set_need_decelerate
       perturbed_actor_transform_list step total_steps].
  rewrite Hp, py_get_nil. reflexivity.
Qed.

End LeadingVehicle.

Section LeadingVehicleRuns.

Import OtherLeadingVehicle.

Context {Transform Actor F : Type}.

Variable along : Transform -> nat -> nat -> Transform.
Variable aside : Transform -> Transform -> F -> Transform.

Implicit Types s : OtherLeadingVehicle.t Transform Actor F.

(** One update of a ready scenario returns and leaves it ready. *)
Lemma update_ready (d : QArith_base.Q) s :
  ready s ->
  exists s',
    update_behavior d s = Ok tt s' /\ ready s' /\
    perturbed_actor_transform_list s' = perturbed_actor_transform_list s /\
    (need_decelerate s = true ->
     need_decelerate s' = true /\ step s' = step s + 1) /\
    step s <= step s' <= step s + 1.
Proof.
  intros Hr. pose proof Hr as (Ht & Ha & Hs & Hp & Hpos).
  destruct (decelerating_dec d s) as [Hd|Hd].
  - destruct (update_decelerating_eq d s Hr Hd) as (target & _ & ->).
    eexists. split; [reflexivity|]. rewrite calls_eq. cbn.
    split; [repeat split; assumption|]. split; [reflexivity|].
    split; [intros Hn; split; reflexivity|]. clear. lia.
  - rewrite (update_cruising_eq d s Ht Ha Hs Hd).
    eexists. split; [reflexivity|]. rewrite calls_eq. cbn.
    split; [repeat split; assumption|]. split; [reflexivity|].
    split; [|lia]. intros Hn. exfalso. apply Hd. now left.
Qed.

(** X13.  A ready scenario stays ready: whatever distances are measured,
    no update raises, the perturbed transforms are never changed, [step]
    advances by at most one per update, and once the latch is set it stays
    set and [step] advances by exactly one per update. *)
Theorem updates_never_raise (ds : list QArith_base.Q) s :
  ready s ->
  exists s',
    update_all ds s = Ok tt s' /\ ready s' /\
    perturbed_actor_transform_list s' = perturbed_actor_transform_list s /\
    (need_decelerate s = true ->
     need_decelerate s' = true /\ step s' = step s + length ds) /\
    step s <= step s' <= step s + length ds.
Proof.
  revert s; induction ds as [|d ds IH]; intros s Hr.
  - exists s. cbn [update_all length]. rewrite Nat.add_0_r.
    split; [reflexivity|]. split; [exact Hr|]. split; [reflexivity|].
    split; [intros Hn; split; [exact Hn|reflexivity]|split; apply le_n].
  - destruct (update_ready d s Hr) as (s1 & E1 & Hr1 & P1 & L1 & B1).
    destruct (IH s1 Hr1) as (s2 & E2 & Hr2 & P2 & L2 & B2).
    exists s2. cbn [update_all length]. rewrite (bind_ok _ _ _ _ _ E1), E2.
    split; [reflexivity|]. split; [exact Hr2|]. split; [congruence|].
    split; [|lia]. intros Hn. destruct (L1 Hn) as [N1 S1].
    destruct (L2 N1) as [N2 S2]. split; [exact N2|lia].
Qed.

Lemma actor_loop (first : Transform) (l : list nat) s :
  for_each l (append_actor_transform along first) s =
  Ok tt (set_actor_transform_list
           (actor_transform_list s
            ++ map (fun i => along first i (total_steps s)) l) s).
Proof.
  revert s; induction l as [|i l IH]; intros s.
  - cbn. unfold ret. rewrite app_nil_r. now destruct s.
  - cbn [for_each]. unfold bind, append_actor_transform at 1, modify.
    rewrite IH. cbn. now rewrite <- app_assoc.
Qed.

Lemma perturbed_loop (first : Transform) (m : nat) s :
  m <= length (actor_transform_list s) -> m <= length (control_seq s) ->
  exists p,
    for_each (seq 0 m) (append_perturbed aside first) s =
    Ok tt (set_perturbed_actor_transform_list
             (perturbed_actor_transform_list s ++ p) s) /\
    length p = m /\
    forall i a c, nth_error (actor_transform_list s) i = Some a ->
                  nth_error (control_seq s) i = Some c -> i < m ->
                  nth_error p i = Some (aside first a c).
Proof.
  induction m as [|m IH]; intros Ha Hc.
  - exists []. cbn. unfold ret. rewrite app_nil_r.
    split; [now destruct s|]. split; [reflexivity|]. intros; lia.
  - destruct (IH ltac:(lia) ltac:(lia)) as (p & E & Lp & Hp).
    destruct (nth_error (actor_transform_list s) m) as [a|] eqn:Ea;
      [|apply nth_error_None in Ea; lia].
    destruct (nth_error (control_seq s) m) as [c|] eqn:Ec;
      [|apply nth_error_None in Ec; lia].
    exists (p ++ [aside first a c]).
    rewrite seq_S, for_each_app, (bind_ok _ _ _ _ _ E). cbn [Nat.add for_each].
    unfold bind, append_perturbed, bind, reads, lookup, modify, ret. cbn.
    rewrite Ea. cbn. rewrite Ec. cbn. rewrite <- app_assoc.
    split; [reflexivity|]. split; [rewrite length_app; cbn; lia|].
    intros i a' c' Ea' Ec' Hi.
    destruct (Nat.eq_dec i m) as [->|Hne].
    + rewrite nth_error_app2 by lia. rewrite Lp, Nat.sub_diag. cbn. congruence.
    + rewrite nth_error_app1 by lia. apply Hp; auto. lia.
Qed.

(** X14.  Run on the lists the constructor leaves empty, the two loops of
    [initialize_actors] return and leave one perturbed transform per control
    value: entry [i] is the [i]-th point along the run of the first vehicle
    moved aside by [control_seq[i]].  With at least one control value, the
    actors in place and a speed for each, the scenario is then ready. *)
Theorem transform_lists_built (first : Transform) s :
  actor_transform_list s = [] -> perturbed_actor_transform_list s = [] ->
  length (control_seq s) = total_steps s ->
  exists s',
    build_transform_lists along aside first s = Ok tt s' /\
    length (perturbed_actor_transform_list s') = total_steps s /\
    (forall i c, nth_error (control_seq s) i = Some c ->
       nth_error (perturbed_actor_transform_list s') i =
       Some (aside first (along first i (total_steps s)) c)) /\
    step s' = step s /\ need_decelerate s' = need_decelerate s /\
    (0 < total_steps s -> other_actor_transform s <> [] ->
     other_actors s <> [] ->
     length (other_actors s) <= length (other_actor_speed s) -> ready s').
Proof.
  intros Ha Hp Hc. unfold build_transform_lists, bind, for_range.
  rewrite actor_loop, Ha. cbn [app].
  set (s1 := set_actor_transform_list _ s).
  destruct (perturbed_loop first (total_steps s) s1) as (p & E & Lp & Hn).
  { unfold s1. cbn. now rewrite length_map, length_seq. }
  { unfold s1. cbn. lia. }
  change (total_steps s1) with (total_steps s). rewrite E.
  eexists. split; [reflexivity|]. cbn. rewrite Hp. cbn [app].
  split; [exact Lp|]. split; [|split; [reflexivity|split; [reflexivity|]]].
  - intros i c Ec.
    assert (Hi : i < total_steps s)
      by (rewrite <- Hc; apply nth_error_Some; now rewrite Ec).
    apply Hn; [|exact Ec|exact Hi].
    unfold s1. cbn. rewrite nth_error_map, nth_error_seq.
    rewrite (proj2 (Nat.ltb_lt _ _) Hi). reflexivity.
  - intros Hpos Ht Hact Hsp. unfold ready. cbn. repeat split; auto.
Qed.

End LeadingVehicleRuns.

Section DemultiplexingPerception.

Import ReplayBuffer_Perception Perception.

Context {V : Type}.

Implicit Types b : ReplayBuffer_Perception.t V.

Lemma p_routed_snoc n s (infos col : list (dict (pyval V))) key m tag e :
  nth_error infos m = Some tag -> nth_error col m = Some e ->
  routed n s (firstn (S m) infos) col key =
  routed n s (firstn m infos) col key ++
  match Generic.slot_of n tag, dict_get key e with
  | Some k, Some v => if k =? s then [v] else []
  | _, _ => []
  end.
Proof.
  revert col m; induction infos as [|t infos IH]; intros col m Ht He.
  - now destruct m.
  - destruct col as [|y col]; [now destruct m|].
    destruct m as [|m].
    + cbn in Ht, He. injection Ht as ->. injection He as ->.
      cbn [firstn routed]. destruct infos; cbn [firstn routed];
        destruct (Generic.slot_of n tag) as [k|];
        destruct (dict_get key e) as [v|];
        try destruct (k =? s); reflexivity.
    + cbn in Ht, He. specialize (IH col m Ht He).
      change (firstn (S (S m)) (t :: infos)) with (t :: firstn (S m) infos).
      change (firstn (S m) (t :: infos)) with (t :: firstn m infos).
      cbn [routed]. rewrite IH.
      destruct (Generic.slot_of n t) as [k|];
        destruct (dict_get key y) as [v|];
        try destruct (k =? s); reflexivity.
Qed.

Lemma field_inv (col : list (dict (pyval V))) s_i key v :
  field col s_i key = inr v ->
  exists e, nth_error col s_i = Some e /\ dict_get key e = Some v.
Proof.
  unfold field, rbind, lookup.
  destruct (nth_error col s_i) as [e|]; [|discriminate].
  destruct (dict_get key e) as [x|] eqn:E; [|discriminate].
  intros H. injection H as ->. eauto.
Qed.

Lemma p_routed_step n s (infos col : list (dict (pyval V))) key m tag k v
    (l0 l : list (list (pyval V))) :
  nth_error infos m = Some tag -> field col m key = inr v ->
  Generic.slot_of n tag = Some k -> k < length l ->
  nth s l [] = nth s l0 [] ++ routed n s (firstn m infos) col key ->
  nth s (app_at k v l) [] =
  nth s l0 [] ++ routed n s (firstn (S m) infos) col key.
Proof.
  intros Ht Hv Hk Hlt E. destruct (field_inv _ _ _ _ Hv) as (e & He & Hd).
  rewrite (p_routed_snoc n s infos col key m tag e Ht He), Hk, Hd.
  rewrite nth_app_at, E by exact Hlt. now rewrite app_assoc.
Qed.

(** The buffer after the first [m] records of a batch [store] accepts. *)
Lemma p_store_loop_routed ego scen ob infos b (m : nat) :
  wf b -> batch_aligned [ego; scen; ob; infos] ->
  Forall (fun tag => Generic.sid_in_range (num_scenario b) tag = true) infos ->
  m <= length infos ->
  exists st,
    for_each (seq 0 m) (store_row ego scen ob infos)
      (set_buffer_len (buffer_len b + Z.of_nat (length infos))%Z b)
    = Ok tt st /\
    wf st /\ num_scenario st = num_scenario b /\
    buffer_len st = (buffer_len b + Z.of_nat (length infos))%Z /\
    buffer_capacity st = buffer_capacity b /\
    forall s,
      nth s (buffer_predictions st) [] =
        nth s (buffer_predictions b) [] ++
        routed (num_scenario b) s (firstn m infos) ego "od_result" /\
      nth s (buffer_scenario_actions st) [] =
        nth s (buffer_scenario_actions b) [] ++
        routed (num_scenario b) s (firstn m infos) scen "attack" /\
      nth s (buffer_obs st) [] =
        nth s (buffer_obs b) [] ++
        routed (num_scenario b) s (firstn m infos) ob "img" /\
      nth s (buffer_bbox_label st) [] =
        nth s (buffer_bbox_label b) [] ++
        routed (num_scenario b) s (firstn m infos) infos "bbox_label" /\
      nth s (buffer_loss st) [] =
        nth s (buffer_loss b) [] ++
        routed (num_scenario b) s (firstn m infos) infos "iou_loss".
Proof.
  intros Hwf Hb Hf. pose proof Hb as (L1 & L2 & L3 & F1 & F2 & F3 & F4 & F5).
  induction m as [|m IH]; intros Hm.
  - eexists. split; [reflexivity|]. cbn.
    split; [exact Hwf|]. split; [reflexivity|]. split; [reflexivity|].
    split; [reflexivity|].
    intros s. rewrite !app_nil_r. repeat split.
  - destruct (IH ltac:(lia)) as (st & E & Hst & Hns & Hlen & Hcap & Hbk).
    rewrite seq_S, for_each_app, (bind_ok _ _ _ _ _ E). cbn [Nat.add for_each].
    destruct (nth_error infos m) as [tag|] eqn:Et;
      [|apply nth_error_None in Et; lia].
    rewrite Forall_forall in Hf.
    pose proof (Hf tag (nth_error_In _ _ Et)) as Hsid.
    destruct (field_sid infos m tag _ Et Hsid) as (j & k & Esid & Ek).
    destruct (field_ok ego m "od_result" ltac:(lia) F1) as [pr E1].
    destruct (field_ok scen m "attack" ltac:(lia) F2) as [sa E2].
    destruct (field_ok ob m "img" ltac:(lia) F3) as [o E3].
    destruct (field_ok infos m "bbox_label" ltac:(lia) F4) as [bl E4].
    destruct (field_ok infos m "iou_loss" ltac:(lia) F5) as [l E5].
    pose proof Hst as [Ha Hl].
    assert (Erow : store_row ego scen ob infos m st =
                   Ok tt (append_record k pr sa o bl l st)).
    { apply p_store_row_main with (i := j); auto. rewrite Hl, Hns. exact Ek. }
    rewrite (bind_ok _ _ _ _ _ Erow). unfold ret.
    eexists. split; [reflexivity|].
    assert (Hslot : Generic.slot_of (num_scenario b) tag = Some k).
    { unfold Generic.slot_of. apply field_inv in Esid as (e & He & Hd).
      rewrite Et in He. injection He as <-. now rewrite Hd. }
    assert (Hk : k < num_scenario st)
      by (rewrite Hns; eapply py_index_lt; eauto).
    pose proof Ha as (A1 & A2 & A3 & A4).
    apply lens_length in A1, A2, A3, A4.
    split; [now apply p_wf_append_record|]. split; [exact Hns|].
    split; [exact Hlen|]. split; [exact Hcap|].
    intros s. destruct (Hbk s) as (B1 & B2 & B3 & B4 & B5). cbn.
    split; [|split; [|split; [|split]]];
      eapply p_routed_step; eauto; lia.
Qed.

(** X15.  [ReplayBuffer_Perception.store] demultiplexes a well-formed batch
    of any length: every bucket of each of the five fields receives, after
    what it held, the values of exactly the records whose ['scenario_id']
    selects it, in batch order ([od_result] of the ego actions, [attack] of
    the scenario actions, [img] of the observations, [bbox_label] and
    [iou_loss] of the infos); [buffer_len] grows by the number of records
    and the capacity is unchanged. *)
Theorem perception_store_demultiplexes b ego scen ob infos :
  wf b -> batch_aligned [ego; scen; ob; infos] ->
  Forall (fun tag => Generic.sid_in_range (num_scenario b) tag = true) infos ->
  exists b',
    store [ego; scen; ob; infos] b = Ok tt b' /\
    buffer_len b' = (buffer_len b + Z.of_nat (length infos))%Z /\
    buffer_capacity b' = buffer_capacity b /\
    forall s,
      nth s (buffer_predictions b') [] =
        nth s (buffer_predictions b) [] ++
        routed (num_scenario b) s infos ego "od_result" /\
      nth s (buffer_scenario_actions b') [] =
        nth s (buffer_scenario_actions b) [] ++
        routed (num_scenario b) s infos scen "attack" /\
      nth s (buffer_obs b') [] =
        nth s (buffer_obs b) [] ++
        routed (num_scenario b) s infos ob "img" /\
      nth s (buffer_bbox_label b') [] =
        nth s (buffer_bbox_label b) [] ++
        routed (num_scenario b) s infos infos "bbox_label" /\
      nth s (buffer_loss b') [] =
        nth s (buffer_loss b) [] ++
        routed (num_scenario b) s infos infos "iou_loss".
Proof.
  intros Hwf Hb Hf.
  destruct (p_store_loop_routed ego scen ob infos b (length infos)
              Hwf Hb Hf (le_n _)) as (b' & E & _ & _ & Hlen & Hcap & Hbk).
  exists b'. split; [|split; [exact Hlen|split; [exact Hcap|]]].
  - unfold store, bind, modify, for_range. exact E.
  - intros s. rewrite firstn_all in Hbk. apply Hbk.
Qed.

End DemultiplexingPerception.

Section InitColumns.

Import ReplayBuffer Generic.

Context {V : Type}.

Implicit Types b : ReplayBuffer.t V.

(** The key loop of [store_init]. *)
Lemma init_extras_get (items : dict (list V)) d key :
  is_dict items ->
  dict_get key (init_extras items d) =
  match dict_get key items with
  | Some v => Some (match dict_get key d with Some c => c | None => [] end ++ [v])
  | None => dict_get key d
  end.
Proof.
  unfold is_dict. intros Hd.
  revert d; induction items as [|[k0 v] items IH]; intros d; [reflexivity|].
  cbn in Hd. inversion Hd as [|? ? Hnin Hd']; subst.
  cbn [init_extras dict_get].
  rewrite (IH Hd'), dict_get_register_append.
  destruct (String.eqb_spec k0 key) as [->|Hk0].
  - now rewrite (dict_get_not_in key items Hnin).
  - reflexivity.
Qed.

(** X16.  [store_init] with an [additional_dict] appends, for each key the
    dict carries, its value to the init-side column of that key, the column
    starting empty when the key is seen for the first time; the column of a
    key the dict does not carry is left as it was, registered or not. *)
Theorem store_init_columns b static_obs scenario_init_action items :
  is_dict items ->
  exists b',
    store_init static_obs scenario_init_action (Some items) b = Ok tt b' /\
    forall key,
      dict_get key (buffer_init_additional_dict b') =
      match dict_get key items with
      | Some v => Some (init_col b key ++ [v])
      | None => dict_get key (buffer_init_additional_dict b)
      end.
Proof.
  intros Hd. eexists. split; [reflexivity|].
  intros key. cbn. unfold init_col. now apply init_extras_get.
Qed.

Lemma init_col_run_op (o : Generic.op) b key :
  carries key o ->
  length (init_col b key) = length (buffer_init_action b) ->
  length (init_col (run_op o b) key) = length (buffer_init_action (run_op o b)).
Proof.
  intros Hc H. destruct o; cbn [run_op].
  - destruct (store_frame data additional_dict b)
      as (_ & _ & _ & _ & _ & F6 & _ & F8 & _).
    unfold init_col. rewrite F6, F8. exact H.
  - destruct additional_dict as [items|]; [|contradiction].
    destruct Hc as [Hd Hk]. unfold init_col. cbn.
    rewrite (init_extras_get items _ key Hd).
    unfold dict_has in Hk.
    destruct (dict_get key items) as [v|]; [|discriminate].
    rewrite !length_app. cbn. unfold init_col in H. now rewrite H.
  - destruct (finish_one_episode_state b) as [vals ->]. exact H.
  - unfold sample. rewrite reads_state. exact H.
  - unfold sample_init. rewrite reads_state. exact H.
  - exact H.
  - reflexivity.
Qed.

(** X17.  As long as every [store_init] call carries a key, the init-side
    column of that key has one entry per recorded [init_action] batch,
    whatever other calls are made in between and whether they return or
    raise: the column stays aligned with [buffer_init_action], which
    [sample_init] slices with the same [start_idx]. *)
Theorem init_columns_aligned n mode capacity (ops : list Generic.op) key :
  Forall (carries key) ops ->
  length (init_col (run ops (@ReplayBuffer.init V n mode capacity)) key) =
  length (buffer_init_action (run ops (@ReplayBuffer.init V n mode capacity))).
Proof.
  assert (H0 : length (init_col (@ReplayBuffer.init V n mode capacity) key) =
               length (buffer_init_action (@ReplayBuffer.init V n mode capacity)))
    by reflexivity.
  revert H0. generalize (@ReplayBuffer.init V n mode capacity).
  unfold run. induction ops as [|o ops IH]; intros b Hb Hf; [exact Hb|].
  inversion Hf as [|? ? Ho Hf']; subst.
  cbn [fold_left]. apply IH; [|exact Hf']. now apply init_col_run_op.
Qed.

End InitColumns.

(** ** Instances of the properties above *)

Section MoreInstances.

Import Examples.

Lemma store_demultiplexes_witness :
  exists b',
    ReplayBuffer.store two_steps [tag 1; tag (-2)] (fresh 2) = Ok tt b' /\
    ReplayBuffer.buffer_len b' = 2%Z /\
    nth 0 (ReplayBuffer.buffer_rewards b') [] = [20%Z] /\
    nth 1 (ReplayBuffer.buffer_rewards b') [] = [10%Z] /\
    nth 0 (ReplayBuffer.buffer_obs b') [] = ["o1"] /\
    nth 1 (ReplayBuffer.buffer_obs b') [] = ["o0"].
Proof.
  destruct (store_demultiplexes (fresh 2) two_steps [tag 1; tag (-2)])
    as (b' & E & L & H).
  - apply wf_extra_fresh.
  - unfold Generic.covers. cbn. lia.
  - cbn. lia.
  - repeat constructor.
  - exists b'. split; [exact E|]. split; [exact L|].
    destruct (H 0) as (_ & _ & O0 & _ & R0 & _).
    destruct (H 1) as (_ & _ & O1 & _ & R1 & _).
    repeat split; assumption.
Defined.

Lemma store_extras_at_position_witness :
  exists b',
    ReplayBuffer.store two_steps [tag_cost 1 "c"; tag 0] (fresh 2) = Ok tt b' /\
    nth_error (ReplayBuffer.buffer_additional_dict b') 0 =
      Some (Generic.register_all (tag_cost 1 "c") []) /\
    nth_error (ReplayBuffer.buffer_additional_dict b') 1 =
      Some (Generic.register_all (tag 0) []).
Proof.
  destruct (store_extras_at_position (fresh 2) two_steps [tag_cost 1 "c"; tag 0])
    as (b' & E & H & _).
  - apply wf_extra_fresh.
  - unfold Generic.covers. cbn. lia.
  - cbn. lia.
  - repeat constructor.
  - exists b'. split; [exact E|]. split.
    + destruct (H 0 _ eq_refl) as (d & Ed & Ed'). cbn in Ed.
      injection Ed as <-. exact Ed'.
    + destruct (H 1 _ eq_refl) as (d & Ed & Ed'). cbn in Ed.
      injection Ed as <-. exact Ed'.
Defined.

Lemma history_is_kept_witness :
  Generic.history_kept (fresh 2) (Generic.run calls (fresh 2)) /\
  ReplayBuffer.buffer_capacity (Generic.run calls (fresh 2)) = 1000%Z /\
  ReplayBuffer.num_scenario (Generic.run calls (fresh 2)) = 2.
Proof.
  apply (history_is_kept calls (fresh 2)). repeat constructor.
Defined.

Lemma buffer_len_counts_witness :
  Generic.counted (Generic.run good_calls (ReplayBuffer.init 2 "train_agent" 10)) /\
  Perception.counted
    (Perception.run p_calls (ReplayBuffer_Perception.init 1 "eval" 1000)).
Proof.
  destruct (@buffer_len_counts string) as [G P]. split.
  - apply G.
    + repeat constructor.
    + repeat constructor.
    + cbn [Generic.stores_return good_calls]. repeat split; vm_compute; reflexivity.
  - apply P.
    + repeat constructor; exact p_batch_ok.
    + cbn [Perception.stores_return p_calls]. repeat split; vm_compute; reflexivity.
Defined.


Lemma sample_needs_capacity_witness :
  fails (ReplayBuffer.sample 1 (fun k => k) two_episodes) /\
  fails (ReplayBuffer_Perception.sample 1 (fun k => k)
           (@ReplayBuffer_Perception.init string 2 "eval" 1)).
Proof.
  destruct (@sample_needs_capacity string) as [G P]. split.
  - apply G; [repeat split|vm_compute; reflexivity].
  - apply P; [repeat split|vm_compute; reflexivity].
Defined.

Lemma sample_init_pairs_witness :
  exists idx bt,
    randint (length (Generic.init_window single_rows)) 2 (fun k => k) = inr idx /\
    ReplayBuffer.sample_init 2 (fun k => k) single_rows = Ok bt single_rows /\
    length (ReplayBuffer.init_action bt) = 2 /\
    length (ReplayBuffer.episode_reward bt) = 2.
Proof.
  destruct (sample_init_pairs single_rows 2 (fun k => k))
    as (idx & bt & E1 & E2 & L1 & L2 & _).
  - repeat constructor.
  - vm_compute. repeat constructor.
  - reflexivity.
  - discriminate.
  - vm_compute. discriminate.
  - exists idx, bt. repeat split; assumption.
Defined.

Lemma finish_ignores_episode_in_progress_witness :
  ReplayBuffer.finish_one_episode three_more =
  Ok tt (ReplayBuffer.set_buffer_episode_reward
           (ReplayBuffer.buffer_episode_reward three_more ++ [6%Z]) three_more).
Proof.
  apply (finish_ignores_episode_in_progress three three_more [6%Z]);
    try reflexivity.
  intros [|s] Hs.
  - split; [reflexivity|]. exists [4; 5]%Z, 2. split; reflexivity.
  - change (S s < 1) in Hs. lia.
Defined.

Lemma lane_ready_ready : OtherLeadingVehicle.ready lane_ready.
Proof.
  unfold OtherLeadingVehicle.ready. cbn.
  split; [discriminate|]. split; [discriminate|]. lia.
Defined.

Lemma update_decelerating_witness :
  exists target,
    nth_error (OtherLeadingVehicle.perturbed_actor_transform_list lane_ready) 0
      = Some target /\
    OtherLeadingVehicle.update_behavior (QArith_base.inject_Z 3) lane_ready =
    Ok tt (OtherLeadingVehicle.calls
             [OtherLeadingVehicle.drive_to_target_followlane 0 target 3;
              OtherLeadingVehicle.go_straight 12 1 (QArith_base.inject_Z 2)]
             (OtherLeadingVehicle.set_step 1
                (OtherLeadingVehicle.set_need_decelerate true lane_ready))).
Proof.
  apply (update_decelerating (QArith_base.inject_Z 3) lane_ready).
  - exact lane_ready_ready.
  - right. reflexivity.
Defined.

Lemma update_cruising_witness :
  OtherLeadingVehicle.update_behavior (QArith_base.inject_Z 2) lane_ready =
  Ok tt (OtherLeadingVehicle.calls
           [OtherLeadingVehicle.go_straight 12 0 (QArith_base.inject_Z 2);
            OtherLeadingVehicle.go_straight 12 1 (QArith_base.inject_Z 2)]
           lane_ready).
Proof.
  apply (update_cruising (QArith_base.inject_Z 2) lane_ready).
  - discriminate.
  - discriminate.
  - cbn. lia.
  - intros [H|H]; [discriminate H|]. vm_compute in H. discriminate H.
Defined.

Lemma update_without_targets_witness :
  OtherLeadingVehicle.update_behavior (QArith_base.inject_Z 3) lane_fresh =
  Raise IndexError (OtherLeadingVehicle.set_need_decelerate true lane_fresh).
Proof.
  apply (update_without_targets (QArith_base.inject_Z 3) lane_fresh).
  - discriminate.
  - discriminate.
  - reflexivity.
  - right. reflexivity.
Defined.

Lemma updates_never_raise_witness :
  exists s',
    OtherLeadingVehicle.update_all
      (map QArith_base.inject_Z [1; 3; 1; 1; 1]%Z) lane_ready = Ok tt s' /\
    OtherLeadingVehicle.ready s' /\
    OtherLeadingVehicle.perturbed_actor_transform_list s' =
      OtherLeadingVehicle.perturbed_actor_transform_list lane_ready /\
    0 <= OtherLeadingVehicle.step s' <= 5.
Proof.
  destruct (updates_never_raise (map QArith_base.inject_Z [1; 3; 1; 1; 1]%Z)
              lane_ready lane_ready_ready) as (s' & E & R & P & _ & B).
  exists s'. split; [exact E|]. split; [exact R|]. split; [exact P|exact B].
Defined.

Lemma transform_lists_built_witness :
  exists s',
    OtherLeadingVehicle.build_transform_lists lane_along lane_aside (10, 0)%Z
      lane_fresh = Ok tt s' /\
    length (OtherLeadingVehicle.perturbed_actor_transform_list s') = 3 /\
    nth_error (OtherLeadingVehicle.perturbed_actor_transform_list s') 1 =
      Some (11, -2)%Z.
Proof.
  destruct (transform_lists_built lane_along lane_aside (10, 0)%Z lane_fresh)
    as (s' & E & L & H & _); try reflexivity.
  exists s'. split; [exact E|]. split; [exact L|].
  apply (H 1 (-2)%Z). reflexivity.
Defined.

Lemma perception_store_demultiplexes_witness :
  exists b',
    ReplayBuffer_Perception.store [p_ego2; p_scen2; p_obs2; p_infos2] p_one
      = Ok tt b' /\
    ReplayBuffer_Perception.buffer_len b' = 3%Z /\
    nth 0 (ReplayBuffer_Perception.buffer_loss b') [] =
      [VData "loss"; VData "loss0"; VData "loss1"].
Proof.
  destruct (perception_store_demultiplexes p_one p_ego2 p_scen2 p_obs2 p_infos2)
    as (b' & E & L & _ & H).
  - exact p_wf_one.
  - cbn. repeat split; repeat constructor.
  - repeat constructor.
  - exists b'. split; [exact E|]. split; [exact L|].
    destruct (H 0) as (_ & _ & _ & _ & H0). exact H0.
Defined.

Ltac tags_by_position :=
  let i := fresh "i" in
  let tg := fresh "tg" in
  let H := fresh "H" in
  intros i tg H;
  repeat (destruct i as [|i]; cbn in H;
          [injection H as <-; split;
           [reflexivity
           |unfold Generic.is_dict; cbn; repeat constructor; cbn;
            intuition discriminate]|]);
  destruct i; discriminate H.

Ltac op_by_position :=
  first [exact I
        |split; [unfold Generic.covers; cbn; lia
                |split; [cbn; lia|tags_by_position]]].

Lemma store_extra_columns_witness :
  (exists b',
     ReplayBuffer.store two_steps [tag_cost 0 "c"; tag_cost 0 "d"] (fresh 2)
       = Ok tt b' /\
     Generic.column_of b' 0 "cost" = Some [VData "c"]) /\
  (exists b',
     ReplayBuffer.store two_steps [tag_cost 0 "e"; tag 1]
       (Generic.run position_calls (fresh 2)) = Ok tt b' /\
     Generic.column_of b' 0 "cost" =
       Some [VData "d"; VData "e"; VData "e"] /\
     Generic.column_of b' 1 "cost" = Some [VData "c"] /\
     length (nth 0 (ReplayBuffer.buffer_rewards b') []) = 4 /\
     length (nth 1 (ReplayBuffer.buffer_rewards b') []) = 3) /\
  (length (Generic.extra_col (Generic.run position_calls (fresh 2)) 0 "cost")
   <= length (nth 0 (ReplayBuffer.buffer_rewards
                       (Generic.run position_calls (fresh 2))) []) /\
   Generic.extra_col (Generic.run position_calls (fresh 2)) 0 "cost" =
     [VData "d"; VData "e"] /\
   nth 0 (ReplayBuffer.buffer_rewards (Generic.run position_calls (fresh 2))) []
     = [10; 5; 10]%Z) /\
  (length (Generic.extra_col (Generic.run cost_calls (fresh 2)) 0 "cost")
   = length (nth 0 (ReplayBuffer.buffer_rewards
                      (Generic.run cost_calls (fresh 2))) []) /\
   Generic.extra_col (Generic.run cost_calls (fresh 2)) 0 "cost" =
     [VData "c"; VData "e"]).
Proof.
  destruct (@store_extra_columns string) as [Hcall Hrun].
  assert (Hp : Forall (Generic.by_position 2) position_calls).
  { repeat (apply Forall_cons; [op_by_position|]); apply Forall_nil. }
  assert (Hc : Forall (Generic.by_position 2) cost_calls).
  { repeat (apply Forall_cons; [op_by_position|]); apply Forall_nil. }
  split; [|split; [|split]].
  - destruct (Hcall (fresh 2) two_steps [tag_cost 0 "c"; tag_cost 0 "d"])
      as (b' & E & Hin & _).
    + apply wf_extra_fresh.
    + unfold Generic.covers. cbn. lia.
    + cbn. lia.
    + repeat constructor.
    + exists b'. split; [exact E|].
      apply (Hin 0 (tag_cost 0 "c") eq_refl eq_refl) with (key := "cost").
      * unfold Generic.is_dict. cbn. repeat constructor; cbn;
          intuition discriminate.
      * discriminate.
  - destruct (Hcall (Generic.run position_calls (fresh 2)) two_steps
                [tag_cost 0 "e"; tag 1]) as (b' & E & Hin & _ & _ & Hpos).
    + repeat split.
    + unfold Generic.covers. cbn. lia.
    + vm_compute. repeat constructor.
    + repeat constructor.
    + destruct Hpos as [Hgrow _]; [tags_by_position|].
      exists b'. split; [exact E|]. split; [|split; [|split]].
      * apply (Hin 0 (tag_cost 0 "e") eq_refl eq_refl) with (key := "cost").
        -- unfold Generic.is_dict. cbn. repeat constructor; cbn;
             intuition discriminate.
        -- discriminate.
      * apply (Hin 1 (tag 1) eq_refl eq_refl) with (key := "cost").
        -- unfold Generic.is_dict. cbn. repeat constructor; cbn;
             intuition discriminate.
        -- discriminate.
      * apply (Hgrow 0). cbn. lia.
      * apply (Hgrow 1). cbn. lia.
  - destruct (Hrun 2 "train_agent" 1000%Z position_calls Hp 0 "cost")
      as (_ & Hle & _).
    split; [exact Hle|]. split; reflexivity.
  - destruct (Hrun 2 "train_agent" 1000%Z cost_calls Hc 0 "cost")
      as (_ & _ & Heq).
    split; [|reflexivity]. apply Heq; [discriminate|].
    repeat constructor.
Defined.

Lemma store_init_columns_witness :
  exists b',
    ReplayBuffer.store_init "obs" ["a1"] (Some [("weather", ["sun"])])
      (Generic.run init_calls (fresh 2)) = Ok tt b' /\
    dict_get "weather" (ReplayBuffer.buffer_init_additional_dict b') =
      Some [["rain"]; ["sun"; "fog"]; ["sun"]] /\
    dict_get "town" (ReplayBuffer.buffer_init_additional_dict b') =
      Some [["t5"; "t5"]].
Proof.
  destruct (store_init_columns (Generic.run init_calls (fresh 2)) "obs" ["a1"]
              [("weather", ["sun"])]) as (b' & E & H).
  - repeat constructor. intros [].
  - exists b'. split; [exact E|]. split.
    + exact (H "weather").
    + exact (H "town").
Defined.

Lemma init_columns_aligned_witness :
  length (Generic.init_col (Generic.run init_calls (fresh 2)) "weather") =
  length (ReplayBuffer.buffer_init_action (Generic.run init_calls (fresh 2))).
Proof.
  apply (init_columns_aligned 2 "train_agent" 1000%Z init_calls "weather").
  repeat constructor.
  - intros [].
  - intros [H|[]]. discriminate H.
  - intros [].
Defined.

End MoreInstances.
